(** * MOKE field-sweep automation: a shallow embedding of [MOKE.py]

    The development follows the Python class [Experiment]: the unit
    converters, the override-or-default resolvers, the acquisition routine
    [readXY], the stepping loop [_sweep_parameter] and the entry point
    [sweep_field].

    - Python [float]s and the elements of [numpy] float arrays are IEEE-754
      binary64 values ([spec_float] with precision 53 and maximal exponent
      1024); arrays are lists.
    - [None] is the [None] of [option]; a keyword argument left out at the
      call site is [Omitted].
    - The object [self], the two instruments, the figure and the file system
      form one state record that is threaded through a state-and-exception
      monad.  The instrument drivers ([srs_sr830], [bop50_8d]) are not part
      of the file: what the devices answer is a parameter ([Lab]). *)

From Stdlib Require Import ZArith Ascii String List Bool Lia.
From Stdlib Require Import Floats.SpecFloat.
From stdpp Require Import base option list gmap strings pretty.

Set Default Proof Using "Type".

(** ** binary64 arithmetic *)

Module F64.
Definition prec : Z := 53.
Definition emax : Z := 1024.

Definition t : Type := spec_float.

Definition of_Z (n : Z) : t := binary_normalize prec emax n 0 false.
Definition add : t -> t -> t := SFadd prec emax.
Definition mul : t -> t -> t := SFmul prec emax.
Definition div : t -> t -> t := SFdiv prec emax.
Definition neg : t -> t := SFopp.
Definition abs : t -> t := SFabs.
Definition ltb : t -> t -> bool := SFltb.
Definition leb : t -> t -> bool := SFleb.
(** [a > b] *)
Definition gtb (a b : t) : bool := SFltb b a.

(** The neighbours of a value among the binary64 values. *)
Definition succ : t -> t := SFsucc prec emax.
Definition pred : t -> t := SFpred prec emax.

Definition zero : t := S754_zero false.
Definition nan : t := S754_nan.

(** The decimal literal [m / 10^k], e.g. [0.8] is [dec 8 1]: both operands
    are exact and the division rounds to nearest, which is the value the
    Python parser gives the literal. *)
Definition dec (m : Z) (k : nat) : t := div (of_Z m) (of_Z (10 ^ Z.of_nat k)).
End F64.

Abbreviation float64 := F64.t.

#[global] Instance float64_eq_dec : EqDecision float64.
Proof. unfold F64.t. solve_decision. Defined.

(** ** Python builtins and numpy *)

(** [max(a, b)]: the second argument wins only when it compares greater. *)
Definition py_max (a b : float64) : float64 := if F64.gtb b a then b else a.

(** [np.array([], dtype=float)] *)
Definition np_empty : list float64 := [].
(** [np.append(a, x)] *)
Definition np_append (a : list float64) (x : float64) : list float64 := a ++ [x].
(** [np.concatenate((a, b))] *)
Definition np_concatenate (a b : list float64) : list float64 := a ++ b.
(** [-a] on an array *)
Definition np_neg (a : list float64) : list float64 := map F64.neg a.
(** The summation of [np.add.reduce] over a contiguous float64 array is
    numpy's [pairwise_sum]: fewer than 8 elements are added one after the
    other, starting from [-0.0]; 8 to 128 elements are added into 8
    accumulators, element [i] into accumulator [i mod 8], the accumulators
    are then added as a balanced tree and the elements left over (the count
    modulo 8) are added one after the other; longer arrays are cut in two,
    the first part a multiple of 8 long, and the two sums added. *)
Definition tree8 (r : list float64) : float64 :=
  let r_ (i : nat) := default F64.nan (r !! i) in
  F64.add (F64.add (F64.add (r_ 0) (r_ 1)) (F64.add (r_ 2) (r_ 3)))
          (F64.add (F64.add (r_ 4) (r_ 5)) (F64.add (r_ 6) (r_ 7))).

(** The loop [for (i = 8; i < n - (n % 8); i += 8) r[j] += a[i + j]], with
    the number of rounds still to go. *)
Fixpoint accumulate8 (rounds : nat) (r a : list float64) : list float64 * list float64 :=
  match rounds with
  | O => (r, a)
  | S rounds' => accumulate8 rounds' (zip_with F64.add r (take 8 a)) (drop 8 a)
  end.

Definition block_sum (a : list float64) : float64 :=
  let '(r, rest) := accumulate8 (length a / 8 - 1) (take 8 a) (drop 8 a) in
  fold_left F64.add rest (tree8 r).

(** The recursion is on the length, which [fuel] bounds: with fuel of at
    least the length the last case is never reached ([pairwise_sum_fuel],
    [pairwise_sum_eq]). *)
Fixpoint pairwise_sum (fuel : nat) (a : list float64) : float64 :=
  let n := length a in
  if n <? 8 then fold_left F64.add a (F64.neg F64.zero)
  else if n <=? 128 then block_sum a
  else match fuel with
       | O => block_sum a
       | S fuel' =>
           let n2 := n / 2 - (n / 2) mod 8 in
           F64.add (pairwise_sum fuel' (take n2 a)) (pairwise_sum fuel' (drop n2 a))
       end.

(** [np.add.reduce(a)]: the sum is added to the initial value of the
    reduction, [-0.0] on an array that is not empty (NumPy 1.25 and later;
    earlier versions start from [0.0], which gives another result only on
    arrays of [-0.0] alone) and [0.0] on an empty one. *)
Definition np_sum (a : list float64) : float64 :=
  match a with
  | [] => F64.zero
  | _ => F64.add (F64.neg F64.zero) (pairwise_sum (length a) a)
  end.
(** [np.mean(a)]: the sum divided by the element count; on an empty array
    this is [0.0 / 0], that is NaN (numpy warns and does not raise). *)
Definition np_mean (a : list float64) : float64 :=
  F64.div (np_sum a) (F64.of_Z (Z.of_nat (length a))).

(** ** Exceptions and results *)

Inductive exn : Type :=
| IndexError          (* index 0 of an empty array *)
| ValueError          (* time.sleep of a negative length or NaN; ragged DataFrame or
                         plot; a path with a NUL character *)
| OverflowError       (* time.sleep of a length beyond the range of the C clock type *)
| AttributeError      (* self.fig read before _make_fig *)
| FileExistsError     (* os.mkdir over an existing path *)
| FileNotFoundError   (* a path whose directory is missing, or the empty path *)
| NotADirectoryError  (* a path whose directory is a file *)
| IsADirectoryError   (* a file opened at the path of a directory *)
| OSError             (* any other refusal of the host: a sleep the clock does not
                         take, a write the file system does not allow, the missing
                         directory reported by pandas *)
| InstrumentError     (* communication failure reported by a driver *)
| ConfigurationError  (* named by the specification only *)
| ArtifactError       (* named by the specification only *)
| FuelExhausted.      (* the bound of [while_exists] reached; see [while_exists_total] *)

#[global] Instance exn_eq_dec : EqDecision exn.
Proof. solve_decision. Defined.

Inductive result (A : Type) : Type :=
| Ok (a : A)
| Raise (e : exn).
Arguments Ok {A} a.
Arguments Raise {A} e.

(** ** Data *)

(** [pd.DataFrame({'current_A': .., 'field_Oe': .., 'X': .., 'Y': ..})] *)
Record DataFrame : Type := mkDataFrame {
  current_A : list float64;
  field_Oe : list float64;
  col_X : list float64;
  col_Y : list float64
}.

Definition nrows (df : DataFrame) : nat := length (current_A df).

(** What a path of the file system holds. *)
Inductive node : Type :=
| Directory
| CsvFile (df : DataFrame)
| PngFile (xdata ch1 ch2 : list float64)
| OtherFile.

(** What the program does to the outside, in order. *)
Inductive event : Type :=
| ev_set_current (c : float64)          (* self.PS.set_current(c) went through *)
| ev_PS_current (c : float64)           (* self.PS.current = c *)
| ev_SEN_assign (s : float64)           (* self.LIA.SEN = s *)
| ev_SEN_query (s : float64)            (* self.LIA.SEN read, with the value read *)
| ev_getXY (X Y : float64)              (* self.LIA.getXY(), with the sample *)
| ev_decrease_sensitivity               (* self.LIA.decrease_sensitivity() *)
| ev_sleep (d : float64)                (* time.sleep(d) *)
| ev_subplots                           (* plt.subplots and the two empty lines *)
| ev_plot (xdata ch1 ch2 : list float64) (* the two lines redrawn *)
| ev_show                               (* plt.show() *)
| ev_close.                             (* plt.close(self.fig) *)

#[global] Instance event_eq_dec : EqDecision event.
Proof. solve_decision. Defined.

(** The bench as the program sees it.  The devices: the sample the [n]-th
    call of [getXY] returns ([None]: the call fails), whether the [n]-th call
    of [set_current] goes through, and the sensitivity the amplifier has
    after one [decrease_sensitivity].  The host: whether its clock takes a
    sleep of [d] seconds (a length that passed the checks of [time.sleep];
    the limit depends on the platform and on the uptime), and whether its
    file system lets a file or a directory be created at a path whose
    directory is there (permissions, name length, free space). *)
Record Lab : Type := mkLab {
  getXY_reply : nat -> option (float64 * float64);
  set_current_ok : nat -> bool;
  step_down : float64 -> float64;
  sleep_ok : float64 -> bool;
  write_ok : string -> bool
}.

(** [self]: the six session defaults set by [__init__], the state of the two
    instruments, the figure attribute, the file system and the events so
    far. *)
Record Experiment : Type := mkExperiment {
  sen : float64;
  sen_delay : float64;
  read_reps : Z;
  rep_delay : float64;
  read_delay : float64;
  from0delay : float64;
  LIA_SEN : float64;
  PS_current : float64;
  n_getXY : nat;
  n_set_current : nat;
  fig : option (list float64 * list float64 * list float64);
  fs : gmap string node;
  log : list event
}.

Definition set_LIA_SEN (v : float64) (s : Experiment) : Experiment :=
  mkExperiment (sen s) (sen_delay s) (read_reps s) (rep_delay s) (read_delay s)
    (from0delay s) v (PS_current s) (n_getXY s) (n_set_current s) (fig s) (fs s) (log s).
Definition set_PS_current (v : float64) (s : Experiment) : Experiment :=
  mkExperiment (sen s) (sen_delay s) (read_reps s) (rep_delay s) (read_delay s)
    (from0delay s) (LIA_SEN s) v (n_getXY s) (n_set_current s) (fig s) (fs s) (log s).
Definition set_n_getXY (v : nat) (s : Experiment) : Experiment :=
  mkExperiment (sen s) (sen_delay s) (read_reps s) (rep_delay s) (read_delay s)
    (from0delay s) (LIA_SEN s) (PS_current s) v (n_set_current s) (fig s) (fs s) (log s).
Definition set_n_set_current (v : nat) (s : Experiment) : Experiment :=
  mkExperiment (sen s) (sen_delay s) (read_reps s) (rep_delay s) (read_delay s)
    (from0delay s) (LIA_SEN s) (PS_current s) (n_getXY s) v (fig s) (fs s) (log s).
Definition set_fig (v : option (list float64 * list float64 * list float64))
    (s : Experiment) : Experiment :=
  mkExperiment (sen s) (sen_delay s) (read_reps s) (rep_delay s) (read_delay s)
    (from0delay s) (LIA_SEN s) (PS_current s) (n_getXY s) (n_set_current s) v (fs s) (log s).
Definition set_fs (v : gmap string node) (s : Experiment) : Experiment :=
  mkExperiment (sen s) (sen_delay s) (read_reps s) (rep_delay s) (read_delay s)
    (from0delay s) (LIA_SEN s) (PS_current s) (n_getXY s) (n_set_current s) (fig s) v (log s).
Definition set_log (v : list event) (s : Experiment) : Experiment :=
  mkExperiment (sen s) (sen_delay s) (read_reps s) (rep_delay s) (read_delay s)
    (from0delay s) (LIA_SEN s) (PS_current s) (n_getXY s) (n_set_current s) (fig s) (fs s) v.

(** The defaults of [__init__] (lines 44-49), on a bench whose amplifier
    stands at [sen0] and whose disk holds [disk]. *)
Definition init (sen0 : float64) (disk : gmap string node) : Experiment :=
  {| sen := F64.dec 2 4;
     sen_delay := F64.of_Z 3;
     read_reps := 1;
     rep_delay := F64.of_Z 0;
     read_delay := F64.dec 2 2;
     from0delay := F64.of_Z 4;
     LIA_SEN := sen0;
     PS_current := F64.of_Z 0;
     n_getXY := 0;
     n_set_current := 0;
     fig := None;
     fs := disk;
     log := [] |}.

(** ** The state-and-exception monad *)

Definition M (A : Type) : Type := Experiment -> result A * Experiment.

Definition ret {A} (a : A) : M A := fun s => (Ok a, s).
Definition raise {A} (e : exn) : M A := fun s => (Raise e, s).
Definition bind {A B} (m : M A) (k : A -> M B) : M B :=
  fun s => match m s with
           | (Ok a, s') => k a s'
           | (Raise e, s') => (Raise e, s')
           end.
Definition gets {A} (f : Experiment -> A) : M A := fun s => (Ok (f s), s).
Definition modify (f : Experiment -> Experiment) : M unit := fun s => (Ok tt, f s).
Definition emit (e : event) : M unit := modify (fun s => set_log (log s ++ [e]) s).
Definition lift {A} (r : result A) : M A := fun s => (r, s).

Declare Scope moke_scope.
Delimit Scope moke_scope with moke.
Notation "x <- m ;; k" := (bind m (fun x => k))
  (at level 100, m at next level, right associativity) : moke_scope.
Notation "m ;;; k" := (bind m (fun _ => k))
  (at level 100, right associativity) : moke_scope.
Notation "'when' b 'then' m" := (if b then m else ret tt)
  (at level 95, m at level 99) : moke_scope.
Open Scope moke_scope.

(** [a[i]] on an array *)
Definition np_index (a : list float64) (i : nat) : M float64 :=
  match a !! i with
  | Some x => ret x
  | None => raise IndexError
  end.

(** ** Unit converter (lines 301-323) *)

Definition field2current (field : float64) : float64 := F64.div field (F64.of_Z 193).
Definition current2field (current : float64) : float64 := F64.mul current (F64.of_Z 193).

(** ** Parameter resolvers (lines 117-181) *)

Definition _get_sen (self : Experiment) (override : option float64) : float64 :=
  match override with None => self.(sen) | Some v => v end.
Definition _get_sen_delay (self : Experiment) (override : option float64) : float64 :=
  match override with None => self.(sen_delay) | Some v => v end.
Definition _get_read_reps (self : Experiment) (override : option Z) : Z :=
  match override with None => self.(read_reps) | Some v => v end.
Definition _get_rep_delay (self : Experiment) (override : option float64) : float64 :=
  match override with None => self.(rep_delay) | Some v => v end.
Definition _get_read_delay (self : Experiment) (override : option float64) : float64 :=
  match override with None => self.(read_delay) | Some v => v end.
Definition _get_from0delay (self : Experiment) (override : option float64) : float64 :=
  match override with None => self.(from0delay) | Some v => v end.

(** ** Host services: clock, paths, files *)

Definition is_nan (d : float64) : bool :=
  match d with S754_nan => true | _ => false end.

(** The length in nanoseconds, [d * 1e9], is in the range of the C clock
    type, a signed 64-bit count: at least [-2^63] and below [2^63].  (The
    rounding of the product to an integer cannot move it across either
    bound, where every float is an integer.) *)
Definition in_time_range (d : float64) : bool :=
  let ns := F64.mul d (F64.of_Z (10 ^ 9)) in
  F64.leb (F64.of_Z (- 2 ^ 63)) ns && F64.ltb ns (F64.of_Z (2 ^ 63)).

(** [time.sleep(d)] on a float (CPython 3.5 and later): NaN is refused
    first, then a length out of the range of the clock type, then a negative
    length; what is left goes to the clock of the host. *)
Definition time_sleep (lab : Lab) (d : float64) : M unit :=
  if is_nan d then raise ValueError
  else if negb (in_time_range d) then raise OverflowError
  else if F64.ltb d F64.zero then raise ValueError
  else if negb (sleep_ok lab d) then raise OSError
  else emit (ev_sleep d).

(** The lengths on which [time.sleep] returns. *)
Definition sleepable (lab : Lab) (d : float64) : bool :=
  negb (is_nan d) && in_time_range d && negb (F64.ltb d F64.zero) && sleep_ok lab d.

Definition startswith_sep (b : string) : bool :=
  match b with
  | String c _ => Ascii.eqb c "/"%char
  | EmptyString => false
  end.

Fixpoint endswith_sep (a : string) : bool :=
  match a with
  | EmptyString => false
  | String c EmptyString => Ascii.eqb c "/"%char
  | String _ a' => endswith_sep a'
  end.

(** [os.path.join(a, b)] (posix) *)
Definition os_path_join (a b : string) : string :=
  if startswith_sep b then b
  else if String.eqb a "" || endswith_sep a then a +:+ b
  else a +:+ "/" +:+ b.

Definition os_path_exists (disk : gmap string node) (p : string) : bool :=
  bool_decide (is_Some (disk !! p)).

Definition os_path_isdir (disk : gmap string node) (p : string) : bool :=
  match disk !! p with
  | Some Directory => true
  | _ => false
  end.

Definition is_sep (c : ascii) : bool := Ascii.eqb c "/"%char.

Fixpoint has_sep (s : string) : bool :=
  match s with
  | EmptyString => false
  | String c s' => is_sep c || has_sep s'
  end.

Fixpoint has_nul (s : string) : bool :=
  match s with
  | EmptyString => false
  | String c s' => Ascii.eqb c zero || has_nul s'
  end.

(** [p[:p.rfind('/') + 1]] *)
Fixpoint upto_last_sep (p : string) : string :=
  match p with
  | EmptyString => EmptyString
  | String c p' =>
      match upto_last_sep p' with
      | EmptyString => if is_sep c then String c EmptyString else EmptyString
      | head => String c head
      end
  end.

Fixpoint all_sep (s : string) : bool :=
  match s with
  | EmptyString => true
  | String c s' => is_sep c && all_sep s'
  end.

(** [s.rstrip('/')] *)
Fixpoint rstrip_sep (s : string) : string :=
  match s with
  | EmptyString => EmptyString
  | String c s' =>
      match rstrip_sep s' with
      | EmptyString => if is_sep c then EmptyString else String c EmptyString
      | r => String c r
      end
  end.

(** [os.path.dirname(p)] (posix) *)
Definition os_path_dirname (p : string) : string :=
  let head := upto_last_sep p in
  if negb (String.eqb head "") && negb (all_sep head) then rstrip_sep head else head.

(** The disk holds paths as the program writes them, relative to the working
    directory and in normal form (no empty, [.] or [..] component).  What
    the directory of a path is on the disk: the working directory is always
    there. *)
Definition parent_of (disk : gmap string node) (p : string) : option node :=
  if String.eqb (os_path_dirname p) "" then Some Directory
  else disk !! os_path_dirname p.

(** [os.mkdir(p)].  (No path on a disk has a NUL, so the order of the first
    two tests does not show.) *)
Definition os_mkdir (lab : Lab) (p : string) : M unit :=
  disk <- gets fs ;;
  if os_path_exists disk p then raise FileExistsError
  else if has_nul p then raise ValueError
  else if String.eqb p "" then raise FileNotFoundError
  else match parent_of disk p with
       | None => raise FileNotFoundError
       | Some Directory =>
           if write_ok lab p then modify (set_fs (<[p := Directory]> disk))
           else raise OSError
       | Some _ => raise NotADirectoryError
       end.

(** [open(p, 'w')] followed by the writing of [content] *)
Definition open_w (lab : Lab) (p : string) (content : node) : M unit :=
  disk <- gets fs ;;
  if has_nul p then raise ValueError
  else if String.eqb p "" then raise FileNotFoundError
  else match parent_of disk p with
       | None => raise FileNotFoundError
       | Some Directory =>
           if os_path_isdir disk p then raise IsADirectoryError
           else if write_ok lab p then modify (set_fs (<[p := content]> disk))
           else raise OSError
       | Some _ => raise NotADirectoryError
       end.

(** ['_({})'.format(counter)] *)
Definition suffix (counter : nat) : string := "_(" +:+ pretty counter +:+ ")".

(** The renaming loop of lines 230-235 and 285-290, with the number of
    iterations bounded by [fuel]:
<<
    save_path = os.path.join(save_dir, filename + ext)
    counter = 1
    while os.path.exists(save_path):
        filename = filename + '_({})'.format(counter)
        save_path = os.path.join(save_dir, filename + ext)
        counter += 1
>>
    [None] means the bound was reached. *)
Fixpoint while_exists (fuel : nat) (disk : gmap string node) (save_dir ext : string)
    (filename save_path : string) (counter : nat) : option (string * string) :=
  match fuel with
  | O => None
  | S fuel' =>
      if os_path_exists disk save_path then
        let filename := filename +:+ suffix counter in
        let save_path := os_path_join save_dir (filename +:+ ext) in
        while_exists fuel' disk save_dir ext filename save_path (S counter)
      else Some (filename, save_path)
  end.

(** The bound used by the program: one more than the number of paths on the
    disk, which [while_exists_total] shows is never reached. *)
Definition free_path (save_dir filename ext : string) : M string :=
  disk <- gets fs ;;
  match while_exists (S (size disk)) disk save_dir ext filename
          (os_path_join save_dir (filename +:+ ext)) 1 with
  | Some (_, save_path) => ret save_path
  | None => raise FuelExhausted
  end.

(** [pd.DataFrame({...})]: the four columns must have one length. *)
Definition pd_DataFrame (currents fields x_arr y_arr : list float64) : M DataFrame :=
  if (length fields =? length currents) && (length x_arr =? length currents)
     && (length y_arr =? length currents)
  then ret (mkDataFrame currents fields x_arr y_arr)
  else raise ValueError.

(** [df.to_csv(save_path, index=False)]: pandas looks for the directory of
    the path before it opens the file, and reports a missing one as
    [OSError]. *)
Definition to_csv (lab : Lab) (df : DataFrame) (save_path : string) : M unit :=
  disk <- gets fs ;;
  match parent_of disk save_path with
  | Some Directory => open_w lab save_path (CsvFile df)
  | _ => raise OSError
  end.

(** ** Figure (lines 325-361) *)

(** The figure is kept as the data of its two lines.  The title and the axis
    labels are strings for the reader of the plot and are left out; the
    title of [sweep_field] formats [fields.min()] and [fields.max()], which
    exist whenever the ramp step before it has read [currents[0]].  Plotting
    x against y of another length is the [ValueError] of matplotlib. *)
Definition _make_fig : M unit :=
  emit ev_subplots ;;;
  modify (set_fig (Some ([], [], []))) ;;;
  emit ev_show.

Definition _update_sweep_plot (xdata ch1_data ch2_data : list float64) : M unit :=
  f <- gets fig ;;
  match f with
  | None => raise AttributeError
  | Some _ =>
      if (length xdata =? length ch1_data) && (length xdata =? length ch2_data)
      then emit (ev_plot xdata ch1_data ch2_data) ;;;
           modify (set_fig (Some (xdata, ch1_data, ch2_data)))
      else raise ValueError
  end.

(** [self.fig.savefig(save_path, dpi=600)] *)
Definition savefig_to (lab : Lab) (save_path : string) : M unit :=
  f <- gets fig ;;
  match f with
  | None => raise AttributeError
  | Some (xdata, ch1, ch2) => open_w lab save_path (PngFile xdata ch1 ch2)
  end.

(** [plt.close(self.fig)] *)
Definition plt_close_fig : M unit :=
  f <- gets fig ;;
  match f with
  | None => raise AttributeError
  | Some _ => emit ev_close
  end.

(** ** Keyword arguments *)

Inductive kwarg (A : Type) : Type :=
| Omitted
| Given (a : A).
Arguments Omitted {A}.
Arguments Given {A} a.

Definition bind_kw {A} (default : A) (k : kwarg A) : A :=
  match k with
  | Omitted => default
  | Given a => a
  end.

(** The keyword arguments of [sweep_field] as written at a call site. *)
Record sweep_kwargs : Type := mkKwargs {
  kw_close_loop : kwarg bool;
  kw_livefig : kwarg bool;
  kw_savefig : kwarg bool;
  kw_closefig : kwarg bool;
  kw_file_prefix : kwarg string;
  kw_sen : kwarg (option float64);
  kw_sen_delay : kwarg (option float64);
  kw_read_reps : kwarg (option Z);
  kw_rep_delay : kwarg (option float64);
  kw_read_delay : kwarg (option float64);
  kw_from0delay : kwarg (option float64);
  kw_return_XY : kwarg bool
}.

Definition no_kwargs : sweep_kwargs :=
  mkKwargs Omitted Omitted Omitted Omitted Omitted Omitted Omitted Omitted Omitted
    Omitted Omitted Omitted.

Section Program.
Variable lab : Lab.

(** *** Instrument drivers *)

(** [self.PS.set_current(c)] *)
Definition PS_set_current (c : float64) : M unit :=
  n <- gets n_set_current ;;
  modify (set_n_set_current (S n)) ;;;
  if set_current_ok lab n
  then emit (ev_set_current c) ;;; modify (set_PS_current c)
  else raise InstrumentError.

(** [self.PS.current = c] *)
Definition PS_current_setattr (c : float64) : M unit :=
  emit (ev_PS_current c) ;;; modify (set_PS_current c).

(** [self.LIA.getXY()] *)
Definition LIA_getXY : M (float64 * float64) :=
  n <- gets n_getXY ;;
  modify (set_n_getXY (S n)) ;;;
  match getXY_reply lab n with
  | Some XY => emit (ev_getXY (fst XY) (snd XY)) ;;; ret XY
  | None => raise InstrumentError
  end.

(** [self.LIA.SEN = s] *)
Definition LIA_SEN_setattr (s : float64) : M unit :=
  emit (ev_SEN_assign s) ;;; modify (set_LIA_SEN s).

(** [self.LIA.SEN] *)
Definition LIA_SEN_getattr : M float64 :=
  s <- gets LIA_SEN ;;
  emit (ev_SEN_query s) ;;;
  ret s.

(** [self.LIA.decrease_sensitivity()] *)
Definition LIA_decrease_sensitivity : M unit :=
  s <- gets LIA_SEN ;;
  emit ev_decrease_sensitivity ;;;
  modify (set_LIA_SEN (step_down lab s)).

(** *** Acquisition (lines 364-394) *)

(** The body of [for i in range(read_reps)], [n] iterations left. *)
Fixpoint readXY_loop (n : nat) (rep_delay : float64) (X_arr Y_arr : list float64)
    : M (list float64 * list float64) :=
  match n with
  | O => ret (X_arr, Y_arr)
  | S n' =>
      XY <- LIA_getXY ;;
      let X_arr := np_append X_arr (fst XY) in
      let Y_arr := np_append Y_arr (snd XY) in
      time_sleep lab rep_delay ;;;
      readXY_loop n' rep_delay X_arr Y_arr
  end.

Definition readXY (read_reps : option Z) (rep_delay sen_delay : option float64)
    : M (float64 * float64) :=
  read_reps <- gets (fun self => _get_read_reps self read_reps) ;;
  rep_delay <- gets (fun self => _get_rep_delay self rep_delay) ;;
  sen_delay <- gets (fun self => _get_sen_delay self sen_delay) ;;
  arrs <- readXY_loop (Z.to_nat read_reps) rep_delay np_empty np_empty ;;
  let Xval := np_mean (fst arrs) in
  let Yval := np_mean (snd arrs) in
  SEN <- LIA_SEN_getattr ;;
  let sen_ratio := F64.div (F64.abs (py_max (F64.abs Xval) (F64.abs Yval))) SEN in
  (when F64.gtb sen_ratio (F64.dec 8 1) then
     (LIA_decrease_sensitivity ;;; time_sleep lab sen_delay)) ;;;
  ret (Xval, Yval).

(** *** Stepping (lines 243-298) *)

(** The loop-carried variables [xrange], [X_array], [Y_array]. *)
Definition locals : Type := list float64 * list float64 * list float64.

(** The body of [for i, param in enumerate(params)] from index [i] on, over
    the set-points still to come. *)
Fixpoint for_params (params : list float64) (setter_method : float64 -> M unit)
    (livefig close_loop : bool) (read_reps : option Z)
    (rep_delay sen_delay read_delay : option float64)
    (rest : list float64) (i : nat) (vars : locals) : M locals :=
  match rest with
  | [] => ret vars
  | param :: rest' =>
      let '(xrange, X_array, Y_array) := vars in
      setter_method param ;;;
      d <- gets (fun self => _get_read_delay self read_delay) ;;
      time_sleep lab d ;;;
      XY <- readXY read_reps rep_delay sen_delay ;;
      let X_array := np_append X_array (fst XY) in
      let Y_array := np_append Y_array (snd XY) in
      vars <- (if close_loop && (Z.of_nat i =? Z.of_nat (length params) - 1)%Z then
                 p0 <- np_index params 0 ;;
                 X0 <- np_index X_array 0 ;;
                 Y0 <- np_index Y_array 0 ;;
                 ret (np_append xrange (current2field p0),
                      np_append X_array X0, np_append Y_array Y0)
               else ret (xrange, X_array, Y_array)) ;;
      let '(xrange, X_array, Y_array) := vars in
      (when livefig then
         if close_loop then
           if (Z.of_nat i =? Z.of_nat (length params) - 1)%Z
           then _update_sweep_plot (take (i + 2) xrange) X_array Y_array
           else _update_sweep_plot (take (i + 1) xrange) X_array Y_array
         else _update_sweep_plot (take (i + 1) xrange) X_array Y_array) ;;;
      emit ev_show ;;;
      for_params params setter_method livefig close_loop read_reps
        rep_delay sen_delay read_delay rest' (S i) (xrange, X_array, Y_array)
  end.

Definition _sweep_parameter (params : list float64) (setter_method : float64 -> M unit)
    (save_dir : string) (livefig savefig closefig : bool) (sen : option float64)
    (sen_delay : option float64) (read_reps : option Z)
    (rep_delay read_delay : option float64) (xrange : list float64)
    (filename : string) (close_loop : bool) : M (list float64 * list float64) :=
  s <- gets (fun self => _get_sen self sen) ;;
  LIA_SEN_setattr s ;;;
  vars <- for_params params setter_method livefig close_loop read_reps
            rep_delay sen_delay read_delay params 0 (xrange, np_empty, np_empty) ;;
  let '(xrange, X_array, Y_array) := vars in
  PS_current_setattr (F64.of_Z 0) ;;;
  save_path <- free_path save_dir filename ".png" ;;
  (when savefig then savefig_to lab save_path) ;;;
  (when closefig then plt_close_fig) ;;;
  ret (X_array, Y_array).

(** *** Entry point (lines 183-241) *)

Definition sweep_field (fields : list float64) (save_dir filename : string)
    (kw : sweep_kwargs) : M (option (list float64 * list float64)) :=
  let close_loop := bind_kw false kw.(kw_close_loop) in
  let livefig := bind_kw true kw.(kw_livefig) in
  let savefig := bind_kw true kw.(kw_savefig) in
  let closefig := bind_kw false kw.(kw_closefig) in
  let sen := bind_kw (Some (F64.dec 2 3)) kw.(kw_sen) in
  let sen_delay := bind_kw None kw.(kw_sen_delay) in
  let read_reps := bind_kw None kw.(kw_read_reps) in
  let rep_delay := bind_kw None kw.(kw_rep_delay) in
  let read_delay := bind_kw None kw.(kw_read_delay) in
  let from0delay := bind_kw None kw.(kw_from0delay) in
  let return_XY := bind_kw false kw.(kw_return_XY) in
  disk <- gets fs ;;
  (when negb (os_path_isdir disk save_dir) then os_mkdir lab save_dir) ;;;
  let fields := np_concatenate fields (np_neg fields) in
  let currents := map field2current fields in
  c0 <- np_index currents 0 ;;
  PS_set_current c0 ;;;
  d <- gets (fun self => _get_from0delay self from0delay) ;;
  time_sleep lab d ;;;
  (when livefig then _make_fig) ;;;
  arrs <- _sweep_parameter currents PS_set_current save_dir livefig savefig closefig
            sen sen_delay read_reps rep_delay read_delay fields filename close_loop ;;
  let '(x_arr, y_arr) := arrs in
  cf <- (if close_loop then
           c0 <- np_index currents 0 ;;
           f0 <- np_index fields 0 ;;
           ret (np_append currents c0, np_append fields f0)
         else ret (currents, fields)) ;;
  let '(currents, fields) := cf in
  save_path <- free_path save_dir filename ".csv" ;;
  df <- pd_DataFrame currents fields x_arr y_arr ;;
  to_csv lab df save_path ;;;
  if return_XY then ret (Some (x_arr, y_arr)) else ret None.
End Program.

(** ** Time strings (lines 28, 62-66 and 110-115) *)

(** [datetime.now()]: the fields the program reads. *)
Record datetime : Type := mkDatetime {
  year : nat;
  month : nat;
  day : nat;
  hour : nat;
  minute : nat;
  second : nat
}.

(** ['{}-{}-{}_{}-{}-{}'.format(now.year, ..., now.second)] (lines 110-115),
    with the clock reading as argument; ['{}'] writes an [int] in decimal
    without padding. *)
Definition _get_timestring (now : datetime) : string :=
  pretty (year now) +:+ "-" +:+ pretty (month now) +:+ "-" +:+ pretty (day now) +:+ "_"
  +:+ pretty (hour now) +:+ "-" +:+ pretty (minute now) +:+ "-" +:+ pretty (second now).

(** [__str__] (lines 62-66) *)
Definition __str__ (now : datetime) : string :=
  "MOKE Experiment @ " +:+ _get_timestring now.

(** The log file path [__init__] makes up when none is given (line 28). *)
Definition default_logFilePath (now : datetime) : string :=
  "./Experiment_Logs/MOKE_log_" +:+ _get_timestring now +:+ ".log".

(** ** Vocabulary of the statements *)

(** The statements of [sweep_field] that build the field sequence (lines
    211 and 226-227): the mirrored sequence, with its first element appended
    again when the loop is to be closed. *)
Definition sweep_plan (fields : list float64) (close_loop : bool) : M (list float64) :=
  let fields := np_concatenate fields (np_neg fields) in
  if close_loop then
    f0 <- np_index fields 0 ;;
    ret (np_append fields f0)
  else ret fields.

(** A bench on which no instrument call fails. *)
Definition reliable (lab : Lab) : Prop :=
  (forall n, set_current_ok lab n = true) /\ (forall n, is_Some (getXY_reply lab n)).

(** The events of one pass through the sampling loop of [readXY]. *)
Definition sample_events (rep_delay : float64) (samples : list (float64 * float64))
    : list event :=
  concat (map (fun XY => [ev_getXY (fst XY) (snd XY); ev_sleep rep_delay]) samples).

(** The ratio of line 390 as the specification writes it. *)
Definition sen_ratio (Xmean Ymean gain : float64) : float64 :=
  F64.div (py_max (F64.abs Xmean) (F64.abs Ymean)) gain.

(** The gain levels read by the acquisition steps, in order. *)
Definition observed_gains (evs : list event) : list float64 :=
  omap (fun e => match e with ev_SEN_query s => Some s | _ => None end) evs.

Definition is_SEN_assign (e : event) : bool :=
  match e with ev_SEN_assign _ => true | _ => false end.

Definition is_PS_current (e : event) : bool :=
  match e with ev_PS_current _ => true | _ => false end.

Definition is_gain_event (e : event) : bool :=
  match e with
  | ev_SEN_assign _ | ev_SEN_query _ | ev_decrease_sensitivity => true
  | _ => false
  end.

(** The gain of the amplifier after the events [evs], started at [g], as
    long as every query reads the gain the amplifier has and nothing assigns
    it. *)
Fixpoint gain_after (lab : Lab) (g : float64) (evs : list event) : option float64 :=
  match evs with
  | [] => Some g
  | ev_SEN_query s :: evs' => if decide (s = g) then gain_after lab g evs' else None
  | ev_decrease_sensitivity :: evs' => gain_after lab (step_down lab g) evs'
  | ev_SEN_assign _ :: _ => None
  | _ :: evs' => gain_after lab g evs'
  end.

(** [g'] is [g] after some number of step-downs. *)
Definition stepped_down (lab : Lab) (g' g : float64) : Prop :=
  exists k : nat, g' = Nat.iter k (step_down lab) g.

(** Later elements are below earlier ones. *)
Definition non_increasing (le : relation float64) (l : list float64) : Prop :=
  forall i j x y, i <= j -> l !! i = Some x -> l !! j = Some y -> le y x.

(** Between two states: the events added. *)
Definition events_since (s s' : Experiment) (evs : list event) : Prop :=
  log s' = log s ++ evs.

(** Between two states: no output-zeroing assignment was issued and no file
    was written (a directory may have been created). *)
Definition no_zero_no_artifact (s s' : Experiment) : Prop :=
  (exists evs, events_since s s' evs /\ forallb (fun e => negb (is_PS_current e)) evs = true)
  /\ (forall p, fs s' !! p = fs s !! p \/ (fs s !! p = None /\ fs s' !! p = Some Directory)).

(** Between two states: the gain evolved by queries and step-downs only. *)
Definition gain_steps (lab : Lab) (s s' : Experiment) : Prop :=
  exists evs, events_since s s' evs /\ gain_after lab (LIA_SEN s) evs = Some (LIA_SEN s').

(** Between two states: the session defaults are the same. *)
Definition same_defaults (s s' : Experiment) : Prop :=
  sen s' = sen s /\ sen_delay s' = sen_delay s /\ read_reps s' = read_reps s /\
  rep_delay s' = rep_delay s /\ read_delay s' = read_delay s /\ from0delay s' = from0delay s.

(** A bench for examples: every sample is (0.1, 0.1), no call fails, a
    step-down doubles the full-scale value; the clock takes sleeps of up to
    a day and the file system refuses nothing. *)
Definition demo_lab : Lab :=
  mkLab (fun _ => Some (F64.dec 1 1, F64.dec 1 1)) (fun _ => true)
        (fun g => F64.mul g (F64.of_Z 2))
        (fun d => F64.leb d (F64.of_Z 86400)) (fun _ => true).


(** A bench whose lock-in answers two reads and then no more. *)
Definition flaky_lockin : Lab :=
  mkLab (fun n => if n <? 2 then Some (F64.dec 1 1, F64.dec 1 1) else None)
        (fun _ => true) (fun g => g)
        (fun d => F64.leb d (F64.of_Z 86400)) (fun _ => true).

(** The paths on the disk that are at least as long as [p]: what the
    renaming loop can still collide with once it has reached [p]. *)
Definition longer_on_disk (disk : gmap string node) (p : string) : gset string :=
  filter (fun q => String.length p <= String.length q) (dom disk).

(** The file name after [k] rounds of the renaming loop entered with
    [counter]. *)
Fixpoint renamed (filename : string) (counter k : nat) : string :=
  match k with
  | O => filename
  | S k' => renamed (filename +:+ suffix counter) (S counter) k'
  end.

(** Between two states: no gain event at all, and the gain and the default
    gain are what they were. *)
Definition gain_quiet (s s' : Experiment) : Prop :=
  (exists evs, events_since s s' evs /\ forallb (fun e => negb (is_gain_event e)) evs = true)
  /\ LIA_SEN s' = LIA_SEN s /\ sen s' = sen s.

(** Between the states around a sweep called with the gain override [o]:
    either no gain event occurred, or the gain was assigned once, to the
    resolved override and before any other gain event, and evolved by
    queries and step-downs from there. *)
Definition gain_set_once (lab : Lab) (o : option float64) (s s' : Experiment) : Prop :=
  gain_quiet s s' \/
  exists pre post,
    events_since s s' (pre ++ ev_SEN_assign (_get_sen s o) :: post) /\
    forallb (fun e => negb (is_gain_event e)) pre = true /\
    gain_after lab (_get_sen s o) post = Some (LIA_SEN s').

(** A command keeps a relation between the state it starts in and the state
    it ends in, whatever its outcome. *)
Definition keeps {A} (R : relation Experiment) (m : M A) : Prop :=
  forall s, R s (m s).2.

(** A command never ends in the exception [e]. *)
Definition never_raises {A} (e : exn) (m : M A) : Prop :=
  forall s, (m s).1 <> Raise e.

(** Whenever a command ends in the exception [e], the relation holds between
    the state it started in and the state it ended in. *)
Definition raises_within {A} (e : exn) (R : relation Experiment) (m : M A) : Prop :=
  forall s, (m s).1 = Raise e -> R s (m s).2.

(** Between two states: the defaults are the same, a figure, once there,
    stays, and what is on the disk stays as it is (the disk only grows). *)
Definition settled (s s' : Experiment) : Prop :=
  same_defaults s s' /\ (is_Some (fig s) -> is_Some (fig s')) /\ fs s ⊆ fs s'.

(** Between two states: settled, and the disk is the same. *)
Definition steady (s s' : Experiment) : Prop :=
  settled s s' /\ fs s' = fs s.

(** From [s] the command returns, with a value and a final state that
    satisfy [P], the final state being related to [s] by [R]. *)
Definition succeeds {A} (R : relation Experiment) (P : A -> Experiment -> Prop)
    (m : M A) (s : Experiment) : Prop :=
  exists a s', m s = (Ok a, s') /\ P a s' /\ R s s'.

(** The duplicate of the first point that closes the loop, appended once
    the last of the set-points [rest] has been read. *)
Definition closing (close_loop : bool) (rest l : list float64) : list float64 :=
  if close_loop && bool_decide (rest <> []) then take 1 l else [].

(** The exceptions that the specification names and no statement of the
    program raises. *)
Definition spec_only (e : exn) : Prop := e = ConfigurationError \/ e = ArtifactError.

(** The commands that reach the power source. *)
Definition is_source_event (e : event) : bool :=
  match e with ev_set_current _ | ev_PS_current _ => true | _ => false end.

(** Between two states: no command was sent to the power source and its
    output is what it was. *)
Definition source_quiet (s s' : Experiment) : Prop :=
  (exists evs, events_since s s' evs /\
     forallb (fun e => negb (is_source_event e)) evs = true)
  /\ PS_current s' = PS_current s.

(** Between two states: the figure attribute is what it was. *)
Definition figure_untouched (s s' : Experiment) : Prop := fig s' = fig s.

(** The decimal digits. *)
Definition is_digit (c : ascii) : bool :=
  (48 <=? nat_of_ascii c) && (nat_of_ascii c <=? 57).

(** A string of decimal digits. *)
Fixpoint all_digits (s : string) : bool :=
  match s with
  | EmptyString => true
  | String c s' => is_digit c && all_digits s'
  end.

(** [p.split('/')] *)
Fixpoint split_sep (p : string) : list string :=
  match p with
  | EmptyString => [EmptyString]
  | String c p' =>
      if is_sep c then EmptyString :: split_sep p'
      else match split_sep p' with
           | [] => [String c EmptyString]
           | w :: ws => String c w :: ws
           end
  end.

Definition dots (w : string) : bool := String.eqb w "." || String.eqb w "..".

(** A directory path on which the model of the disk is faithful: not empty,
    without NUL and in normal form, that is without a separator at its end
    and without a component that is empty, [.] or [..]; a separator at its
    beginning (an absolute path) is allowed. *)
Definition tidy_dir (d : string) : bool :=
  negb (String.eqb d "") && negb (endswith_sep d) && negb (has_nul d) &&
  match split_sep d with
  | [] => false
  | w :: ws => negb (dots w) && forallb (fun w => negb (String.eqb w "" || dots w)) ws
  end.

(** A file name without separator and without NUL. *)
Definition tidy_name (f : string) : bool := negb (has_sep f) && negb (has_nul f).

(** [os.mkdir(p)] creates the directory: the path is free and not empty, its
    directory is there and the host lets it be created. *)
Definition mkdir_ok (lab : Lab) (disk : gmap string node) (p : string) : bool :=
  negb (has_nul p) && negb (os_path_exists disk p) && negb (String.eqb p "") &&
  match parent_of disk p with Some Directory => true | _ => false end &&
  write_ok lab p.

(** A file can be written at [p]: the path is not empty and not a directory,
    its directory is there and the host lets it be written. *)
Definition writable (lab : Lab) (disk : gmap string node) (p : string) : bool :=
  negb (has_nul p) && negb (String.eqb p "") &&
  match parent_of disk p with Some Directory => true | _ => false end &&
  negb (os_path_isdir disk p) && write_ok lab p.

(** The host lets the files of a sweep be written: every name the renaming
    loop can come to in at most [n] rounds, with any extension. *)
Definition host_writes (lab : Lab) (save_dir filename : string) (n : nat) : Prop :=
  forall k ext, k <= n ->
    write_ok lab (os_path_join save_dir (renamed filename 1 k +:+ ext)) = true.

(** The error with which [time.sleep] refuses a length before it comes to
    the clock of the host, if it does: [ValueError] for NaN and for a
    negative length, [OverflowError] for a length out of the range of the
    clock type, such as an infinity, [1e10] or [-1e10]. *)
Definition sleep_refusal (d : float64) : option exn :=
  if is_nan d then Some ValueError
  else if negb (in_time_range d) then Some OverflowError
  else if F64.ltb d F64.zero then Some ValueError
  else None.

(** ** The monad *)

Ltac unfold_setters :=
  unfold set_LIA_SEN, set_PS_current, set_n_getXY, set_n_set_current,
    set_fig, set_fs, set_log in *.

Lemma bind_ok {A B} (m : M A) (k : A -> M B) s a s' :
  m s = (Ok a, s') -> bind m k s = k a s'.
Proof. intros H. unfold bind. by rewrite H. Qed.

Lemma bind_raise {A B} (m : M A) (k : A -> M B) s e s' :
  m s = (Raise e, s') -> bind m k s = (Raise e, s').
Proof. intros H. unfold bind. by rewrite H. Qed.

Lemma bind_inv_ok {A B} (m : M A) (k : A -> M B) s b s'' :
  bind m k s = (Ok b, s'') -> exists a s', m s = (Ok a, s') /\ k a s' = (Ok b, s'').
Proof.
  unfold bind. destruct (m s) as [[a|e] s']; intros H; [eauto | discriminate].
Qed.

Lemma bind_inv_raise {A B} (m : M A) (k : A -> M B) s e s'' :
  bind m k s = (Raise e, s'') ->
  m s = (Raise e, s'') \/ exists a s', m s = (Ok a, s') /\ k a s' = (Raise e, s'').
Proof.
  unfold bind. destruct (m s) as [[a|e'] s']; intros H; [right; eauto | left].
  by injection H as -> ->.
Qed.

(** ** Resolvers *)

Lemma resolve_omitted self :
  _get_sen self None = sen self /\
  _get_sen_delay self None = sen_delay self /\
  _get_read_reps self None = read_reps self /\
  _get_rep_delay self None = rep_delay self /\
  _get_read_delay self None = read_delay self /\
  _get_from0delay self None = from0delay self.
Proof. by repeat split. Qed.

Lemma resolve_given self (g d1 d2 d3 d4 : float64) (r : Z) :
  _get_sen self (Some g) = g /\
  _get_sen_delay self (Some d1) = d1 /\
  _get_read_reps self (Some r) = r /\
  _get_rep_delay self (Some d2) = d2 /\
  _get_read_delay self (Some d3) = d3 /\
  _get_from0delay self (Some d4) = d4.
Proof. by repeat split. Qed.

(** ** Floats *)

Lemma abs_idem x : F64.abs (F64.abs x) = F64.abs x.
Proof. by destruct x. Qed.

Lemma abs_py_max_abs a b :
  F64.abs (py_max (F64.abs a) (F64.abs b)) = py_max (F64.abs a) (F64.abs b).
Proof. unfold py_max. destruct (F64.gtb _ _); apply abs_idem. Qed.

Lemma np_mean_empty : np_mean [] = F64.nan.
Proof. reflexivity. Qed.

Lemma pairwise_sum_unfold fuel a :
  pairwise_sum fuel a =
    let n := length a in
    if n <? 8 then fold_left F64.add a (F64.neg F64.zero)
    else if n <=? 128 then block_sum a
    else match fuel with
         | O => block_sum a
         | S fuel' =>
             let n2 := n / 2 - (n / 2) mod 8 in
             F64.add (pairwise_sum fuel' (take n2 a)) (pairwise_sum fuel' (drop n2 a))
         end.
Proof. by destruct fuel. Qed.

Lemma pairwise_cut n :
  128 < n -> n / 2 - (n / 2) mod 8 < n /\ 0 < n / 2 - (n / 2) mod 8.
Proof.
  intros Hn.
  pose proof (Nat.Div0.mod_le (n / 2) 8).
  pose proof (Nat.mod_upper_bound (n / 2) 8 ltac:(lia)).
  assert (64 <= n / 2) by (apply Nat.div_le_lower_bound; lia).
  assert (n / 2 < n) by (apply Nat.div_lt; lia).
  lia.
Qed.

(** Fuel of at least the length is enough: more changes nothing. *)
Lemma pairwise_sum_fuel fuel1 : forall fuel2 a,
  length a <= fuel1 -> length a <= fuel2 -> pairwise_sum fuel1 a = pairwise_sum fuel2 a.
Proof.
  induction fuel1 as [|fuel1 IH]; intros fuel2 a H1 H2;
    rewrite (pairwise_sum_unfold _ a), (pairwise_sum_unfold fuel2 a); cbv zeta;
    destruct (length a <? 8) eqn:E8; try done;
    destruct (length a <=? 128) eqn:E128; try done;
    apply Nat.leb_gt in E128; [lia|].
  destruct fuel2 as [|fuel2]; [lia|].
  destruct (pairwise_cut _ E128) as [Hlt Hpos].
  f_equal; apply IH; rewrite ?length_take, ?length_drop; lia.
Qed.

(** The recursion of numpy's [pairwise_sum], as [np_sum] runs it. *)
Lemma pairwise_sum_eq a :
  let n := length a in
  pairwise_sum n a =
    if n <? 8 then fold_left F64.add a (F64.neg F64.zero)
    else if n <=? 128 then block_sum a
    else let n2 := n / 2 - (n / 2) mod 8 in
         F64.add (pairwise_sum n2 (take n2 a)) (pairwise_sum (n - n2) (drop n2 a)).
Proof.
  intros n. rewrite (pairwise_sum_fuel n (S n) a) by (subst n; lia).
  rewrite pairwise_sum_unfold. cbv zeta. fold n.
  destruct (n <? 8) eqn:E8; [done|]. destruct (n <=? 128) eqn:E128; [done|].
  apply Nat.leb_gt in E128. destruct (pairwise_cut _ E128) as [Hlt Hpos].
  f_equal; apply pairwise_sum_fuel; rewrite ?length_take, ?length_drop; subst n; lia.
Qed.

(** The three regimes of the summation on the arrays 0.1, 0.2, ..., N/10.
    Seven elements are added one after the other. *)
Example np_mean_7 :
  np_mean (map (fun k => F64.dec (Z.of_nat k) 1) (seq 1 7))
  = S754_finite false 7205759403792793 (-54).
Proof. vm_compute. reflexivity. Qed.

(** Twenty elements go through the eight accumulators: the mean is 1.05,
    where adding one after the other gives 1.0499999999999998. *)
Example np_mean_20 :
  let a := map (fun k => F64.dec (Z.of_nat k) 1) (seq 1 20) in
  np_mean a = F64.dec 105 2 /\
  F64.div (fold_left F64.add a (F64.neg F64.zero)) (F64.of_Z 20) = F64.pred (F64.dec 105 2).
Proof. vm_compute. done. Qed.

(** Two hundred elements are cut into 96 and 104: the mean is
    10.049999999999999, where adding one after the other gives 10.05. *)
Example np_mean_200 :
  let a := map (fun k => F64.dec (Z.of_nat k) 1) (seq 1 200) in
  np_mean a = F64.pred (F64.dec 1005 2) /\
  F64.div (fold_left F64.add a (F64.neg F64.zero)) (F64.of_Z 200) = F64.dec 1005 2.
Proof. vm_compute. done. Qed.

(** Ten samples of 0.1 have mean 0.1: the accumulators add up to 0.8
    without rounding.  Adding one after the other gives
    0.09999999999999999. *)
Example np_mean_ten_tenths :
  let a := replicate 10 (F64.dec 1 1) in
  np_mean a = F64.dec 1 1 /\
  F64.div (fold_left F64.add a (F64.neg F64.zero)) (F64.of_Z 10) = F64.pred (F64.dec 1 1).
Proof. vm_compute. done. Qed.

(** The sign of a zero mean is that of the samples. *)
Example np_mean_zeros :
  np_mean [F64.neg F64.zero] = F64.neg F64.zero /\
  np_mean [F64.zero] = F64.zero /\
  np_mean [F64.neg F64.zero; F64.zero] = F64.zero /\
  np_mean [F64.of_Z 1; F64.of_Z (-1)] = F64.zero.
Proof. vm_compute. done. Qed.

Example np_mean_exact :
  np_mean [F64.of_Z 1; F64.of_Z 2; F64.of_Z 3; F64.of_Z 4] = F64.dec 25 1 /\
  np_mean [F64.of_Z 7] = F64.of_Z 7 /\
  np_mean [F64.of_Z 1; F64.nan] = F64.nan.
Proof. vm_compute. done. Qed.

(** [max] compares once: of two equal zeros and next to a NaN the first
    argument is returned unless the second compares greater. *)
Example py_max_cases :
  py_max (F64.of_Z 1) (F64.of_Z 2) = F64.of_Z 2 /\
  py_max (F64.of_Z 2) (F64.of_Z 1) = F64.of_Z 2 /\
  py_max F64.nan (F64.of_Z 1) = F64.nan /\
  py_max (F64.of_Z 1) F64.nan = F64.of_Z 1 /\
  py_max F64.zero (F64.neg F64.zero) = F64.zero /\
  py_max (F64.neg F64.zero) F64.zero = F64.neg F64.zero.
Proof. vm_compute. done. Qed.

(** The ratio is the larger magnitude over the gain: 0.1 over 0.125 is 0.8,
    which is no step-down; over 0.12499999999999999 it is
    0.8000000000000002, which is one. *)
Example sen_ratio_cases :
  sen_ratio (F64.dec 1 1) (F64.neg (F64.dec 5 2)) (F64.dec 125 3) = F64.dec 8 1 /\
  sen_ratio (F64.dec 5 2) (F64.neg (F64.dec 1 1)) (F64.dec 125 3) = F64.dec 8 1 /\
  F64.gtb (F64.dec 8 1) (F64.dec 8 1) = false /\
  sen_ratio (F64.dec 1 1) (F64.dec 1 1) (F64.pred (F64.dec 125 3))
    = F64.succ (F64.dec 8 1) /\
  F64.gtb (F64.succ (F64.dec 8 1)) (F64.dec 8 1) = true.
Proof. vm_compute. done. Qed.

Lemma div_nan_l y : F64.div F64.nan y = F64.nan.
Proof. reflexivity. Qed.

Lemma gtb_nan_l y : F64.gtb F64.nan y = false.
Proof. unfold F64.gtb, SFltb, SFcompare. by destruct y. Qed.

(** ** Clock *)

Lemma time_sleep_ok {lab} d : sleepable lab d = true -> time_sleep lab d = emit (ev_sleep d).
Proof.
  unfold sleepable, time_sleep.
  intros [[[H1 H2]%andb_true_iff H3]%andb_true_iff H4]%andb_true_iff.
  apply negb_true_iff in H1, H3. by rewrite H1, H2, H3, H4.
Qed.

(** ** Files *)

Lemma os_path_exists_spec disk p : os_path_exists disk p = true <-> is_Some (disk !! p).
Proof. unfold os_path_exists. apply bool_decide_eq_true. Qed.

Lemma os_path_exists_false disk p : os_path_exists disk p = false <-> disk !! p = None.
Proof.
  unfold os_path_exists. rewrite bool_decide_eq_false. by rewrite eq_None_not_Some.
Qed.

(** [os.mkdir] either raises and changes nothing, or creates the directory
    at a path that held nothing. *)
Lemma os_mkdir_cases lab p s :
  (exists e, os_mkdir lab p s = (Raise e, s)) \/
  (fs s !! p = None /\
   os_mkdir lab p s = (Ok tt, set_fs (<[p := Directory]> (fs s)) s)).
Proof.
  unfold os_mkdir, bind, gets, modify, raise. cbv beta iota.
  destruct (os_path_exists (fs s) p) eqn:E; [by eauto|].
  apply os_path_exists_false in E.
  destruct (has_nul p); [by eauto|].
  destruct (String.eqb p ""); [by eauto|].
  destruct (parent_of (fs s) p) as [[]|]; try (by eauto).
  destruct (write_ok lab p); [right | by eauto]. done.
Qed.

(** Opening a file for writing either raises and changes nothing, or puts
    the content at the path, which was not a directory. *)
Lemma open_w_cases lab p c s :
  (exists e, open_w lab p c s = (Raise e, s)) \/
  (os_path_isdir (fs s) p = false /\
   open_w lab p c s = (Ok tt, set_fs (<[p := c]> (fs s)) s)).
Proof.
  unfold open_w, bind, gets, modify, raise. cbv beta iota.
  destruct (has_nul p); [by eauto|].
  destruct (String.eqb p ""); [by eauto|].
  destruct (parent_of (fs s) p) as [[]|]; try (by eauto).
  destruct (os_path_isdir (fs s) p) eqn:E; [by eauto|].
  destruct (write_ok lab p); [right | by eauto]. done.
Qed.

Lemma to_csv_cases lab df p s :
  (exists e, to_csv lab df p s = (Raise e, s)) \/
  (os_path_isdir (fs s) p = false /\
   to_csv lab df p s = (Ok tt, set_fs (<[p := CsvFile df]> (fs s)) s)).
Proof.
  unfold to_csv, bind, gets. cbv beta iota.
  destruct (parent_of (fs s) p) as [[]|]; try (left; by eexists).
  apply open_w_cases.
Qed.

Lemma savefig_to_cases lab p s :
  (exists e, savefig_to lab p s = (Raise e, s)) \/
  (exists x a b, fig s = Some (x, a, b) /\ os_path_isdir (fs s) p = false /\
     savefig_to lab p s = (Ok tt, set_fs (<[p := PngFile x a b]> (fs s)) s)).
Proof.
  unfold savefig_to, bind, gets. cbv beta iota.
  destruct (fig s) as [[[x a] b]|] eqn:E; [|left; by eexists].
  destruct (open_w_cases lab p (PngFile x a b) s) as [|[? ?]]; [by left|].
  right. by exists x, a, b.
Qed.

(** ** Acquisition *)

Lemma readXY_loop_ok lab n : forall samples rd Xa Ya s,
  sleepable lab rd = true ->
  mapM (getXY_reply lab) (seq (n_getXY s) n) = Some samples ->
  readXY_loop lab n rd Xa Ya s =
    (Ok (Xa ++ samples.*1, Ya ++ samples.*2),
     set_log (log s ++ sample_events rd samples) (set_n_getXY (n_getXY s + n) s)).
Proof.
  induction n as [|n IH]; intros samples rd Xa Ya s Hrd Hs.
  - simpl in Hs. injection Hs as <-. simpl. unfold ret, sample_events. simpl.
    rewrite !app_nil_r, Nat.add_0_r. by destruct s.
  - simpl in Hs. destruct (getXY_reply lab (n_getXY s)) as [XY|] eqn:E; [|done].
    simpl in Hs.
    destruct (mapM _ (seq (S (n_getXY s)) n)) as [rest|] eqn:E'; [|done].
    simpl in Hs. injection Hs as <-.
    simpl. rewrite (time_sleep_ok _ Hrd).
    unfold bind at 1. unfold LIA_getXY, bind, gets, modify, emit, ret. simpl.
    rewrite E. simpl.
    match goal with |- readXY_loop _ _ _ _ _ ?s1 = _ => specialize (IH rest rd
      (np_append Xa XY.1) (np_append Ya XY.2) s1 Hrd) end.
    simpl in IH. rewrite (IH E'). unfold np_append, sample_events.
    destruct s; unfold_setters; simpl. rewrite <- !app_assoc. simpl.
    repeat f_equal. lia.
Qed.

(** What one call of [readXY] does on a bench that answers its reads. *)
Lemma readXY_run lab self
    (reps : option Z) (rd sd : option float64) (samples : list (float64 * float64)) :
  let R := _get_read_reps self reps in
  let D := _get_rep_delay self rd in
  let G := _get_sen_delay self sd in
  let Xmean := np_mean samples.*1 in
  let Ymean := np_mean samples.*2 in
  let over := F64.gtb (sen_ratio Xmean Ymean (LIA_SEN self)) (F64.dec 8 1) in
  sleepable lab D = true ->
  (over = true -> sleepable lab G = true) ->
  mapM (getXY_reply lab) (seq (n_getXY self) (Z.to_nat R)) = Some samples ->
  readXY lab reps rd sd self =
    (Ok (Xmean, Ymean),
     set_LIA_SEN (if over then step_down lab (LIA_SEN self) else LIA_SEN self)
       (set_log (log self ++ sample_events D samples ++ [ev_SEN_query (LIA_SEN self)] ++
                 (if over then [ev_decrease_sensitivity; ev_sleep G] else []))
          (set_n_getXY (n_getXY self + Z.to_nat R) self))).
Proof.
  intros R D G Xmean Ymean over HD HG Hs.
  unfold readXY, bind at 1 2 3, gets. simpl.
  fold R D G. unfold bind at 1.
  rewrite (readXY_loop_ok lab _ samples D np_empty np_empty self HD Hs). simpl.
  fold Xmean Ymean.
  unfold LIA_SEN_getattr, bind at 1 2 3, gets, emit, modify, ret. simpl.
  rewrite abs_py_max_abs. fold (sen_ratio Xmean Ymean (LIA_SEN self)). fold over.
  destruct over eqn:Hover.
  - rewrite (time_sleep_ok _ (HG eq_refl)).
    unfold LIA_decrease_sensitivity, bind, gets, emit, modify. simpl.
    destruct self; unfold_setters; simpl. by rewrite <- !app_assoc.
  - unfold bind, ret. simpl.
    destruct self; unfold_setters; simpl. by rewrite <- !app_assoc.
Qed.

(** C1. A call of [readXY] whose resolved repetition count [R] is at least 1,
    on a bench that answers the [R] reads, returns the pair of arithmetic
    means of the [R] samples, as [np.mean] computes them.  The means are
    fixed before the gain is touched: the events of the call are the [R]
    reads, then the query of the gain, then (and only when the ratio
    max(|Xmean|,|Ymean|) / gain exceeds 0.8) one step-down followed by the
    gain-settle sleep.  The gain of the amplifier afterwards is the
    stepped-down gain exactly in that case and the old gain otherwise; the
    returned pair is the same in both cases. *)
Theorem readXY_mean_before_gain_step lab self
    (reps : option Z) (rd sd : option float64) (samples : list (float64 * float64)) :
  let R := _get_read_reps self reps in
  let D := _get_rep_delay self rd in
  let G := _get_sen_delay self sd in
  let Xmean := np_mean samples.*1 in
  let Ymean := np_mean samples.*2 in
  let over := F64.gtb (sen_ratio Xmean Ymean (LIA_SEN self)) (F64.dec 8 1) in
  (1 <= R)%Z ->
  sleepable lab D = true ->
  (over = true -> sleepable lab G = true) ->
  mapM (getXY_reply lab) (seq (n_getXY self) (Z.to_nat R)) = Some samples ->
  exists self',
    readXY lab reps rd sd self = (Ok (Xmean, Ymean), self') /\
    Z.of_nat (length samples) = R /\
    events_since self self'
      (sample_events D samples ++ [ev_SEN_query (LIA_SEN self)] ++
       (if over then [ev_decrease_sensitivity; ev_sleep G] else [])) /\
    LIA_SEN self' = (if over then step_down lab (LIA_SEN self) else LIA_SEN self).
Proof.
  intros R D G Xmean Ymean over HR HD HG Hs.
  eexists. split; [by apply readXY_run|].
  split; [|done].
  apply length_mapM in Hs. rewrite length_seq in Hs. lia.
Qed.

Lemma readXY_mean_before_gain_step_witness :
  let gain := F64.pred (F64.dec 125 3) in
  let self := init gain ∅ in
  exists self',
    readXY demo_lab (Some 10%Z) None None self = (Ok (F64.dec 1 1, F64.dec 1 1), self') /\
    events_since self self'
      (sample_events (F64.of_Z 0) (replicate 10 (F64.dec 1 1, F64.dec 1 1)) ++
       [ev_SEN_query gain; ev_decrease_sensitivity; ev_sleep (F64.of_Z 3)]) /\
    LIA_SEN self' = F64.mul gain (F64.of_Z 2).
Proof.
  intros gain self.
  destruct (readXY_mean_before_gain_step demo_lab self (Some 10%Z) None None
              (replicate 10 (F64.dec 1 1, F64.dec 1 1)))
    as (self' & Hrun & _ & Hev & Hgain).
  - simpl. lia.
  - vm_compute. reflexivity.
  - intros _. vm_compute. reflexivity.
  - vm_compute. reflexivity.
  - exists self'. split; [exact Hrun|]. split; [exact Hev | exact Hgain].
Defined.

(** C10. With the repetition count given as 0, [readXY] takes no sample and
    returns (NaN, NaN) without raising; the ratio is NaN, which does not
    compare greater than 0.8, so no step-down is issued and the gain of the
    amplifier is what it was. *)
Theorem readXY_zero_reps_nan lab self (rd sd : option float64) :
  exists self',
    readXY lab (Some 0%Z) rd sd self = (Ok (F64.nan, F64.nan), self') /\
    F64.gtb (sen_ratio F64.nan F64.nan (LIA_SEN self)) (F64.dec 8 1) = false /\
    events_since self self' [ev_SEN_query (LIA_SEN self)] /\
    LIA_SEN self' = LIA_SEN self /\
    n_getXY self' = n_getXY self.
Proof.
  unfold readXY, bind, gets, LIA_SEN_getattr, emit, modify, ret. simpl.
  eexists. split; [reflexivity|]. by repeat split.
Qed.

(** ** The renaming loop *)

Lemma string_length_app (a b : string) :
  String.length (a +:+ b) = String.length a + String.length b.
Proof. induction a as [|c a IH]; simpl; [done | by rewrite IH]. Qed.

Lemma suffix_length counter : 3 <= String.length (suffix counter).
Proof. unfold suffix. rewrite !string_length_app. simpl. lia. Qed.

Lemma startswith_sep_app c f e :
  startswith_sep (String c f +:+ e) = startswith_sep (String c f).
Proof. reflexivity. Qed.

(** Each round of the loop makes the candidate path longer. *)
Lemma os_path_join_renamed_longer dir filename ext counter :
  String.length (os_path_join dir (filename +:+ ext)) <
  String.length (os_path_join dir ((filename +:+ suffix counter) +:+ ext)).
Proof.
  pose proof (suffix_length counter) as Hs.
  unfold os_path_join. destruct filename as [|c f].
  - change ("" +:+ ext) with ext.
    change (startswith_sep (("" +:+ suffix counter) +:+ ext)) with false.
    destruct (startswith_sep ext), (String.eqb dir "" || endswith_sep dir);
      rewrite ?string_length_app in *; simpl; rewrite ?string_length_app; lia.
  - change (startswith_sep ((String c f +:+ suffix counter) +:+ ext))
      with (startswith_sep (String c f +:+ ext)).
    destruct (startswith_sep (String c f +:+ ext)),
      (String.eqb dir "" || endswith_sep dir);
      rewrite ?string_length_app; simpl; rewrite ?string_length_app; lia.
Qed.

(** The loop ends: a bound above the number of paths still in reach is never
    exhausted. *)
Lemma while_exists_total disk dir ext fuel : forall filename counter,
  size (longer_on_disk disk (os_path_join dir (filename +:+ ext))) < fuel ->
  is_Some (while_exists fuel disk dir ext filename
             (os_path_join dir (filename +:+ ext)) counter).
Proof.
  induction fuel as [|fuel IH]; intros filename counter Hsize; [lia|].
  simpl. destruct (os_path_exists disk _) eqn:E; [|eauto].
  apply IH. apply os_path_exists_spec in E.
  pose proof (os_path_join_renamed_longer dir filename ext counter) as Hlen.
  assert (longer_on_disk disk (os_path_join dir ((filename +:+ suffix counter) +:+ ext))
          ⊂ longer_on_disk disk (os_path_join dir (filename +:+ ext))) as Hsub.
  { unfold longer_on_disk. split.
    - intros q [Hq Hd]%elem_of_filter. apply elem_of_filter. split; [lia | done].
    - intros Hsub.
      assert (os_path_join dir (filename +:+ ext) ∈
              filter (fun q => String.length (os_path_join dir
                        ((filename +:+ suffix counter) +:+ ext)) <= String.length q)
                     (dom disk)) as [Hq _]%elem_of_filter; [|lia].
      apply Hsub, elem_of_filter. split; [lia | by apply elem_of_dom]. }
  apply subset_size in Hsub. lia.
Qed.

(** The loop ends on a path that is not on the disk, built from the returned
    file name, which is the given one after some rounds of renaming, each
    round taken because the path it left was on the disk. *)
Lemma while_exists_first_free disk dir ext fuel : forall filename counter f p,
  while_exists fuel disk dir ext filename
    (os_path_join dir (filename +:+ ext)) counter = Some (f, p) ->
  disk !! p = None /\
  exists k, f = renamed filename counter k /\ p = os_path_join dir (f +:+ ext) /\
    forall j, j < k ->
      is_Some (disk !! os_path_join dir (renamed filename counter j +:+ ext)).
Proof.
  induction fuel as [|fuel IH]; intros filename counter f p H; [done|].
  simpl in H. destruct (os_path_exists disk _) eqn:E.
  - apply IH in H as (Hfree & k & -> & -> & Hbusy). split; [done|].
    exists (S k). repeat split; [done..|].
    intros [|j] Hj; simpl; [by apply os_path_exists_spec | apply Hbusy; lia].
  - injection H as <- <-. apply os_path_exists_false in E. split; [done|].
    exists 0. repeat split; [done..|]. intros j Hj. lia.
Qed.

Lemma longer_on_disk_size disk p : size (longer_on_disk disk p) <= size disk.
Proof.
  unfold longer_on_disk. rewrite <- size_dom.
  apply subseteq_size. intros q [_ Hq]%elem_of_filter. done.
Qed.

(** The renaming step of the program never runs out of its bound, changes
    nothing, and yields a path that is not on the disk. *)
Lemma free_path_ok dir filename ext s :
  exists p, free_path dir filename ext s = (Ok p, s) /\ fs s !! p = None.
Proof.
  unfold free_path, bind, gets. cbv beta match.
  destruct (while_exists_total (fs s) dir ext (S (size (fs s))) filename 1)
    as [[f p] Hfp].
  { pose proof (longer_on_disk_size (fs s) (os_path_join dir (filename +:+ ext))). lia. }
  rewrite Hfp. exists p. split; [done|].
  by apply while_exists_first_free in Hfp as [? _].
Qed.

(** A path written through [free_path] overwrites nothing: what was on the
    disk is still there, unchanged. *)
Lemma free_path_keeps_files dir filename ext s p (n : node) :
  free_path dir filename ext s = (Ok p, s) ->
  forall q old, fs s !! q = Some old -> <[p := n]> (fs s) !! q = Some old.
Proof.
  intros Hp q old Hq.
  destruct (free_path_ok dir filename ext s) as (p' & Hp' & Hfree).
  rewrite Hp in Hp'. injection Hp' as <-.
  rewrite lookup_insert_ne; [done|]. intros ->. congruence.
Qed.

(** The second write under one name: when only the plain path is taken, the
    path chosen carries the suffix [_(1)]. *)
Lemma free_path_second dir filename ext s :
  is_Some (fs s !! os_path_join dir (filename +:+ ext)) ->
  fs s !! os_path_join dir ((filename +:+ "_(1)") +:+ ext) = None ->
  free_path dir filename ext s =
    (Ok (os_path_join dir ((filename +:+ "_(1)") +:+ ext)), s).
Proof.
  intros Htaken Hfree. unfold free_path, bind, gets. simpl.
  destruct (size (fs s)) as [|n] eqn:Hsize.
  { apply map_size_empty_inv in Hsize. rewrite Hsize, lookup_empty in Htaken.
    by destruct Htaken. }
  simpl. apply os_path_exists_spec in Htaken. rewrite Htaken.
  change (suffix 1) with "_(1)".
  apply os_path_exists_false in Hfree. by rewrite Hfree.
Qed.

(** ** Paths *)

Lemma pretty_N_char_digit x : is_digit (pretty_N_char x) = true.
Proof. unfold pretty_N_char. by repeat case_match. Qed.

Lemma pretty_N_go_digits x : forall s,
  all_digits s = true -> all_digits (pretty_N_go x s) = true.
Proof.
  induction (N.lt_wf_0 x) as [x _ IH]; intros s Hs.
  assert (x = 0 \/ 0 < x)%N as [->|Hx] by lia; [by rewrite pretty_N_go_0|].
  rewrite pretty_N_go_step by done. apply IH; [by apply N.div_lt|].
  simpl. by rewrite pretty_N_char_digit.
Qed.

Lemma pretty_nat_digits (n : nat) : all_digits (pretty n) = true.
Proof.
  unfold pretty, pretty_nat, pretty, pretty_N. case_decide; [done|].
  by apply pretty_N_go_digits.
Qed.

Lemma while_exists_rounds disk dir ext fuel : forall filename counter f p,
  while_exists fuel disk dir ext filename
    (os_path_join dir (filename +:+ ext)) counter = Some (f, p) ->
  exists k, k < fuel /\ f = renamed filename counter k /\
    p = os_path_join dir (f +:+ ext) /\ disk !! p = None /\
    forall j, j < k ->
      is_Some (disk !! os_path_join dir (renamed filename counter j +:+ ext)).
Proof.
  induction fuel as [|fuel IH]; intros filename counter f p H; [done|].
  simpl in H. destruct (os_path_exists disk _) eqn:E.
  - apply IH in H as (k & Hk & -> & -> & Hfree & Hbusy).
    exists (S k). split; [lia|]. repeat split; [done..|].
    intros [|j] Hj; simpl; [by apply os_path_exists_spec | apply Hbusy; lia].
  - injection H as <- <-. apply os_path_exists_false in E.
    exists 0. split; [lia|]. repeat split; [done..|]. intros j Hj. lia.
Qed.

(** What the renaming step yields, with the number of rounds it took. *)
Lemma free_path_rounds dir filename ext s p s' :
  free_path dir filename ext s = (Ok p, s') ->
  s' = s /\ fs s !! p = None /\
  exists k, k <= size (fs s) /\ p = os_path_join dir (renamed filename 1 k +:+ ext).
Proof.
  unfold free_path, bind, gets. cbv beta match.
  destruct (while_exists _ _ _ _ _ _ _) as [[f q]|] eqn:Hfp; [|done].
  intros [= <- <-]. apply while_exists_rounds in Hfp as (k & Hk & -> & -> & Hfree & _).
  split; [done|]. split; [done|]. exists k. split; [lia | done].
Qed.

Lemma has_sep_app a b : has_sep (a +:+ b) = has_sep a || has_sep b.
Proof.
  induction a as [|c a IH]; [done|].
  change (is_sep c || has_sep (a +:+ b) = (is_sep c || has_sep a) || has_sep b).
  by rewrite IH, orb_assoc.
Qed.

Lemma has_nul_app a b : has_nul (a +:+ b) = has_nul a || has_nul b.
Proof.
  induction a as [|c a IH]; [done|].
  change (Ascii.eqb c zero || has_nul (a +:+ b)
          = (Ascii.eqb c zero || has_nul a) || has_nul b).
  by rewrite IH, orb_assoc.
Qed.

Lemma digit_not_sep c : is_digit c = true -> is_sep c = false /\ Ascii.eqb c zero = false.
Proof.
  intros H. unfold is_sep. split.
  - destruct (Ascii.eqb_spec c "/"%char) as [->|]; [by vm_compute in H | done].
  - destruct (Ascii.eqb_spec c zero) as [->|]; [by vm_compute in H | done].
Qed.

Lemma digits_plain s : all_digits s = true -> has_sep s = false /\ has_nul s = false.
Proof.
  induction s as [|c s IH]; [done|]. cbn. intros [Hc Hs]%andb_true_iff.
  destruct (digit_not_sep c Hc) as [-> ->]. by apply IH.
Qed.

Lemma suffix_plain counter : has_sep (suffix counter) = false /\ has_nul (suffix counter) = false.
Proof.
  unfold suffix. destruct (digits_plain _ (pretty_nat_digits counter)) as [H1 H2].
  rewrite !has_sep_app, !has_nul_app, H1, H2. done.
Qed.

Lemma renamed_plain k : forall filename counter,
  has_sep (renamed filename counter k) = has_sep filename /\
  has_nul (renamed filename counter k) = has_nul filename.
Proof.
  induction k as [|k IH]; intros filename counter; [done|]. cbn.
  destruct (IH (filename +:+ suffix counter) (S counter)) as [-> ->].
  destruct (suffix_plain counter) as [H1 H2].
  rewrite has_sep_app, has_nul_app, H1, H2, !orb_false_r. done.
Qed.

Lemma startswith_has_sep n : has_sep n = false -> startswith_sep n = false.
Proof. destruct n as [|c n]; [done|]. cbn. unfold is_sep. by intros [-> _]%orb_false_iff. Qed.

Lemma tidy_dir_inv d :
  tidy_dir d = true ->
  String.eqb d "" = false /\ endswith_sep d = false /\ has_nul d = false.
Proof.
  unfold tidy_dir.
  intros [[[H1 H2]%andb_true_iff H3]%andb_true_iff _]%andb_true_iff.
  by apply negb_true_iff in H1, H2, H3.
Qed.

Lemma os_path_join_tidy d n :
  tidy_dir d = true -> has_sep n = false -> os_path_join d n = d +:+ "/" +:+ n.
Proof.
  unfold os_path_join. intros (H1 & H2 & _)%tidy_dir_inv Hn.
  by rewrite (startswith_has_sep _ Hn), H1, H2.
Qed.

Lemma upto_last_sep_plain n : has_sep n = false -> upto_last_sep n = "".
Proof.
  induction n as [|c n IH]; [done|]. cbn. intros [Hc Hn]%orb_false_iff.
  by rewrite (IH Hn), Hc.
Qed.

Lemma upto_last_sep_join d n :
  has_sep n = false -> upto_last_sep (d +:+ "/" +:+ n) = d +:+ "/".
Proof.
  intros Hn. induction d as [|c d IH].
  - change (upto_last_sep (String "/" n) = "/"). cbn [upto_last_sep].
    by rewrite (upto_last_sep_plain _ Hn).
  - change (upto_last_sep (String c (d +:+ "/" +:+ n)) = String c (d +:+ "/")).
    cbn [upto_last_sep]. rewrite IH. by destruct d.
Qed.

Lemma rstrip_sep_join d : endswith_sep d = false -> rstrip_sep (d +:+ "/") = d.
Proof.
  induction d as [|c d IH]; [done|]. intros H.
  change (rstrip_sep (String c (d +:+ "/")) = String c d). cbn [rstrip_sep].
  destruct d as [|c' d].
  - cbn in *. unfold is_sep. by rewrite H.
  - rewrite IH by done. done.
Qed.

Lemma all_sep_endswith d : d <> "" -> all_sep d = true -> endswith_sep d = true.
Proof.
  induction d as [|c d IH]; [done|]. intros _. cbn. intros [Hc Hd]%andb_true_iff.
  destruct d as [|c' d]; [done|]. by apply IH.
Qed.

Lemma all_sep_app a b : all_sep (a +:+ b) = all_sep a && all_sep b.
Proof.
  induction a as [|c a IH]; [done|].
  change (is_sep c && all_sep (a +:+ b) = (is_sep c && all_sep a) && all_sep b).
  by rewrite IH, andb_assoc.
Qed.

(** The directory of a file put under a tidy directory is that directory. *)
Lemma os_path_dirname_join d n :
  tidy_dir d = true -> has_sep n = false -> os_path_dirname (os_path_join d n) = d.
Proof.
  intros Hd Hn. rewrite (os_path_join_tidy _ _ Hd Hn).
  apply tidy_dir_inv in Hd as (H1 & H2 & _).
  unfold os_path_dirname. rewrite (upto_last_sep_join _ _ Hn).
  assert (all_sep (d +:+ "/") = false) as ->.
  { rewrite all_sep_app. apply andb_false_iff. left.
    destruct (all_sep d) eqn:E; [|done].
    rewrite all_sep_endswith in H2; [done | | done]. intros ->. done. }
  assert (String.eqb (d +:+ "/") "" = false) as -> by (by destruct d).
  by apply rstrip_sep_join.
Qed.

(** A candidate of the renaming loop under a directory that is there can be
    written, when the host allows it. *)
Lemma writable_candidate lab disk save_dir filename k ext :
  tidy_dir save_dir = true -> tidy_name filename = true ->
  has_sep ext = false -> has_nul ext = false ->
  disk !! save_dir = Some Directory ->
  disk !! os_path_join save_dir (renamed filename 1 k +:+ ext) = None ->
  write_ok lab (os_path_join save_dir (renamed filename 1 k +:+ ext)) = true ->
  writable lab disk (os_path_join save_dir (renamed filename 1 k +:+ ext)) = true.
Proof.
  intros Hd Hf Hext Hext' Hdir Hfree Hw.
  apply andb_true_iff in Hf as [Hs%negb_true_iff Hn%negb_true_iff].
  destruct (renamed_plain k filename 1) as [Hs' Hn'].
  assert (has_sep (renamed filename 1 k +:+ ext) = false) as Hname
    by (by rewrite has_sep_app, Hs', Hs, Hext).
  assert (parent_of disk (os_path_join save_dir (renamed filename 1 k +:+ ext))
          = Some Directory) as Hparent.
  { unfold parent_of. rewrite (os_path_dirname_join _ _ Hd Hname).
    apply tidy_dir_inv in Hd as (H1 & _). by rewrite H1. }
  unfold writable. rewrite Hparent, Hw.
  unfold os_path_isdir. rewrite Hfree.
  rewrite (os_path_join_tidy _ _ Hd Hname).
  apply tidy_dir_inv in Hd as (H1 & _ & H3).
  rewrite !has_nul_app, H3, Hn', Hn, Hext'. cbn.
  by destruct save_dir.
Qed.

Lemma os_mkdir_ok lab p s :
  mkdir_ok lab (fs s) p = true ->
  fs s !! p = None /\
  os_mkdir lab p s = (Ok tt, set_fs (<[p := Directory]> (fs s)) s).
Proof.
  unfold mkdir_ok, os_mkdir, bind, gets, modify.
  intros [[[[H1 H2]%andb_true_iff H3]%andb_true_iff H4]%andb_true_iff H5]%andb_true_iff.
  apply negb_true_iff in H1, H2, H3. cbv beta iota. rewrite H1, H2, H3, H5.
  split; [by apply os_path_exists_false|].
  by destruct (parent_of (fs s) p) as [[]|].
Qed.

Lemma open_w_ok lab p c s :
  writable lab (fs s) p = true ->
  open_w lab p c s = (Ok tt, set_fs (<[p := c]> (fs s)) s).
Proof.
  unfold writable, open_w, bind, gets, modify.
  intros [[[[H1 H2]%andb_true_iff H3]%andb_true_iff H4]%andb_true_iff H5]%andb_true_iff.
  apply negb_true_iff in H1, H2, H4. cbv beta iota. rewrite H1, H2, H4, H5.
  by destruct (parent_of (fs s) p) as [[]|].
Qed.

Lemma to_csv_ok lab df p s :
  writable lab (fs s) p = true ->
  to_csv lab df p s = (Ok tt, set_fs (<[p := CsvFile df]> (fs s)) s).
Proof.
  intros H. unfold to_csv, bind, gets. cbv beta iota.
  pose proof H as H'. unfold writable in H'.
  apply andb_true_iff in H' as [[[_ H3]%andb_true_iff _]%andb_true_iff _].
  destruct (parent_of (fs s) p) as [[]|]; try done. by apply open_w_ok.
Qed.

(** ** Relational reasoning on commands *)

Section Keeps.
Context (R : relation Experiment) `{!PreOrder R}.
Set Default Proof Using "Type*".

Lemma keeps_ret {A} (a : A) : keeps R (ret a).
Proof. intros s. simpl. reflexivity. Qed.

Lemma keeps_raise {A} e : keeps R (raise e : M A).
Proof. intros s. simpl. reflexivity. Qed.

Lemma keeps_gets {A} (f : Experiment -> A) : keeps R (gets f).
Proof. intros s. simpl. reflexivity. Qed.

Lemma keeps_bind {A B} (m : M A) (k : A -> M B) :
  keeps R m -> (forall a, keeps R (k a)) -> keeps R (bind m k).
Proof.
  intros Hm Hk s. unfold bind. specialize (Hm s).
  destruct (m s) as [[a|e] s']; simpl in *; [|done].
  etransitivity; [exact Hm | apply Hk].
Qed.


Lemma raises_within_never {A} e (m : M A) : never_raises e m -> raises_within e R m.
Proof. intros Hm s Hs. by destruct (Hm s). Qed.


End Keeps.

Lemma keeps_seq {A B} (R1 R2 R3 : relation Experiment) (m : M A) (k : A -> M B) :
  (forall s s', R1 s s' -> R3 s s') ->
  (forall s s' s'', R1 s s' -> R2 s' s'' -> R3 s s'') ->
  keeps R1 m -> (forall a, keeps R2 (k a)) -> keeps R3 (bind m k).
Proof.
  intros Hsub Hcomp Hm Hk s. unfold bind. specialize (Hm s).
  destruct (m s) as [[a|e] s']; simpl in *; [|by apply Hsub].
  eapply Hcomp; [exact Hm | apply Hk].
Qed.

Lemma never_raises_ret {A} e (a : A) : never_raises e (ret a).
Proof. intros s. done. Qed.

Lemma never_raises_gets {A} e (f : Experiment -> A) : never_raises e (gets f).
Proof. intros s. done. Qed.

Lemma never_raises_modify e f : never_raises e (modify f).
Proof. intros s. done. Qed.

Lemma never_raises_emit e ev : never_raises e (emit ev).
Proof. intros s. done. Qed.

Lemma never_raises_raise {A} e e' : e' <> e -> never_raises e (raise e' : M A).
Proof. intros Hne s. simpl. congruence. Qed.

Lemma never_raises_bind {A B} e (m : M A) (k : A -> M B) :
  never_raises e m -> (forall a, never_raises e (k a)) -> never_raises e (bind m k).
Proof.
  intros Hm Hk s. unfold bind. specialize (Hm s).
  destruct (m s) as [[a|e'] s']; simpl in *; [apply Hk |].
  intros [= ->]. by apply Hm.
Qed.

Create HintDb never_raises.

Ltac never_raises_step :=
  match goal with
  | |- never_raises _ (bind _ _) => apply never_raises_bind; [| intros ?]
  | |- never_raises _ (ret _) => apply never_raises_ret
  | |- never_raises _ (gets _) => apply never_raises_gets
  | |- never_raises _ (modify _) => apply never_raises_modify
  | |- never_raises _ (emit _) => apply never_raises_emit
  | |- never_raises _ (raise _) => by apply never_raises_raise
  | |- never_raises _ (if ?b then _ else _) => destruct b
  | |- never_raises _ (match ?x with _ => _ end) => destruct x
  | |- never_raises _ _ => solve [eauto with never_raises]
  end.

Ltac never_raises := repeat never_raises_step.

Lemma never_raises_np_index e a i : e <> IndexError -> never_raises e (np_index a i).
Proof. intros He. unfold np_index. destruct (a !! i); never_raises. Qed.

Lemma never_raises_free_path e dir filename ext : never_raises e (free_path dir filename ext).
Proof.
  intros s. destruct (free_path_ok dir filename ext s) as (p & -> & _). done.
Qed.

Lemma never_raises_open_w {lab} p c : never_raises InstrumentError (open_w lab p c).
Proof. unfold open_w. never_raises. Qed.

#[global] Hint Resolve never_raises_open_w : never_raises.

Lemma never_raises_savefig_to {lab} p : never_raises InstrumentError (savefig_to lab p).
Proof. unfold savefig_to. never_raises. Qed.

Lemma never_raises_plt_close_fig : never_raises InstrumentError plt_close_fig.
Proof. unfold plt_close_fig. never_raises. Qed.

Lemma never_raises_pd_DataFrame c f x y : never_raises InstrumentError (pd_DataFrame c f x y).
Proof. unfold pd_DataFrame. never_raises. Qed.

Lemma never_raises_to_csv {lab} df p : never_raises InstrumentError (to_csv lab df p).
Proof. unfold to_csv. never_raises. Qed.

Lemma never_raises_PS_current_setattr c : never_raises InstrumentError (PS_current_setattr c).
Proof. unfold PS_current_setattr. never_raises. Qed.

(** ** Gain events *)

Lemma gain_after_app lab evs1 : forall g evs2,
  gain_after lab g (evs1 ++ evs2) =
  match gain_after lab g evs1 with
  | Some g' => gain_after lab g' evs2
  | None => None
  end.
Proof.
  induction evs1 as [|e evs1 IH]; intros g evs2; [done|].
  destruct e; simpl; try apply IH; try done. by case_decide.
Qed.

Lemma gain_after_quiet lab evs : forall g,
  forallb (fun e => negb (is_gain_event e)) evs = true -> gain_after lab g evs = Some g.
Proof.
  induction evs as [|e evs IH]; intros g H; [done|].
  simpl in H. apply andb_true_iff in H as [He H].
  destruct e; simpl in *; try done; by apply IH.
Qed.

Lemma fs_step_trans (d1 d2 d3 : gmap string node) :
  (forall p, d2 !! p = d1 !! p \/ (d1 !! p = None /\ d2 !! p = Some Directory)) ->
  (forall p, d3 !! p = d2 !! p \/ (d2 !! p = None /\ d3 !! p = Some Directory)) ->
  forall p, d3 !! p = d1 !! p \/ (d1 !! p = None /\ d3 !! p = Some Directory).
Proof.
  intros H12 H23 p. destruct (H12 p) as [E|[E1 E2]], (H23 p) as [E'|[E1' E2']].
  - left. congruence.
  - right. split; congruence.
  - right. split; congruence.
  - congruence.
Qed.

#[global] Instance gain_quiet_preorder : PreOrder gain_quiet.
Proof.
  split.
  - intros s. repeat split. exists []. split; [|done].
    unfold events_since. by rewrite app_nil_r.
  - intros s1 s2 s3 [(e1 & H1 & Q1) [G1 D1]] [(e2 & H2 & Q2) [G2 D2]].
    repeat split; [|congruence..].
    exists (e1 ++ e2). unfold events_since in *. split.
    + by rewrite H2, H1, app_assoc.
    + by rewrite forallb_app, Q1, Q2.
Qed.

#[global] Instance gain_steps_preorder lab : PreOrder (gain_steps lab).
Proof.
  split.
  - intros s. exists []. split; [|done]. unfold events_since. by rewrite app_nil_r.
  - intros s1 s2 s3 (e1 & H1 & G1) (e2 & H2 & G2).
    exists (e1 ++ e2). unfold events_since in *. split.
    + by rewrite H2, H1, app_assoc.
    + by rewrite gain_after_app, G1.
Qed.

#[global] Instance no_zero_no_artifact_preorder : PreOrder no_zero_no_artifact.
Proof.
  split.
  - intros s. split; [|by left]. exists []. split; [|done].
    unfold events_since. by rewrite app_nil_r.
  - intros s1 s2 s3 [(e1 & H1 & Q1) F1] [(e2 & H2 & Q2) F2].
    split; [|by eapply fs_step_trans].
    exists (e1 ++ e2). unfold events_since in *. split.
    + by rewrite H2, H1, app_assoc.
    + by rewrite forallb_app, Q1, Q2.
Qed.

Lemma gain_quiet_steps lab s s' : gain_quiet s s' -> gain_steps lab s s'.
Proof.
  intros [(evs & H & Q) [G _]]. exists evs. split; [done|].
  rewrite G. by apply gain_after_quiet.
Qed.

Lemma keeps_quiet_steps {A} lab (m : M A) : keeps gain_quiet m -> keeps (gain_steps lab) m.
Proof. intros H s. apply gain_quiet_steps, H. Qed.

Create HintDb keeps.

(** *** What the primitive commands keep *)

Lemma quiet_modify f :
  (forall s, log (f s) = log s /\ LIA_SEN (f s) = LIA_SEN s /\ sen (f s) = sen s) ->
  keeps gain_quiet (modify f).
Proof.
  intros H s. destruct (H s) as (Hl & Hg & Hd). simpl. repeat split; [|done..].
  exists []. split; [|done]. unfold events_since. by rewrite Hl, app_nil_r.
Qed.

Lemma quiet_emit e : is_gain_event e = false -> keeps gain_quiet (emit e).
Proof.
  intros H s. simpl. repeat split. exists [e]. split; [done|]. simpl. by rewrite H.
Qed.

Lemma nz_modify f :
  (forall s, log (f s) = log s /\ fs (f s) = fs s) -> keeps no_zero_no_artifact (modify f).
Proof.
  intros H s. destruct (H s) as (Hl & Hf). simpl. split.
  - exists []. split; [|done]. unfold events_since. by rewrite Hl, app_nil_r.
  - intros p. left. by rewrite Hf.
Qed.

Lemma nz_emit e : is_PS_current e = false -> keeps no_zero_no_artifact (emit e).
Proof.
  intros H s. simpl. split; [|by left]. exists [e]. split; [done|]. simpl. by rewrite H.
Qed.

Ltac keeps_step :=
  match goal with
  | |- keeps _ (bind _ _) => apply keeps_bind; [tc_solve | | intros ?]
  | |- keeps _ (ret _) => apply keeps_ret; tc_solve
  | |- keeps _ (raise _) => apply keeps_raise; tc_solve
  | |- keeps _ (gets _) => apply keeps_gets; tc_solve
  | |- keeps gain_quiet (emit _) => apply quiet_emit; reflexivity
  | |- keeps gain_quiet (modify _) => apply quiet_modify; by intros ?
  | |- keeps no_zero_no_artifact (emit _) => apply nz_emit; reflexivity
  | |- keeps no_zero_no_artifact (modify _) => apply nz_modify; by intros ?
  | |- keeps (gain_steps _) (emit _) => apply keeps_quiet_steps
  | |- keeps (gain_steps _) (modify _) => apply keeps_quiet_steps
  | |- keeps _ (if ?b then _ else _) => destruct b
  | |- keeps _ (match ?x with _ => _ end) => destruct x
  | |- keeps (gain_steps _) _ =>
      first [ solve [eauto with keeps] | apply keeps_quiet_steps; solve [eauto with keeps] ]
  | |- keeps _ _ => solve [eauto with keeps]
  end.

Ltac keeps := repeat keeps_step.

Lemma quiet_time_sleep {lab} d : keeps gain_quiet (time_sleep lab d).
Proof. unfold time_sleep. keeps. Qed.

Lemma nz_time_sleep {lab} d : keeps no_zero_no_artifact (time_sleep lab d).
Proof. unfold time_sleep. keeps. Qed.

Lemma quiet_np_index a i : keeps gain_quiet (np_index a i).
Proof. unfold np_index. keeps. Qed.

Lemma nz_np_index a i : keeps no_zero_no_artifact (np_index a i).
Proof. unfold np_index. keeps. Qed.

Lemma quiet_os_mkdir {lab} p : keeps gain_quiet (os_mkdir lab p).
Proof. unfold os_mkdir. keeps. Qed.

Lemma nz_os_mkdir {lab} p : keeps no_zero_no_artifact (os_mkdir lab p).
Proof.
  intros s. destruct (os_mkdir_cases lab p s) as [[e ->]|[E ->]]; [reflexivity|].
  simpl. split.
  - exists []. split; [|done]. unfold events_since. simpl. by rewrite app_nil_r.
  - intros q. simpl. destruct (decide (p = q)) as [<-|Hne].
    + right. by rewrite lookup_insert_eq.
    + left. by rewrite lookup_insert_ne.
Qed.

Lemma quiet_PS_set_current lab c : keeps gain_quiet (PS_set_current lab c).
Proof. unfold PS_set_current. keeps. Qed.

Lemma nz_PS_set_current lab c : keeps no_zero_no_artifact (PS_set_current lab c).
Proof. unfold PS_set_current. keeps. Qed.

Lemma quiet_LIA_getXY lab : keeps gain_quiet (LIA_getXY lab).
Proof. unfold LIA_getXY. keeps. Qed.

Lemma nz_LIA_getXY lab : keeps no_zero_no_artifact (LIA_getXY lab).
Proof. unfold LIA_getXY. keeps. Qed.

Lemma quiet__make_fig : keeps gain_quiet _make_fig.
Proof. unfold _make_fig. keeps. Qed.

Lemma nz__make_fig : keeps no_zero_no_artifact _make_fig.
Proof. unfold _make_fig. keeps. Qed.

Lemma quiet__update_sweep_plot x a b : keeps gain_quiet (_update_sweep_plot x a b).
Proof. unfold _update_sweep_plot. keeps. Qed.

Lemma nz__update_sweep_plot x a b : keeps no_zero_no_artifact (_update_sweep_plot x a b).
Proof. unfold _update_sweep_plot. keeps. Qed.

Lemma quiet_free_path dir f ext : keeps gain_quiet (free_path dir f ext).
Proof. intros s. destruct (free_path_ok dir f ext s) as (p & -> & _). reflexivity. Qed.

Lemma quiet_open_w {lab} p c : keeps gain_quiet (open_w lab p c).
Proof. unfold open_w. keeps. Qed.

#[global] Hint Resolve quiet_open_w : keeps.

Lemma quiet_savefig_to {lab} p : keeps gain_quiet (savefig_to lab p).
Proof. unfold savefig_to. keeps. Qed.

Lemma quiet_plt_close_fig : keeps gain_quiet plt_close_fig.
Proof. unfold plt_close_fig. keeps. Qed.

Lemma quiet_pd_DataFrame c f x y : keeps gain_quiet (pd_DataFrame c f x y).
Proof. unfold pd_DataFrame. keeps. Qed.

Lemma quiet_to_csv {lab} df p : keeps gain_quiet (to_csv lab df p).
Proof. unfold to_csv. keeps. Qed.

Lemma quiet_PS_current_setattr c : keeps gain_quiet (PS_current_setattr c).
Proof. unfold PS_current_setattr. keeps. Qed.

Lemma steps_LIA_SEN_getattr lab : keeps (gain_steps lab) LIA_SEN_getattr.
Proof.
  intros s. unfold LIA_SEN_getattr, bind, gets, emit, modify, ret. simpl.
  exists [ev_SEN_query (LIA_SEN s)]. split; [done|]. simpl. by case_decide.
Qed.

Lemma steps_LIA_decrease_sensitivity lab :
  keeps (gain_steps lab) (LIA_decrease_sensitivity lab).
Proof.
  intros s. unfold LIA_decrease_sensitivity, bind, gets, emit, modify. simpl.
  by exists [ev_decrease_sensitivity].
Qed.

Lemma nz_LIA_SEN_getattr : keeps no_zero_no_artifact LIA_SEN_getattr.
Proof. unfold LIA_SEN_getattr. keeps. Qed.

Lemma nz_LIA_decrease_sensitivity lab :
  keeps no_zero_no_artifact (LIA_decrease_sensitivity lab).
Proof. unfold LIA_decrease_sensitivity. keeps. Qed.

Lemma nz_LIA_SEN_setattr g : keeps no_zero_no_artifact (LIA_SEN_setattr g).
Proof. unfold LIA_SEN_setattr. keeps. Qed.

#[global] Hint Resolve quiet_time_sleep nz_time_sleep quiet_np_index nz_np_index
  quiet_os_mkdir nz_os_mkdir quiet_PS_set_current nz_PS_set_current
  quiet_LIA_getXY nz_LIA_getXY quiet__make_fig nz__make_fig
  quiet__update_sweep_plot nz__update_sweep_plot quiet_free_path
  quiet_savefig_to quiet_plt_close_fig quiet_pd_DataFrame quiet_to_csv
  quiet_PS_current_setattr steps_LIA_SEN_getattr steps_LIA_decrease_sensitivity
  nz_LIA_SEN_getattr nz_LIA_decrease_sensitivity nz_LIA_SEN_setattr : keeps.

(** *** What the loops keep *)

Lemma steps_readXY_loop lab n : forall rd Xa Ya,
  keeps (gain_steps lab) (readXY_loop lab n rd Xa Ya).
Proof. induction n as [|n IH]; intros rd Xa Ya; simpl; keeps. Qed.

Lemma nz_readXY_loop lab n : forall rd Xa Ya,
  keeps no_zero_no_artifact (readXY_loop lab n rd Xa Ya).
Proof. induction n as [|n IH]; intros rd Xa Ya; simpl; keeps. Qed.

#[global] Hint Resolve steps_readXY_loop nz_readXY_loop : keeps.

(** The acquisition routine changes the gain by step-downs only. *)
Lemma steps_readXY lab reps rd sd : keeps (gain_steps lab) (readXY lab reps rd sd).
Proof. unfold readXY. keeps. Qed.

Lemma nz_readXY lab reps rd sd : keeps no_zero_no_artifact (readXY lab reps rd sd).
Proof. unfold readXY. keeps. Qed.

#[global] Hint Resolve steps_readXY nz_readXY : keeps.

Lemma keeps_for_params lab (R : relation Experiment) `{!PreOrder R}
    params setter livefig close_loop reps rd sd dl rest :
  (forall c, keeps R (setter c)) ->
  (forall d, keeps R (time_sleep lab d)) ->
  keeps R (readXY lab reps rd sd) ->
  (forall a i, keeps R (np_index a i)) ->
  (forall x a b, keeps R (_update_sweep_plot x a b)) ->
  keeps R (emit ev_show) ->
  forall i vars,
    keeps R (for_params lab params setter livefig close_loop reps rd sd dl rest i vars).
Proof.
  intros Hset Hsleep Hread Hidx Hplot Hshow.
  induction rest as [|param rest IH]; intros i [[xrange X_array] Y_array];
    cbn [for_params].
  - by apply keeps_ret.
  - repeat first
      [ apply Hset | apply Hsleep | exact Hread | apply Hidx | apply Hplot
      | exact Hshow | apply IH
      | apply keeps_bind; [done | | intros ?]
      | apply keeps_ret; done
      | apply keeps_gets; done
      | match goal with
        | |- keeps _ (if ?b then _ else _) => destruct b
        | |- keeps _ (match ?x with _ => _ end) => destruct x
        end ].
Qed.

Lemma steps_for_params lab params livefig close_loop reps rd sd dl rest i vars :
  keeps (gain_steps lab)
    (for_params lab params (PS_set_current lab) livefig close_loop reps rd sd dl rest i vars).
Proof. apply keeps_for_params; [tc_solve | intros; keeps..]. Qed.

Lemma nz_for_params lab params livefig close_loop reps rd sd dl rest i vars :
  keeps no_zero_no_artifact
    (for_params lab params (PS_set_current lab) livefig close_loop reps rd sd dl rest i vars).
Proof. apply keeps_for_params; [tc_solve | intros; keeps..]. Qed.

(** ** Aborted sweeps *)

Lemma never_raises_IE_np_index a i : never_raises InstrumentError (np_index a i).
Proof. by apply never_raises_np_index. Qed.

#[global] Hint Resolve never_raises_IE_np_index never_raises_free_path
  never_raises_savefig_to never_raises_plt_close_fig never_raises_pd_DataFrame
  never_raises_to_csv never_raises_PS_current_setattr : never_raises.






(** ** The gain across a sweep *)

Lemma set_once_of_quiet lab o s s' : gain_quiet s s' -> gain_set_once lab o s s'.
Proof. by left. Qed.

Lemma quiet_then_set_once lab o s s' s'' :
  gain_quiet s s' -> gain_set_once lab o s' s'' -> gain_set_once lab o s s''.
Proof.
  intros Hq [Hq'|(pre & post & Hev & Hpre & Hpost)].
  - left. by etransitivity.
  - destruct Hq as [(evs & Hevs & Hquiet) [_ Hsen]]. right.
    assert (_get_sen s' o = _get_sen s o) as Hg by (by destruct o; simpl).
    exists (evs ++ pre), post. unfold events_since in *. rewrite Hg in *.
    repeat split; [|by rewrite forallb_app, Hquiet, Hpre|done].
    by rewrite Hev, Hevs, <- !app_assoc.
Qed.

Lemma set_once_then_quiet lab o s s' s'' :
  gain_set_once lab o s s' -> gain_quiet s' s'' -> gain_set_once lab o s s''.
Proof.
  intros [Hq|(pre & post & Hev & Hpre & Hpost)] Hq'.
  - left. by etransitivity.
  - destruct Hq' as [(evs & Hevs & Hquiet) [Hgain _]]. right.
    exists pre, (post ++ evs). unfold events_since in *.
    repeat split; [|done|].
    + by rewrite Hevs, Hev, <- !app_assoc.
    + rewrite gain_after_app, Hpost, Hgain. by apply gain_after_quiet.
Qed.

Lemma set_once_sweep_parameter lab params save_dir livefig savefig closefig sen
    sen_delay read_reps rep_delay read_delay xrange filename close_loop :
  keeps (gain_set_once lab sen)
    (_sweep_parameter lab params (PS_set_current lab) save_dir livefig savefig closefig
       sen sen_delay read_reps rep_delay read_delay xrange filename close_loop).
Proof.
  intros s. unfold _sweep_parameter.
  unfold bind at 1 2, gets, LIA_SEN_setattr, bind at 1, emit, modify. cbv beta match.
  match goal with |- gain_set_once _ _ _ (bind ?m ?k ?s1).2 =>
    assert (keeps (gain_steps lab) (bind m k)) as Hk;
      [ apply keeps_bind; [tc_solve | apply steps_for_params | intros [[xr Xa] Ya]; keeps]
      | destruct (Hk s1) as (evs & Hevs & Hgain) ] end.
  right. exists [], evs. unfold events_since in *. simpl in *.
  repeat split; [|done]. by rewrite Hevs, <- app_assoc.
Qed.

Lemma set_once_sweep_field lab fields save_dir filename kw :
  keeps (gain_set_once lab (bind_kw (Some (F64.dec 2 3)) (kw_sen kw)))
    (sweep_field lab fields save_dir filename kw).
Proof.
  unfold sweep_field. cbv zeta.
  do 7 (eapply (keeps_seq gain_quiet);
        [apply set_once_of_quiet | apply quiet_then_set_once | keeps | intros ?]).
  eapply keeps_seq;
    [done | apply set_once_then_quiet | apply set_once_sweep_parameter |].
  intros [x_arr y_arr]. keeps.
Qed.

Lemma observed_gains_quiet evs :
  forallb (fun e => negb (is_gain_event e)) evs = true -> observed_gains evs = [].
Proof.
  induction evs as [|e evs IH]; [done|]. simpl.
  intros [He H]%andb_true_iff. unfold observed_gains in *. simpl.
  rewrite (IH H). by destruct e.
Qed.

Lemma observed_gains_app evs1 evs2 :
  observed_gains (evs1 ++ evs2) = observed_gains evs1 ++ observed_gains evs2.
Proof. apply omap_app. Qed.

Lemma gain_after_no_assign lab post : forall g g',
  gain_after lab g post = Some g' ->
  forallb (fun e => negb (is_SEN_assign e)) post = true.
Proof.
  induction post as [|e post IH]; intros g g' H; [done|].
  destruct e; simpl in *; try done; try by eapply IH.
  case_decide; [by eapply IH | done].
Qed.

Lemma non_increasing_nil le : non_increasing le [].
Proof. intros i j x y _ Hi. by rewrite lookup_nil in Hi. Qed.

Lemma non_increasing_singleton le `{!Reflexive le} x : non_increasing le [x].
Proof.
  intros [|i] [|j] a b Hij Hi Hj; simpl in *; try done. by simplify_eq.
Qed.

Lemma non_increasing_dup le `{!Reflexive le} x l :
  non_increasing le (x :: l) -> non_increasing le (x :: x :: l).
Proof.
  intros H [|i] [|j] a b Hij Hi Hj; simpl in *; simplify_eq; try done; try lia.
  - apply (H 0 j); [lia | done..].
  - apply (H i j); [lia | done..].
Qed.

Lemma non_increasing_raise_head le `{!PreOrder le} x x' l :
  le x' x -> non_increasing le (x' :: l) -> non_increasing le (x :: l).
Proof.
  intros Hx H [|i] [|j] a b Hij Hi Hj; simpl in *; simplify_eq; try done; try lia.
  - transitivity x'; [|done]. apply (H 0 (S j)); [lia | done..].
  - apply (H (S i) (S j)); [lia | done..].
Qed.

(** Started from [g], queries and step-downs read a falling sequence of
    gains. *)
Lemma gain_after_non_increasing lab le `{!PreOrder le} :
  (forall g, le (step_down lab g) g) ->
  forall post g g', gain_after lab g post = Some g' ->
    non_increasing le (g :: observed_gains post).
Proof.
  intros Hstep. unfold observed_gains.
  induction post as [|e post IH]; intros g g' H.
  - apply non_increasing_singleton; tc_solve.
  - destruct e; simpl in *; try done; try by eapply IH.
    + case_decide; [subst|done]. apply non_increasing_dup; [tc_solve|]. by eapply IH.
    + eapply non_increasing_raise_head; [tc_solve | apply Hstep | by eapply IH].
Qed.

#[global] Instance stepped_down_preorder lab : PreOrder (stepped_down lab).
Proof.
  split.
  - intros g. by exists 0.
  - intros g1 g2 g3 [k1 ->] [k2 ->]. exists (k1 + k2). by rewrite Nat.iter_add.
Qed.

Lemma stepped_down_step lab g : stepped_down lab (step_down lab g) g.
Proof. by exists 1. Qed.

(** C5. Take any order [le] on gain levels in which a step-down does not
    raise the level.  Across one call of [sweep_field], whatever its
    outcome, the gain levels read by the acquisition steps, preceded by the
    initial setting, form a non-increasing sequence; and the only gain
    assignment among the events of the sweep, if there is one, is the
    initial setting: no gain event precedes it and no assignment follows
    it, so that every later change of the gain is a step-down. *)
Theorem sweep_gain_never_raised lab (le : relation float64) `{!PreOrder le}
    fields save_dir filename kw self :
  (forall g, le (step_down lab g) g) ->
  let g0 := _get_sen self (bind_kw (Some (F64.dec 2 3)) (kw_sen kw)) in
  exists evs,
    events_since self (sweep_field lab fields save_dir filename kw self).2 evs /\
    non_increasing le (g0 :: observed_gains evs) /\
    (forallb (fun e => negb (is_gain_event e)) evs = true \/
     exists pre post,
       evs = pre ++ ev_SEN_assign g0 :: post /\
       forallb (fun e => negb (is_gain_event e)) pre = true /\
       forallb (fun e => negb (is_SEN_assign e)) post = true).
Proof.
  intros Hstep g0.
  destruct (set_once_sweep_field lab fields save_dir filename kw self)
    as [[(evs & Hevs & Hquiet) _]|(pre & post & Hevs & Hpre & Hpost)].
  - exists evs. split; [done|]. split; [|by left].
    rewrite (observed_gains_quiet _ Hquiet). apply non_increasing_singleton; tc_solve.
  - exists (pre ++ ev_SEN_assign g0 :: post). split; [done|]. split.
    + rewrite observed_gains_app, (observed_gains_quiet _ Hpre). simpl.
      by eapply gain_after_non_increasing.
    + right. exists pre, post. repeat split; [done|].
      by eapply gain_after_no_assign.
Qed.

Lemma sweep_gain_never_raised_witness :
  exists evs,
    events_since (init (F64.dec 5 1) ∅)
      (sweep_field demo_lab [F64.of_Z 10] "out" "test" no_kwargs
         (init (F64.dec 5 1) ∅)).2 evs /\
    non_increasing (stepped_down demo_lab) (F64.dec 2 3 :: observed_gains evs).
Proof.
  destruct (sweep_gain_never_raised demo_lab (stepped_down demo_lab)
              [F64.of_Z 10] "out" "test" no_kwargs (init (F64.dec 5 1) ∅)
              (stepped_down_step demo_lab)) as (evs & Hevs & Hmono & _).
  exists evs. split; [exact Hevs | exact Hmono].
Defined.

(** ** Sweeps that complete *)

#[global] Instance same_defaults_preorder : PreOrder same_defaults.
Proof.
  split.
  - intros s. by repeat split.
  - intros s1 s2 s3 (?&?&?&?&?&?) (?&?&?&?&?&?). repeat split; congruence.
Qed.

#[global] Instance settled_preorder : PreOrder settled.
Proof.
  split.
  - intros s. split; [reflexivity | done].
  - intros s1 s2 s3 (D1 & F1 & S1) (D2 & F2 & S2).
    split; [by etransitivity | split; [auto | by etransitivity]].
Qed.

#[global] Instance steady_preorder : PreOrder steady.
Proof.
  split.
  - intros s. split; [reflexivity | done].
  - intros s1 s2 s3 [D1 F1] [D2 F2]. split; [by etransitivity | congruence].
Qed.

Lemma steady_settled s s' : steady s s' -> settled s s'.
Proof. by intros [? _]. Qed.

Lemma settled_resolvers s s' :
  settled s s' ->
  (forall o, _get_sen s' o = _get_sen s o) /\
  (forall o, _get_sen_delay s' o = _get_sen_delay s o) /\
  (forall o, _get_read_reps s' o = _get_read_reps s o) /\
  (forall o, _get_rep_delay s' o = _get_rep_delay s o) /\
  (forall o, _get_read_delay s' o = _get_read_delay s o) /\
  (forall o, _get_from0delay s' o = _get_from0delay s o).
Proof. intros [(?&?&?&?&?&?) _]. repeat split; by intros []. Qed.

Lemma succeeds_bind {A B} R `{!Transitive R} (P : A -> Experiment -> Prop)
    (Q : B -> Experiment -> Prop) (m : M A) (k : A -> M B) s :
  succeeds R P m s ->
  (forall a s', P a s' -> R s s' -> succeeds R Q (k a) s') ->
  succeeds R Q (bind m k) s.
Proof.
  intros (a & s' & Hm & HP & HR) Hk.
  destruct (Hk a s' HP HR) as (b & s'' & Hkb & HQ & HR').
  exists b, s''. split; [by rewrite (bind_ok _ _ _ _ _ Hm)|]. split; [done|].
  by etransitivity.
Qed.

Lemma succeeds_ret {A} R `{!Reflexive R} (P : A -> Experiment -> Prop) a s :
  P a s -> succeeds R P (ret a) s.
Proof. intros HP. by exists a, s. Qed.

Lemma succeeds_gets {A} R `{!Reflexive R} (f : Experiment -> A) s :
  succeeds R (fun a s' => a = f s /\ s' = s) (gets f) s.
Proof. by exists (f s), s. Qed.

Lemma succeeds_mono {A} (R R' : relation Experiment) (P P' : A -> Experiment -> Prop) m s :
  (forall s', R s s' -> R' s s') -> (forall a s', P a s' -> P' a s') ->
  succeeds R P m s -> succeeds R' P' m s.
Proof. intros HR HP (a & s' & Hm & Ha & Hs). exists a, s'. auto. Qed.

Lemma steady_of_fields s s' :
  sen s' = sen s -> sen_delay s' = sen_delay s -> read_reps s' = read_reps s ->
  rep_delay s' = rep_delay s -> read_delay s' = read_delay s ->
  from0delay s' = from0delay s ->
  (is_Some (fig s) -> is_Some (fig s')) -> fs s' = fs s -> steady s s'.
Proof. intros ? ? ? ? ? ? ? Hfs. repeat split; try done. by rewrite Hfs. Qed.

Ltac steady_now := apply steady_of_fields; (done || (intros _; by eexists)).

Lemma steady_emit e s : succeeds steady (fun _ _ => True) (emit e) s.
Proof. eexists _, _. split; [done|]. split; [done|]. steady_now. Qed.

Lemma steady_time_sleep {lab} d s :
  sleepable lab d = true -> succeeds steady (fun _ _ => True) (time_sleep lab d) s.
Proof. intros H. rewrite (time_sleep_ok _ H). apply steady_emit. Qed.

Lemma steady_PS_set_current lab c s :
  reliable lab -> succeeds steady (fun _ _ => True) (PS_set_current lab c) s.
Proof.
  intros [Hset _]. unfold PS_set_current, succeeds, bind, gets, modify, emit. simpl.
  rewrite Hset. eexists _, _. split; [done|]. split; [done|]. steady_now.
Qed.

Lemma reliable_replies lab n k :
  reliable lab -> exists samples, mapM (getXY_reply lab) (seq n k) = Some samples.
Proof.
  intros [_ Hget]. apply mapM_is_Some, Forall_forall. intros i _. apply Hget.
Qed.

Lemma steady_readXY lab reps rd sd s :
  reliable lab ->
  sleepable lab (_get_rep_delay s rd) = true ->
  sleepable lab (_get_sen_delay s sd) = true ->
  succeeds steady (fun _ _ => True) (readXY lab reps rd sd) s.
Proof.
  intros Hlab Hrd Hsd.
  destruct (reliable_replies lab (n_getXY s) (Z.to_nat (_get_read_reps s reps)) Hlab)
    as [samples Hs].
  eexists _, _. split; [by apply readXY_run|]. split; [done|]. steady_now.
Qed.

Lemma steady_np_index a i x s :
  a !! i = Some x -> succeeds steady (fun y s' => y = x) (np_index a i) s.
Proof.
  intros H. unfold np_index. rewrite H. exists x, s. repeat split; try done.
Qed.

Lemma steady__update_sweep_plot x a b s :
  is_Some (fig s) -> length x = length a -> length x = length b ->
  succeeds steady (fun _ _ => True) (_update_sweep_plot x a b) s.
Proof.
  intros [f Hf] Ha Hb. unfold _update_sweep_plot, succeeds, bind, gets, emit, modify.
  simpl. rewrite Hf, <- Ha, <- Hb, Nat.eqb_refl. simpl.
  eexists _, _. split; [done|]. split; [done|]. steady_now.
Qed.

Lemma last_index_test (params past rest : list float64) param :
  params = past ++ param :: rest ->
  (Z.of_nat (length past) =? Z.of_nat (length params) - 1)%Z =
  match rest with [] => true | _ => false end.
Proof.
  intros ->. rewrite length_app. simpl. destruct rest; simpl.
  - apply Z.eqb_eq. lia.
  - apply Z.eqb_neq. lia.
Qed.

Lemma take_1_lookup (l : list float64) x : l !! 0 = Some x -> take 1 l = [x].
Proof. destruct l; simpl; [done|]. by intros [= ->]. Qed.

Lemma closing_nil close_loop l : closing close_loop [] l = [].
Proof. unfold closing. rewrite bool_decide_eq_false_2; [|by intros []]. by rewrite andb_false_r. Qed.

Lemma closing_cons close_loop p rest l :
  closing close_loop (p :: rest) l = if close_loop then take 1 l else [].
Proof. unfold closing. rewrite bool_decide_eq_true_2; [|done]. by rewrite andb_true_r. Qed.

Ltac sb := eapply succeeds_bind; [tc_solve | | ].

Lemma for_params_ok lab params livefig close_loop reps rd sd dl :
  reliable lab ->
  forall rest past xrange X_array Y_array s,
    params = past ++ rest ->
    length X_array = length past -> length Y_array = length past ->
    length params <= length xrange ->
    (livefig = true -> is_Some (fig s)) ->
    sleepable lab (_get_read_delay s dl) = true ->
    sleepable lab (_get_rep_delay s rd) = true ->
    sleepable lab (_get_sen_delay s sd) = true ->
    succeeds steady
      (fun vars _ => exists xs ys,
         length xs = length rest /\ length ys = length rest /\
         vars.1.2 = X_array ++ xs ++ closing close_loop rest (X_array ++ xs) /\
         vars.2 = Y_array ++ ys ++ closing close_loop rest (Y_array ++ ys))
      (for_params lab params (PS_set_current lab) livefig close_loop reps rd sd dl
         rest (length past) (xrange, X_array, Y_array)) s.
Proof.
  intros Hlab. induction rest as [|param rest IH];
    intros past xrange X_array Y_array s Hparams HX HY Hxr Hfig Hdl Hrd Hsd.
  - cbn [for_params]. apply succeeds_ret; [tc_solve|]. exists [], [].
    rewrite !closing_nil, !app_nil_r. done.
  - cbn [for_params].
    sb; [by apply steady_PS_set_current | intros _ s1 _ H1].
    sb; [apply succeeds_gets; tc_solve | intros d ? [-> ->] _].
    destruct (settled_resolvers _ _ (steady_settled _ _ H1)) as (_ & Esd & _ & Erd & Edl & _).
    sb; [apply steady_time_sleep; by rewrite Edl | intros _ s2 _ H2].
    assert (H02 : steady s s2) by (by etransitivity).
    destruct (settled_resolvers _ _ (steady_settled _ _ H02)) as (_ & Esd2 & _ & Erd2 & _ & _).
    sb; [apply steady_readXY; [done | by rewrite Erd2 | by rewrite Esd2] | intros [X Y] s3 _ H3].
    assert (H03 : steady s s3) by (by etransitivity).
    cbn [fst snd]. rewrite (last_index_test _ _ _ _ Hparams).
    remember (np_append X_array X) as X' eqn:EX.
    remember (np_append Y_array Y) as Y' eqn:EY. unfold np_append in EX, EY.
    assert (exists p0, params !! 0 = Some p0) as [p0 Hp0].
    { apply lookup_lt_is_Some. rewrite Hparams, length_app. simpl. lia. }
    assert (exists x0, X' !! 0 = Some x0) as [x0 Hx0].
    { apply lookup_lt_is_Some. rewrite EX, length_app. simpl. lia. }
    assert (exists y0, Y' !! 0 = Some y0) as [y0 Hy0].
    { apply lookup_lt_is_Some. rewrite EY, length_app. simpl. lia. }
    assert (HX' : length X' = S (length past)).
    { rewrite EX, length_app. simpl. lia. }
    assert (HY' : length Y' = S (length past)).
    { rewrite EY, length_app. simpl. lia. }
    assert (Hlen : length params = S (length past) + length rest).
    { rewrite Hparams, length_app. simpl. lia. }
    set (last := match rest with [] => true | _ => false end).
    sb.
    { instantiate (1 := fun vars _ =>
        vars = if close_loop && last
               then (np_append xrange (current2field p0), X' ++ [x0], Y' ++ [y0])
               else (xrange, X', Y')).
      destruct (close_loop && last).
      - sb; [by apply steady_np_index | intros ? ? -> _].
        sb; [by apply steady_np_index | intros ? ? -> _].
        sb; [by apply steady_np_index | intros ? ? -> _].
        by apply succeeds_ret; [tc_solve|].
      - by apply succeeds_ret; [tc_solve|]. }
    intros vars s4 -> H4.
    assert (H04 : steady s s4) by (by etransitivity).
    assert (Hfig4 : livefig = true -> is_Some (fig s4)).
    { intros Hl. by apply H04, Hfig. }
    destruct close_loop, rest as [|p2 rest2]; subst last; cbn [andb];
      cbn [length] in Hlen.
    all: sb; [ destruct livefig;
               [ apply steady__update_sweep_plot; [by apply Hfig4 | |];
                 rewrite length_take; unfold np_append; rewrite ?length_app; simpl; lia
               | by apply succeeds_ret; [tc_solve|] ]
             | intros _ s5 _ H5 ].
    all: sb; [apply steady_emit | intros _ s6 _ H6].
    all: assert (H06 : steady s s6) by (etransitivity; [exact H04|]; by etransitivity).
    all: destruct (settled_resolvers _ _ (steady_settled _ _ H06))
           as (_ & Esd6 & _ & Erd6 & Edl6 & _).
    all: try (cbn [for_params]; apply succeeds_ret; [tc_solve|]; exists [X], [Y];
              rewrite !closing_cons; cbn [fst snd]; subst X' Y';
              rewrite ?(take_1_lookup _ _ Hx0), ?(take_1_lookup _ _ Hy0);
              by rewrite <- ?app_assoc, ?app_nil_r).
    all: replace (S (length past)) with (length (past ++ [param]))
           by (rewrite length_app; simpl; lia).
    all: eapply succeeds_mono;
           [ done
           | 
           | apply IH;
             [ by rewrite Hparams, <- app_assoc
             | rewrite length_app; simpl; lia
             | rewrite length_app; simpl; lia
             | done
             | intros Hl; by apply H06, Hfig
             | by rewrite Edl6 | by rewrite Erd6 | by rewrite Esd6 ] ].
    all: intros [[xr Xf] Yf] _ (xs & ys & Hxs & Hys & HXf & HYf); cbn [fst snd] in *;
         exists (X :: xs), (Y :: ys); rewrite !closing_cons in *;
         subst X' Y'; rewrite <- !app_assoc in *; simpl in *;
         repeat split; (lia || done).
Qed.

Ltac sbs lem :=
  eapply succeeds_bind;
    [ tc_solve
    | eapply succeeds_mono; [intros ?; apply steady_settled | intros ? ? HP; exact HP | lem]
    | ].

(** A steady step inside a settled run: the disk is the same after it. *)
Lemma succeeds_steady_fs {A} (P : A -> Experiment -> Prop) (m : M A) s :
  succeeds steady P m s -> succeeds settled (fun a s' => P a s' /\ fs s' = fs s) m s.
Proof. intros (a & s' & E & HP & [Hs Hfs]). by exists a, s'. Qed.

Ltac ssf lem :=
  eapply succeeds_bind; [tc_solve | apply succeeds_steady_fs; lem | ].

Lemma steady_LIA_SEN_setattr g s : succeeds steady (fun _ _ => True) (LIA_SEN_setattr g) s.
Proof. eexists _, _. split; [done|]. split; [done|]. steady_now. Qed.

Lemma steady_PS_current_setattr c s :
  succeeds steady (fun _ _ => True) (PS_current_setattr c) s.
Proof. eexists _, _. split; [done|]. split; [done|]. steady_now. Qed.

Lemma steady_free_path dir filename ext s :
  succeeds steady
    (fun p s' => s' = s /\ fs s !! p = None /\
       exists k, k <= size (fs s) /\ p = os_path_join dir (renamed filename 1 k +:+ ext))
    (free_path dir filename ext) s.
Proof.
  destruct (free_path_ok dir filename ext s) as (p & Hp & Hfree).
  destruct (free_path_rounds _ _ _ _ _ _ Hp) as (_ & _ & k & Hk & ->).
  eexists _, s. split; [exact Hp|]. split; [|reflexivity].
  split; [done|]. split; [done|]. by exists k.
Qed.

Lemma settled_savefig_to {lab} p s :
  is_Some (fig s) -> fs s !! p = None -> writable lab (fs s) p = true ->
  succeeds settled (fun _ s' => size (fs s') <= S (size (fs s))) (savefig_to lab p) s.
Proof.
  intros [[[x a] b] Hf] Hfree Hw. unfold savefig_to, succeeds, bind, gets. cbv beta iota.
  rewrite Hf, (open_w_ok _ _ _ _ Hw). eexists _, _. split; [done|].
  split; [simpl; by rewrite map_size_insert_None|].
  split; [by repeat split | split; [simpl; by rewrite Hf | by apply insert_subseteq]].
Qed.

Lemma steady_plt_close_fig s :
  is_Some (fig s) -> succeeds steady (fun _ _ => True) plt_close_fig s.
Proof.
  intros [f Hf]. unfold plt_close_fig, succeeds, bind, gets. simpl. rewrite Hf.
  apply steady_emit.
Qed.

Lemma settled_os_mkdir {lab} p s :
  mkdir_ok lab (fs s) p = true ->
  succeeds settled (fun _ s' => fs s' = <[p := Directory]> (fs s)) (os_mkdir lab p) s.
Proof.
  intros H. destruct (os_mkdir_ok _ _ _ H) as [Hfree Hrun].
  eexists _, _. split; [exact Hrun|]. split; [done|].
  split; [by repeat split | split; [done|]].
  by apply insert_subseteq.
Qed.

Lemma steady__make_fig s : succeeds steady (fun _ s' => is_Some (fig s')) _make_fig s.
Proof.
  eexists _, _. split; [done|]. split; [by eexists|]. steady_now.
Qed.

Lemma settled_to_csv {lab} df p s :
  fs s !! p = None -> writable lab (fs s) p = true ->
  succeeds settled (fun _ s' => fs s' !! p = Some (CsvFile df)) (to_csv lab df p) s.
Proof.
  intros Hfree Hw. eexists _, _. split; [by apply to_csv_ok|].
  split; [simpl; by rewrite lookup_insert_eq|].
  split; [by repeat split | split; [done | by apply insert_subseteq]].
Qed.

Lemma steady_pd_DataFrame c f x y s :
  length f = length c -> length x = length c -> length y = length c ->
  succeeds steady (fun df s' => df = mkDataFrame c f x y /\ s' = s)
    (pd_DataFrame c f x y) s.
Proof.
  intros Hf Hx Hy. unfold pd_DataFrame. rewrite Hf, Hx, Hy, Nat.eqb_refl. simpl.
  apply succeeds_ret; [tc_solve | done].
Qed.

Lemma sweep_parameter_ok lab params save_dir livefig savefig closefig sen sen_delay
    read_reps rep_delay read_delay xrange filename close_loop s :
  reliable lab ->
  length params <= length xrange ->
  (livefig = true \/ savefig = true \/ closefig = true -> is_Some (fig s)) ->
  sleepable lab (_get_read_delay s read_delay) = true ->
  sleepable lab (_get_rep_delay s rep_delay) = true ->
  sleepable lab (_get_sen_delay s sen_delay) = true ->
  tidy_dir save_dir = true ->
  tidy_name filename = true ->
  fs s !! save_dir = Some Directory ->
  host_writes lab save_dir filename (size (fs s)) ->
  succeeds settled
    (fun arrs s' => size (fs s') <= S (size (fs s)) /\ exists xs ys,
       length xs = length params /\ length ys = length params /\
       arrs = (xs ++ closing close_loop params xs, ys ++ closing close_loop params ys))
    (_sweep_parameter lab params (PS_set_current lab) save_dir livefig savefig closefig
       sen sen_delay read_reps rep_delay read_delay xrange filename close_loop) s.
Proof.
  intros Hlab Hxr Hfig Hdl Hrd Hsd Hdir Hname Hthere Hhost. unfold _sweep_parameter.
  eapply succeeds_bind; [tc_solve | apply succeeds_gets; tc_solve | intros g ? [-> ->] _].
  ssf ltac:(apply steady_LIA_SEN_setattr). intros _ s1 [_ F1] H1.
  destruct (settled_resolvers _ _ H1) as (_ & Esd & _ & Erd & Edl & _).
  ssf ltac:(apply (for_params_ok lab params livefig close_loop read_reps rep_delay
                     sen_delay read_delay Hlab params [] xrange np_empty np_empty s1);
            [done | done | done | done | intros Hl; apply H1, Hfig; by left
            | by rewrite Edl | by rewrite Erd | by rewrite Esd]).
  intros [[xr Xa] Ya] s2 [(xs & ys & Hxs & Hys & HXa & HYa) F2] H2.
  cbn [fst snd] in HXa, HYa. subst Xa Ya.
  assert (H02 : settled s s2) by (by etransitivity).
  ssf ltac:(apply steady_PS_current_setattr). intros _ s3 [_ F3] H3.
  assert (H03 : settled s s3) by (by etransitivity).
  assert (Hfs3 : fs s3 = fs s) by congruence.
  ssf ltac:(apply steady_free_path). intros p ? [(-> & Hfree & k & Hk & ->) _] _.
  eapply (succeeds_bind settled (fun _ s4 => size (fs s4) <= S (size (fs s))));
    [| intros _ s4 Hsize4 H4].
  { destruct savefig.
    - eapply succeeds_mono; [done | | apply settled_savefig_to].
      + cbv beta. intros _ s4 Hs. by rewrite Hfs3 in Hs.
      + apply H03, Hfig. auto.
      + done.
      + apply writable_candidate; try done; [by rewrite Hfs3|].
        apply Hhost. by rewrite <- Hfs3.
    - apply succeeds_ret; [tc_solve|]. rewrite Hfs3. lia. }
  assert (H04 : settled s s4) by (by etransitivity).
  eapply (succeeds_bind settled (fun _ s5 => size (fs s5) <= S (size (fs s))));
    [| intros _ s5 Hsize5 H5].
  { destruct closefig.
    - eapply succeeds_mono; [done | | apply succeeds_steady_fs, steady_plt_close_fig].
      + cbv beta. intros _ s5 [_ ->]. done.
      + apply H04, Hfig. auto.
    - by apply succeeds_ret; [tc_solve|]. }
  apply succeeds_ret; [tc_solve|]. split; [done|]. by exists xs, ys.
Qed.

Lemma sweep_field_ok lab fields save_dir filename kw self :
  let close_loop := bind_kw false (kw_close_loop kw) in
  let livefig := bind_kw true (kw_livefig kw) in
  let savefig := bind_kw true (kw_savefig kw) in
  let closefig := bind_kw false (kw_closefig kw) in
  let return_XY := bind_kw false (kw_return_XY kw) in
  reliable lab ->
  fields <> [] ->
  tidy_dir save_dir = true ->
  tidy_name filename = true ->
  os_path_isdir (fs self) save_dir = true \/ mkdir_ok lab (fs self) save_dir = true ->
  host_writes lab save_dir filename (S (S (size (fs self)))) ->
  livefig = true \/ is_Some (fig self) \/ (savefig = false /\ closefig = false) ->
  sleepable lab (_get_from0delay self (bind_kw None (kw_from0delay kw))) = true ->
  sleepable lab (_get_read_delay self (bind_kw None (kw_read_delay kw))) = true ->
  sleepable lab (_get_rep_delay self (bind_kw None (kw_rep_delay kw))) = true ->
  sleepable lab (_get_sen_delay self (bind_kw None (kw_sen_delay kw))) = true ->
  succeeds settled
    (fun r self' => exists xs ys plan path,
       length xs = 2 * length fields /\ length ys = 2 * length fields /\
       r = (if return_XY
            then Some (xs ++ (if close_loop then take 1 xs else []),
                       ys ++ (if close_loop then take 1 ys else []))
            else None) /\
       sweep_plan fields close_loop self = (Ok plan, self) /\
       fs self !! path = None /\
       fs self' !! path =
         Some (CsvFile (mkDataFrame (map field2current plan) plan
                          (xs ++ (if close_loop then take 1 xs else []))
                          (ys ++ (if close_loop then take 1 ys else [])))))
    (sweep_field lab fields save_dir filename kw) self.
Proof.
  intros close_loop livefig savefig closefig return_XY
    Hlab Hne Htidy Hname Hdir Hhost Hfig H0d Hdl Hrd Hsd.
  destruct fields as [|f0 fields']; [done|]. clear Hne.
  unfold sweep_field. cbv zeta.
  fold close_loop livefig savefig closefig return_XY.
  clearbody close_loop livefig savefig closefig return_XY.
  set (mirror := np_concatenate (f0 :: fields') (np_neg (f0 :: fields'))).
  assert (Hm0 : mirror !! 0 = Some f0) by done.
  assert (Hc0 : map field2current mirror !! 0 = Some (field2current f0)) by done.
  assert (Hmlen : length mirror = 2 * length (f0 :: fields')).
  { unfold mirror, np_concatenate, np_neg. rewrite length_app, length_map. lia. }
  eapply succeeds_bind; [tc_solve | apply succeeds_gets; tc_solve | intros disk ? [-> ->] _].
  eapply (succeeds_bind settled
            (fun _ s1 => fs s1 !! save_dir = Some Directory /\
                         size (fs s1) <= S (size (fs self))));
    [| intros _ s1 [Hthere Hsize1] H1].
  { destruct (os_path_isdir (fs self) save_dir) eqn:E; simpl.
    - apply succeeds_ret; [tc_solve|]. split; [|lia].
      unfold os_path_isdir in E. by destruct (fs self !! save_dir) as [[]|].
    - destruct Hdir as [|Hmk]; [done|].
      eapply succeeds_mono; [done | | by apply settled_os_mkdir].
      cbv beta. intros _ s1 ->. rewrite lookup_insert_eq. split; [done|].
      destruct (os_mkdir_ok _ _ _ Hmk) as [Hfree _].
      by rewrite map_size_insert_None. }
  ssf ltac:(by apply steady_np_index). intros c0 s2 [-> F2] H2.
  assert (H02 : settled self s2) by (by etransitivity).
  ssf ltac:(by apply steady_PS_set_current). intros _ s3 [_ F3] H3.
  assert (H03 : settled self s3) by (by etransitivity).
  eapply succeeds_bind; [tc_solve | apply succeeds_gets; tc_solve | intros d ? [-> ->] _].
  destruct (settled_resolvers _ _ H03) as (_ & _ & _ & _ & _ & E0d).
  ssf ltac:(apply steady_time_sleep; by rewrite E0d). intros _ s4 [_ F4] H4.
  assert (H04 : settled self s4) by (by etransitivity).
  eapply (succeeds_bind settled
            (fun _ s5 => (livefig = true -> is_Some (fig s5)) /\ fs s5 = fs s4));
    [| intros [] s5 [Hfig5 F5] H5].
  { destruct livefig.
    - eapply succeeds_mono; [done | | apply succeeds_steady_fs, steady__make_fig].
      cbv beta. by intros _ s5 [? ?].
    - by apply succeeds_ret; [tc_solve|]. }
  assert (H05 : settled self s5) by (by etransitivity).
  assert (Hfs5 : fs s5 = fs s1) by congruence.
  destruct (settled_resolvers _ _ H05) as (_ & Esd & _ & Erd & Edl & _).
  assert (Hfig' : livefig = true \/ savefig = true \/ closefig = true -> is_Some (fig s5)).
  { intros Hany. destruct Hfig as [Hl|[Hf|[Hs Hc]]].
    - by apply Hfig5.
    - by apply H05.
    - destruct Hany as [Hl|[Hs'|Hc']]; [by apply Hfig5 | congruence | congruence]. }
  eapply succeeds_bind;
    [ tc_solve
    | apply sweep_parameter_ok;
        [done | by rewrite length_map | done | by rewrite Edl | by rewrite Erd
        | by rewrite Esd | done | done | by rewrite Hfs5
        | intros k ext Hk; apply Hhost; rewrite Hfs5 in Hk; lia]
    | intros arrs s6 (Hsize6 & xs & ys & Hxs & Hys & ->) H6 ].
  assert (H06 : settled self s6) by (by etransitivity).
  rewrite length_map in Hxs, Hys.
  assert (Hcl : forall l, closing close_loop (map field2current mirror) l =
                          if close_loop then take 1 l else []).
  { intros l. unfold closing. rewrite bool_decide_eq_true_2; [|done].
    by rewrite andb_true_r. }
  rewrite !Hcl.
  set (plan := mirror ++ (if close_loop then [f0] else [])).
  eapply (succeeds_bind settled
            (fun cf s7 => cf = (map field2current plan, plan) /\ fs s7 = fs s6));
    [|intros cf s7 [-> F7] H7].
  { unfold plan. destruct close_loop.
    - ssf ltac:(by apply steady_np_index). intros ? s' [-> F'] _.
      ssf ltac:(by apply steady_np_index). intros ? s'' [-> F''] _.
      apply succeeds_ret; [tc_solve|]. unfold np_append. rewrite map_app.
      split; [done | congruence].
    - apply succeeds_ret; [tc_solve|]. by rewrite app_nil_r. }
  assert (H07 : settled self s7) by (by etransitivity).
  ssf ltac:(apply steady_free_path). intros path ? [(-> & Hfree & k & Hk & ->) _] _.
  assert (Hplan : length plan = length mirror + (if close_loop then 1 else 0)).
  { unfold plan. rewrite length_app. by destruct close_loop. }
  cbn [length] in Hmlen.
  ssf ltac:(apply steady_pd_DataFrame;
            rewrite ?length_map, ?length_app, ?Hplan;
            destruct close_loop; cbn [length]; rewrite ?length_take; lia).
  intros df ? [[-> ->] _] _.
  eapply succeeds_bind; [tc_solve | | intros [] s9 Hcsv H9].
  { apply settled_to_csv; [done|].
    apply writable_candidate; try done.
    - destruct H6 as (_ & _ & Hsub). rewrite F7.
      eapply lookup_weaken; [|exact Hsub]. by rewrite Hfs5.
    - apply Hhost. rewrite F7 in Hk. rewrite Hfs5 in Hsize6. lia. }
  assert (A1 : length xs = 2 * length (f0 :: fields')) by (by rewrite Hxs, Hmlen).
  assert (A2 : length ys = 2 * length (f0 :: fields')) by (by rewrite Hys, Hmlen).
  assert (A3 : sweep_plan (f0 :: fields') close_loop self = (Ok plan, self)).
  { unfold sweep_plan. fold mirror. unfold plan.
    destruct close_loop; [|by rewrite app_nil_r].
    unfold bind, np_index. by rewrite Hm0. }
  assert (A4 : fs self !! os_path_join save_dir (renamed filename 1 k +:+ ".csv") = None).
  { destruct H07 as (_ & _ & Hsub). by eapply lookup_weaken_None. }
  destruct return_XY; (apply succeeds_ret; [tc_solve|]);
    by eexists xs, ys, plan, _.
Qed.

(** ** The sweep plan *)

(** C4, as the code has it.  For a field sequence of N elements the plan is
    built and has 2N elements, or 2N+1 with the first element appended when
    the loop is closed, provided the sequence is not empty in the closed
    case; element N+i of the plan is the negation of element i for every
    i < N. *)
Theorem sweep_plan_mirrored fields close_loop s :
  (close_loop = true -> fields <> []) ->
  exists plan,
    sweep_plan fields close_loop s = (Ok plan, s) /\
    length plan = 2 * length fields + (if close_loop then 1 else 0) /\
    forall i, i < length fields ->
      exists x, plan !! i = Some x /\ plan !! (length fields + i) = Some (F64.neg x).
Proof.
  intros Hne. unfold sweep_plan, np_concatenate, np_neg.
  assert (Hmirror : forall tail i, i < length fields ->
            exists x, ((fields ++ map F64.neg fields) ++ tail) !! i = Some x /\
                      ((fields ++ map F64.neg fields) ++ tail) !! (length fields + i)
                      = Some (F64.neg x)).
  { intros tail i Hi. destruct (lookup_lt_is_Some_2 fields i Hi) as [x Hx].
    exists x. rewrite <- app_assoc. split.
    - by rewrite lookup_app_l.
    - rewrite lookup_app_r by lia. rewrite lookup_app_l by (rewrite length_map; lia).
      replace (length fields + i - length fields) with i by lia.
      change (map F64.neg fields) with (F64.neg <$> fields).
      by rewrite list_lookup_fmap, Hx. }
  destruct close_loop.
  - destruct fields as [|f0 fields']; [by destruct Hne|].
    eexists. split; [reflexivity|]. split.
    + unfold np_append. rewrite !length_app, length_map. simpl. lia.
    + apply Hmirror.
  - eexists. split; [reflexivity|]. split.
    + rewrite length_app, length_map. lia.
    + intros i Hi. destruct (Hmirror [] i Hi) as (x & H1 & H2).
      rewrite app_nil_r in H1, H2. eauto.
Qed.

Lemma sweep_plan_mirrored_witness :
  exists plan,
    sweep_plan [F64.of_Z 10; F64.of_Z 20] true (init (F64.dec 5 1) ∅)
      = (Ok plan, init (F64.dec 5 1) ∅) /\
    length plan = 5.
Proof.
  destruct (sweep_plan_mirrored [F64.of_Z 10; F64.of_Z 20] true (init (F64.dec 5 1) ∅))
    as (plan & Hplan & Hlen & _).
  - intros _. discriminate.
  - exists plan. split; [exact Hplan | exact Hlen].
Defined.

(** C4, as the specification has it, fails on the empty sequence with the
    loop closed: no plan of 2*0+1 elements is built, the first element that
    would close the loop does not exist, and the sweep itself stops with the
    same index error. *)
Lemma sweep_plan_empty_closed :
  (~ exists plan, (sweep_plan [] true (init (F64.dec 5 1) ∅)).1 = Ok plan /\
                  length plan = 2 * 0 + 1) /\
  (sweep_plan [] true (init (F64.dec 5 1) ∅)).1 = Raise IndexError /\
  (sweep_field demo_lab [] "out" "test"
     (mkKwargs (Given true) Omitted Omitted Omitted Omitted Omitted Omitted Omitted
        Omitted Omitted Omitted Omitted)
     (init (F64.dec 5 1) ∅)).1 = Raise IndexError.
Proof.
  split; [|split; vm_compute; reflexivity].
  intros (plan & Hplan & _). vm_compute in Hplan. discriminate.
Qed.

(** ** Sweeps over an empty sequence *)

(** C9, as the code has it.  A sweep over the empty field sequence never
    returns, never raises a configuration error and commands no instrument.
    For an output path that is empty or in normal form it ends in the index
    error of the ramp step, which reads the first set-point (line 215), when
    the path is a directory or [os.mkdir] creates it, and otherwise in the
    error of [os.mkdir] (line 210): [FileExistsError] when the path is taken
    by something that is not a directory, [FileNotFoundError] when the path
    is empty or its directory is missing, [NotADirectoryError] when its
    directory is a file, [OSError] when the host refuses. *)
Theorem sweep_empty_fields_index_error lab save_dir filename kw self :
  let r := sweep_field lab [] save_dir filename kw self in
  (forall a, r.1 <> Ok a) /\
  r.1 <> Raise ConfigurationError /\
  log r.2 = log self /\
  n_set_current r.2 = n_set_current self /\
  n_getXY r.2 = n_getXY self /\
  (save_dir = "" \/ tidy_dir save_dir = true ->
   r.1 =
     if os_path_isdir (fs self) save_dir then Raise IndexError
     else if os_path_exists (fs self) save_dir then Raise FileExistsError
     else if String.eqb save_dir "" then Raise FileNotFoundError
     else match parent_of (fs self) save_dir with
          | None => Raise FileNotFoundError
          | Some Directory =>
              if write_ok lab save_dir then Raise IndexError else Raise OSError
          | Some _ => Raise NotADirectoryError
          end).
Proof.
  intros r. subst r. unfold sweep_field. cbv zeta.
  rewrite (bind_ok (gets fs) _ self (fs self) self eq_refl).
  destruct (os_path_isdir (fs self) save_dir) eqn:Edir; cbn [negb].
  - rewrite (bind_ok (ret tt) _ self tt self eq_refl).
    unfold bind, np_index, raise. simpl. by repeat split.
  - destruct (os_mkdir_cases lab save_dir self) as [[e He]|[Hfree Hmk]].
    + rewrite (bind_raise _ _ _ _ _ He). cbn [fst snd].
      split; [done|]. split.
      { intros [= ->]. revert He. unfold os_mkdir, bind, gets, modify, raise.
        cbv beta iota. destruct (os_path_exists _ _); [done|].
        destruct (has_nul _); [done|]. destruct (String.eqb _ _); [done|].
        destruct (parent_of _ _) as [[]|]; try done. by destruct (write_ok _ _). }
      split; [done|]. split; [done|]. split; [done|].
      intros Htidy. revert He. unfold os_mkdir, bind, gets, modify, raise.
      cbv beta iota. destruct (os_path_exists _ _); [by intros [= <-]|].
      assert (has_nul save_dir = false) as ->.
      { destruct Htidy as [->|H]; [done|]. by apply tidy_dir_inv in H as (_ & _ & ?). }
      destruct (String.eqb _ _); [by intros [= <-]|].
      destruct (parent_of _ _) as [[]|]; try (by intros [= <-]).
      destruct (write_ok _ _); [done | by intros [= <-]].
    + rewrite (bind_ok _ _ _ _ _ Hmk).
      unfold bind, np_index, raise. simpl.
      split; [done|]. split; [done|]. split; [done|]. split; [done|]. split; [done|].
      intros _. revert Hmk. unfold os_mkdir, bind, gets, modify, raise.
      cbv beta iota. destruct (os_path_exists _ _); [done|].
      destruct (has_nul _); [done|]. destruct (String.eqb _ _); [done|].
      destruct (parent_of _ _) as [[]|]; try done. by destruct (write_ok _ _).
Qed.

Lemma sweep_empty_fields_index_error_witness :
  (sweep_field demo_lab [] "a/b" "test" no_kwargs (init (F64.dec 5 1) ∅)).1
    = Raise FileNotFoundError /\
  (sweep_field demo_lab [] "" "test" no_kwargs (init (F64.dec 5 1) ∅)).1
    = Raise FileNotFoundError /\
  (sweep_field demo_lab [] "out" "test" no_kwargs (init (F64.dec 5 1) ∅)).1
    = Raise IndexError.
Proof.
  split; [|split].
  - destruct (sweep_empty_fields_index_error demo_lab "a/b" "test" no_kwargs
                (init (F64.dec 5 1) ∅)) as (_ & _ & _ & _ & _ & H).
    rewrite H; [vm_compute; reflexivity | right; vm_compute; reflexivity].
  - destruct (sweep_empty_fields_index_error demo_lab "" "test" no_kwargs
                (init (F64.dec 5 1) ∅)) as (_ & _ & _ & _ & _ & H).
    rewrite H; [vm_compute; reflexivity | left; reflexivity].
  - destruct (sweep_empty_fields_index_error demo_lab "out" "test" no_kwargs
                (init (F64.dec 5 1) ∅)) as (_ & _ & _ & _ & _ & H).
    rewrite H; [vm_compute; reflexivity | right; vm_compute; reflexivity].
Defined.

(** C9, as the specification has it, fails: the empty sequence is answered
    with an index error, not a configuration error, and a sequence whose
    signs alternate is swept without complaint. *)
Lemma sweep_empty_fields_not_configuration_error :
  (sweep_field demo_lab [] "out" "test" no_kwargs (init (F64.dec 5 1) ∅)).1
    = Raise IndexError /\
  (sweep_field demo_lab [] "out" "test" no_kwargs (init (F64.dec 5 1) ∅)).1
    <> Raise ConfigurationError /\
  (sweep_field demo_lab [F64.of_Z 10; F64.of_Z (-5); F64.of_Z 10] "out" "test" no_kwargs
     (init (F64.dec 5 1) ∅)).1 = Ok None.
Proof. vm_compute. by repeat split. Qed.

(** The two errors that only the specification names are raised by no path
    of a sweep. *)
Lemma never_spec_only_sweep_field lab fields save_dir filename kw e :
  spec_only e -> never_raises e (sweep_field lab fields save_dir filename kw).
Proof.
  intros He.
  assert (Hsleep : forall d, never_raises e (time_sleep lab d)).
  { intros d. unfold time_sleep. destruct He as [-> | ->]; never_raises. }
  assert (Hidx : forall a i, never_raises e (np_index a i)).
  { intros a i. apply never_raises_np_index. by destruct He as [-> | ->]. }
  assert (Hset : forall c, never_raises e (PS_set_current lab c)).
  { intros c. unfold PS_set_current. destruct He as [-> | ->]; never_raises. }
  assert (Hget : never_raises e (LIA_getXY lab)).
  { unfold LIA_getXY. destruct He as [-> | ->]; never_raises. }
  assert (Hplot : forall x a b, never_raises e (_update_sweep_plot x a b)).
  { intros x a b. unfold _update_sweep_plot. destruct He as [-> | ->]; never_raises. }
  assert (Hloop : forall n rd Xa Ya, never_raises e (readXY_loop lab n rd Xa Ya)).
  { induction n as [|n IH]; intros rd Xa Ya; simpl; never_raises; auto. }
  assert (Hread : forall reps rd sd, never_raises e (readXY lab reps rd sd)).
  { intros reps rd sd. unfold readXY, LIA_SEN_getattr, LIA_decrease_sensitivity.
    never_raises; auto. }
  assert (Hfor : forall params livefig cl reps rd sd dl rest i vars,
            never_raises e (for_params lab params (PS_set_current lab) livefig cl
                              reps rd sd dl rest i vars)).
  { intros params livefig cl reps rd sd dl.
    induction rest as [|param rest IH]; intros i [[xr Xa] Ya]; cbn [for_params].
    - never_raises.
    - repeat first [ apply Hset | apply Hsleep | apply Hread | apply Hidx | apply Hplot
                   | apply IH | never_raises_step ]. }
  unfold sweep_field, _sweep_parameter, os_mkdir, _make_fig, LIA_SEN_setattr,
    PS_current_setattr, savefig_to, plt_close_fig, pd_DataFrame, to_csv, open_w.
  cbv zeta.
  repeat first [ apply Hset | apply Hsleep | apply Hidx | apply Hfor
               | apply never_raises_free_path
               | match goal with
                 | |- never_raises _ (raise _) => destruct He as [-> | ->]
                 end
               | never_raises_step ].
Qed.

(** ** The closed-loop sweep of [10, 20] *)

Lemma reliable_demo_lab : reliable demo_lab.
Proof. split; intros n; [done | by eexists]. Qed.

(** C7. On a bench without failures (the instruments answer, the clock
    takes the four delays, the host lets the files be written), with an
    output path in normal form that is a directory or can be created, a file
    name without separator, and a figure to draw on or none needed, the
    closed-loop sweep of [10, 20] returns and writes one table, to a path
    that held nothing before: the table has 5 rows, its field column is
    [10, 20, -10, -20, 10], and the X and Y of its last row are the X and Y
    of its first row. *)
Theorem closed_loop_sweep_10_20 lab save_dir filename kw self :
  kw_close_loop kw = Given true ->
  reliable lab ->
  tidy_dir save_dir = true ->
  tidy_name filename = true ->
  os_path_isdir (fs self) save_dir = true \/ mkdir_ok lab (fs self) save_dir = true ->
  host_writes lab save_dir filename (S (S (size (fs self)))) ->
  bind_kw true (kw_livefig kw) = true \/ is_Some (fig self) \/
    (bind_kw true (kw_savefig kw) = false /\ bind_kw false (kw_closefig kw) = false) ->
  sleepable lab (_get_from0delay self (bind_kw None (kw_from0delay kw))) = true ->
  sleepable lab (_get_read_delay self (bind_kw None (kw_read_delay kw))) = true ->
  sleepable lab (_get_rep_delay self (bind_kw None (kw_rep_delay kw))) = true ->
  sleepable lab (_get_sen_delay self (bind_kw None (kw_sen_delay kw))) = true ->
  exists r self' path df,
    sweep_field lab [F64.of_Z 10; F64.of_Z 20] save_dir filename kw self = (Ok r, self') /\
    fs self !! path = None /\
    fs self' !! path = Some (CsvFile df) /\
    nrows df = 5 /\
    field_Oe df = [F64.of_Z 10; F64.of_Z 20; F64.of_Z (-10); F64.of_Z (-20); F64.of_Z 10] /\
    length (col_X df) = 5 /\ length (col_Y df) = 5 /\
    is_Some (col_X df !! 0) /\ is_Some (col_Y df !! 0) /\
    col_X df !! 4 = col_X df !! 0 /\
    col_Y df !! 4 = col_Y df !! 0.
Proof.
  intros Hcl Hlab Htidy Hname Hdir Hhost Hfig H0 H1 H2 H3.
  destruct (sweep_field_ok lab [F64.of_Z 10; F64.of_Z 20] save_dir filename kw self
              Hlab ltac:(done) Htidy Hname Hdir Hhost Hfig H0 H1 H2 H3)
    as (r & self' & Hrun & (xs & ys & plan & path & Hxs & Hys & _ & Hplan & Hfree & Hcsv) & _).
  rewrite Hcl in *. cbn [bind_kw] in *.
  injection Hplan as <-.
  destruct xs as [|x1 [|x2 [|x3 [|x4 [|? ?]]]]]; try discriminate Hxs.
  destruct ys as [|y1 [|y2 [|y3 [|y4 [|? ?]]]]]; try discriminate Hys.
  exists r, self', path. eexists. split; [exact Hrun|]. split; [exact Hfree|].
  split; [exact Hcsv|]. simpl. repeat split; by eexists.
Qed.

Lemma closed_loop_sweep_10_20_witness :
  exists r self' path df,
    sweep_field demo_lab [F64.of_Z 10; F64.of_Z 20] "out" "test"
      (mkKwargs (Given true) Omitted Omitted Omitted Omitted Omitted Omitted Omitted
         Omitted Omitted Omitted Omitted)
      (init (F64.dec 5 1) ∅) = (Ok r, self') /\
    fs self' !! path = Some (CsvFile df) /\
    nrows df = 5.
Proof.
  destruct (closed_loop_sweep_10_20 demo_lab "out" "test"
              (mkKwargs (Given true) Omitted Omitted Omitted Omitted Omitted Omitted
                 Omitted Omitted Omitted Omitted Omitted)
              (init (F64.dec 5 1) ∅))
    as (r & self' & path & df & Hrun & _ & Hcsv & Hrows & _).
  - reflexivity.
  - exact reliable_demo_lab.
  - vm_compute. reflexivity.
  - vm_compute. reflexivity.
  - right. vm_compute. reflexivity.
  - intros k ext _. reflexivity.
  - left. reflexivity.
  - vm_compute. reflexivity.
  - vm_compute. reflexivity.
  - vm_compute. reflexivity.
  - vm_compute. reflexivity.
  - exists r, self', path, df. split; [exact Hrun|]. split; [exact Hcsv | exact Hrows].
Defined.

(** ** Where the code departs from its documentation *)

(** C3, the failing input.  On a fresh session, whose default gain is
    0.0002, a sweep called without the [sen] keyword sets the amplifier to
    0.002, the default written in the signature of [sweep_field]; the
    session default is never assigned. *)
Theorem omitted_sen_is_signature_default :
  let self := init (F64.dec 5 1) ∅ in
  let r := sweep_field demo_lab [F64.of_Z 10] "out" "test" no_kwargs self in
  sen self = F64.dec 2 4 /\
  bool_decide (ev_SEN_assign (F64.dec 2 3) ∈ log r.2) = true /\
  bool_decide (ev_SEN_assign (sen self) ∈ log r.2) = false /\
  F64.dec 2 3 <> sen self.
Proof. vm_compute. by repeat split. Qed.

(** C6, the failing input.  Three sweeps in a row under one directory and
    one name: the first writes [test.csv] and [test.png], the second
    [test_(1).csv] and [test_(1).png], and the third stacks a second suffix
    on the first, [test_(1)_(2)], although [test_(2).csv] and [test_(2).png]
    were free. *)
Theorem third_write_stacks_suffixes :
  let s0 := init (F64.dec 5 1) ∅ in
  let s1 := (sweep_field demo_lab [F64.of_Z 10] "out" "test" no_kwargs s0).2 in
  let s2 := (sweep_field demo_lab [F64.of_Z 10] "out" "test" no_kwargs s1).2 in
  let s3 := (sweep_field demo_lab [F64.of_Z 10] "out" "test" no_kwargs s2).2 in
  bool_decide (dom (fs s1) = {[ "out"; "out/test.csv"; "out/test.png" ]}) = true /\
  bool_decide (dom (fs s2) ∖ dom (fs s1) =
               {[ "out/test_(1).csv"; "out/test_(1).png" ]}) = true /\
  bool_decide (dom (fs s3) ∖ dom (fs s2) =
               {[ "out/test_(1)_(2).csv"; "out/test_(1)_(2).png" ]}) = true /\
  fs s2 !! "out/test_(2).csv" = None /\
  fs s2 !! "out/test_(2).png" = None /\
  fs s3 !! "out/test_(2).csv" = None.
Proof. vm_compute. by repeat split. Qed.

(** ** The unit converters on binary64 *)

Example current2field_field2current_10 :
  current2field (field2current (F64.of_Z 10)) = F64.of_Z 10.
Proof. vm_compute. reflexivity. Qed.

Example current2field_field2current_20 :
  current2field (field2current (F64.of_Z 20)) = F64.of_Z 20.
Proof. vm_compute. reflexivity. Qed.

(** Near the bottom of the range the quotient is rounded on the subnormal
    grid and the product comes back far from the argument: 97 * 2^-1074 goes
    to 193 * 2^-1074. *)
Example current2field_field2current_subnormal :
  current2field (field2current (S754_finite false 97 (-1074)))
  = S754_finite false 193 (-1074).
Proof. vm_compute. reflexivity. Qed.

(** ** What a sweep leaves alone, whatever its outcome *)

Lemma keeps_ok {A} (R : relation Experiment) (m : M A) s a s' :
  keeps R m -> m s = (Ok a, s') -> R s s'.
Proof. intros H E. specialize (H s). by rewrite E in H. Qed.

Lemma keeps_bind_at {A B} (R : relation Experiment) `{!Transitive R}
    (m : M A) (k : A -> M B) s :
  R s (m s).2 ->
  (forall a s', m s = (Ok a, s') -> R s' (k a s').2) ->
  R s (bind m k s).2.
Proof.
  intros Hm Hk. unfold bind. destruct (m s) as [[a|e] s'] eqn:E; simpl in *; [|done].
  etransitivity; [exact Hm | by apply Hk].
Qed.

Lemma settled_of_fields s s' :
  sen s' = sen s -> sen_delay s' = sen_delay s -> read_reps s' = read_reps s ->
  rep_delay s' = rep_delay s -> read_delay s' = read_delay s ->
  from0delay s' = from0delay s ->
  (is_Some (fig s) -> is_Some (fig s')) -> fs s ⊆ fs s' -> settled s s'.
Proof. intros. by repeat split. Qed.

Lemma settled_emit e : keeps settled (emit e).
Proof. intros s. by apply settled_of_fields. Qed.

Lemma settled_set_LIA_SEN v : keeps settled (modify (set_LIA_SEN v)).
Proof. intros s. by apply settled_of_fields. Qed.

Lemma settled_set_PS_current v : keeps settled (modify (set_PS_current v)).
Proof. intros s. by apply settled_of_fields. Qed.

Lemma settled_set_n_getXY v : keeps settled (modify (set_n_getXY v)).
Proof. intros s. by apply settled_of_fields. Qed.

Lemma settled_set_n_set_current v : keeps settled (modify (set_n_set_current v)).
Proof. intros s. by apply settled_of_fields. Qed.

Lemma settled_set_fig_Some v : keeps settled (modify (set_fig (Some v))).
Proof. intros s. by apply settled_of_fields. Qed.

#[global] Hint Resolve settled_emit settled_set_LIA_SEN settled_set_PS_current
  settled_set_n_getXY settled_set_n_set_current settled_set_fig_Some : keeps.

Lemma settled_time_sleep {lab} d : keeps settled (time_sleep lab d).
Proof. unfold time_sleep. keeps. Qed.

Lemma settled_np_index a i : keeps settled (np_index a i).
Proof. unfold np_index. keeps. Qed.

Lemma settled_PS_set_current lab c : keeps settled (PS_set_current lab c).
Proof. unfold PS_set_current. keeps. Qed.

Lemma settled_LIA_getXY lab : keeps settled (LIA_getXY lab).
Proof. unfold LIA_getXY. keeps. Qed.

Lemma settled__make_fig : keeps settled _make_fig.
Proof. unfold _make_fig. keeps. Qed.

Lemma settled__update_sweep_plot x a b : keeps settled (_update_sweep_plot x a b).
Proof. unfold _update_sweep_plot. keeps. Qed.

Lemma settled_LIA_SEN_getattr : keeps settled LIA_SEN_getattr.
Proof. unfold LIA_SEN_getattr. keeps. Qed.

Lemma settled_LIA_decrease_sensitivity lab : keeps settled (LIA_decrease_sensitivity lab).
Proof. unfold LIA_decrease_sensitivity. keeps. Qed.

Lemma settled_LIA_SEN_setattr g : keeps settled (LIA_SEN_setattr g).
Proof. unfold LIA_SEN_setattr. keeps. Qed.

Lemma settled_PS_current_setattr c : keeps settled (PS_current_setattr c).
Proof. unfold PS_current_setattr. keeps. Qed.

Lemma settled_plt_close_fig : keeps settled plt_close_fig.
Proof. unfold plt_close_fig. keeps. Qed.

Lemma settled_pd_DataFrame c f x y : keeps settled (pd_DataFrame c f x y).
Proof. unfold pd_DataFrame. keeps. Qed.

Lemma settled_free_path dir f ext : keeps settled (free_path dir f ext).
Proof. intros s. destruct (free_path_ok dir f ext s) as (p & -> & _). reflexivity. Qed.

Lemma settled_os_mkdir_any {lab} p : keeps settled (os_mkdir lab p).
Proof.
  intros s. destruct (os_mkdir_cases lab p s) as [[e ->]|[E ->]]; [reflexivity|].
  apply settled_of_fields; try done. simpl. by apply insert_subseteq.
Qed.

#[global] Hint Resolve settled_time_sleep settled_np_index settled_PS_set_current
  settled_LIA_getXY settled__make_fig settled__update_sweep_plot
  settled_LIA_SEN_getattr settled_LIA_decrease_sensitivity settled_LIA_SEN_setattr
  settled_PS_current_setattr settled_plt_close_fig settled_pd_DataFrame
  settled_free_path settled_os_mkdir_any : keeps.

Lemma settled_readXY_loop lab n : forall rd Xa Ya,
  keeps settled (readXY_loop lab n rd Xa Ya).
Proof. induction n as [|n IH]; intros rd Xa Ya; simpl; keeps. Qed.

#[global] Hint Resolve settled_readXY_loop : keeps.

Lemma settled_readXY lab reps rd sd : keeps settled (readXY lab reps rd sd).
Proof. unfold readXY. keeps. Qed.

#[global] Hint Resolve settled_readXY : keeps.

Lemma settled_for_params lab params livefig close_loop reps rd sd dl rest i vars :
  keeps settled
    (for_params lab params (PS_set_current lab) livefig close_loop reps rd sd dl rest i vars).
Proof. apply keeps_for_params; [tc_solve | intros; keeps..]. Qed.

(** A file written to a path that [free_path] has just returned overwrites
    nothing. *)
Lemma settled_free_path_then {A} dir f ext (k : string -> M A) :
  (forall p s, fs s !! p = None -> settled s (k p s).2) ->
  keeps settled (bind (free_path dir f ext) k).
Proof.
  intros Hk s. destruct (free_path_ok dir f ext s) as (p & Hp & Hfree).
  rewrite (bind_ok _ _ _ _ _ Hp). by apply Hk.
Qed.

Lemma settled_savefig_to_free {lab} p s : fs s !! p = None -> settled s (savefig_to lab p s).2.
Proof.
  intros Hfree.
  destruct (savefig_to_cases lab p s) as [[e ->]|(x & a & b & _ & _ & ->)]; [reflexivity|].
  apply settled_of_fields; try done. simpl. by apply insert_subseteq.
Qed.

Lemma settled_to_csv_free {lab} df p s : fs s !! p = None -> settled s (to_csv lab df p s).2.
Proof.
  intros Hfree. destruct (to_csv_cases lab df p s) as [[e ->]|[_ ->]]; [reflexivity|].
  apply settled_of_fields; try done. simpl. by apply insert_subseteq.
Qed.

Lemma settled_sweep_parameter lab params save_dir livefig savefig closefig sen
    sen_delay read_reps rep_delay read_delay xrange filename close_loop :
  keeps settled
    (_sweep_parameter lab params (PS_set_current lab) save_dir livefig savefig closefig
       sen sen_delay read_reps rep_delay read_delay xrange filename close_loop).
Proof.
  unfold _sweep_parameter.
  apply keeps_bind; [tc_solve | keeps | intros g].
  apply keeps_bind; [tc_solve | keeps | intros _].
  apply keeps_bind; [tc_solve | apply settled_for_params | intros [[xr Xa] Ya]].
  apply keeps_bind; [tc_solve | keeps | intros _].
  apply settled_free_path_then. intros p s Hfree.
  apply keeps_bind_at; [tc_solve | |].
  - destruct savefig; [by apply settled_savefig_to_free | reflexivity].
  - intros _ s' _. assert (keeps settled
      ((when closefig then plt_close_fig);;; ret (Xa, Ya))) as Hk by keeps.
    apply Hk.
Qed.

Lemma settled_sweep_field lab fields save_dir filename kw :
  keeps settled (sweep_field lab fields save_dir filename kw).
Proof.
  unfold sweep_field. cbv zeta.
  do 7 (apply keeps_bind; [tc_solve | keeps | intros ?]).
  apply keeps_bind; [tc_solve | apply settled_sweep_parameter | intros [x_arr y_arr]].
  apply keeps_bind; [tc_solve | keeps | intros [currents fields']].
  apply settled_free_path_then. intros p s Hfree.
  apply keeps_bind_at; [tc_solve | apply settled_pd_DataFrame |].
  intros df s' Hdf.
  assert (s' = s) as ->.
  { unfold pd_DataFrame in Hdf. destruct (_ && _); by injection Hdf. }
  apply keeps_bind_at; [tc_solve | by apply settled_to_csv_free |].
  intros _ s' _. destruct (bind_kw false (kw_return_XY kw)); reflexivity.
Qed.

(** X1.  A sweep never changes the six session defaults set by [__init__]
    (sensitivity, sensitivity delay, read repetitions, repetition delay, read
    delay, from-zero delay), whatever its arguments and whatever its outcome:
    the keyword overrides of one call do not leak into the next. *)
Theorem sweep_keeps_session_defaults lab fields save_dir filename kw self :
  same_defaults self (sweep_field lab fields save_dir filename kw self).2.
Proof. apply settled_sweep_field. Qed.

(** X2.  A sweep never overwrites or removes what is on the disk, whatever
    its arguments and whatever its outcome: every path that held something
    before the call holds the same thing after it. *)
Theorem sweep_keeps_disk_contents lab fields save_dir filename kw self p (n : node) :
  fs self !! p = Some n ->
  fs (sweep_field lab fields save_dir filename kw self).2 !! p = Some n.
Proof.
  intros Hp. destruct (settled_sweep_field lab fields save_dir filename kw self)
    as (_ & _ & Hsub).
  by eapply lookup_weaken.
Qed.

Lemma sweep_keeps_disk_contents_witness :
  fs (sweep_field demo_lab [F64.of_Z 10] "out" "test" no_kwargs
        (init (F64.dec 5 1) {[ "out/test.csv" := OtherFile ]})).2 !! "out/test.csv"
  = Some OtherFile.
Proof.
  apply (sweep_keeps_disk_contents demo_lab [F64.of_Z 10] "out" "test" no_kwargs
           (init (F64.dec 5 1) {[ "out/test.csv" := OtherFile ]}) "out/test.csv" OtherFile).
  vm_compute. reflexivity.
Defined.

(** ** The commands a completed sweep sends to the power source *)

#[global] Instance source_quiet_preorder : PreOrder source_quiet.
Proof.
  split.
  - intros s. split; [|done]. exists []. split; [|done].
    unfold events_since. by rewrite app_nil_r.
  - intros s1 s2 s3 [(e1 & H1 & Q1) P1] [(e2 & H2 & Q2) P2].
    split; [|congruence]. exists (e1 ++ e2). unfold events_since in *. split.
    + by rewrite H2, H1, app_assoc.
    + by rewrite forallb_app, Q1, Q2.
Qed.

Lemma sq_modify f :
  (forall s, log (f s) = log s /\ PS_current (f s) = PS_current s) ->
  keeps source_quiet (modify f).
Proof.
  intros H s. destruct (H s) as (Hl & Hp). simpl. split; [|done].
  exists []. split; [|done]. unfold events_since. by rewrite Hl, app_nil_r.
Qed.

Lemma sq_emit e : is_source_event e = false -> keeps source_quiet (emit e).
Proof.
  intros H s. simpl. split; [|done]. exists [e]. split; [done|]. simpl. by rewrite H.
Qed.

Ltac sq_step :=
  match goal with
  | |- keeps source_quiet (emit _) => apply sq_emit; reflexivity
  | |- keeps source_quiet (modify _) => apply sq_modify; by intros ?
  | |- _ => keeps_step
  end.

Ltac sq := repeat sq_step.

Lemma sq_time_sleep {lab} d : keeps source_quiet (time_sleep lab d).
Proof. unfold time_sleep. sq. Qed.

Lemma sq_np_index a i : keeps source_quiet (np_index a i).
Proof. unfold np_index. sq. Qed.

Lemma sq_os_mkdir {lab} p : keeps source_quiet (os_mkdir lab p).
Proof. unfold os_mkdir. sq. Qed.

Lemma sq_LIA_getXY lab : keeps source_quiet (LIA_getXY lab).
Proof. unfold LIA_getXY. sq. Qed.

Lemma sq__make_fig : keeps source_quiet _make_fig.
Proof. unfold _make_fig. sq. Qed.

Lemma sq__update_sweep_plot x a b : keeps source_quiet (_update_sweep_plot x a b).
Proof. unfold _update_sweep_plot. sq. Qed.

Lemma sq_free_path dir f ext : keeps source_quiet (free_path dir f ext).
Proof. intros s. destruct (free_path_ok dir f ext s) as (p & -> & _). reflexivity. Qed.

Lemma sq_open_w {lab} p c : keeps source_quiet (open_w lab p c).
Proof. unfold open_w. sq. Qed.

#[global] Hint Resolve sq_open_w : keeps.

Lemma sq_savefig_to {lab} p : keeps source_quiet (savefig_to lab p).
Proof. unfold savefig_to. sq. Qed.

Lemma sq_plt_close_fig : keeps source_quiet plt_close_fig.
Proof. unfold plt_close_fig. sq. Qed.

Lemma sq_pd_DataFrame c f x y : keeps source_quiet (pd_DataFrame c f x y).
Proof. unfold pd_DataFrame. sq. Qed.

Lemma sq_to_csv {lab} df p : keeps source_quiet (to_csv lab df p).
Proof. unfold to_csv. sq. Qed.

Lemma sq_LIA_SEN_setattr g : keeps source_quiet (LIA_SEN_setattr g).
Proof. unfold LIA_SEN_setattr. sq. Qed.

Lemma sq_LIA_SEN_getattr : keeps source_quiet LIA_SEN_getattr.
Proof. unfold LIA_SEN_getattr. sq. Qed.

Lemma sq_LIA_decrease_sensitivity lab : keeps source_quiet (LIA_decrease_sensitivity lab).
Proof. unfold LIA_decrease_sensitivity. sq. Qed.

#[global] Hint Resolve sq_time_sleep sq_np_index sq_os_mkdir sq_LIA_getXY sq__make_fig
  sq__update_sweep_plot sq_free_path sq_savefig_to sq_plt_close_fig sq_pd_DataFrame
  sq_to_csv sq_LIA_SEN_setattr sq_LIA_SEN_getattr sq_LIA_decrease_sensitivity : keeps.

Lemma sq_readXY_loop lab n : forall rd Xa Ya,
  keeps source_quiet (readXY_loop lab n rd Xa Ya).
Proof. induction n as [|n IH]; intros rd Xa Ya; simpl; sq. Qed.

#[global] Hint Resolve sq_readXY_loop : keeps.

Lemma sq_readXY lab reps rd sd : keeps source_quiet (readXY lab reps rd sd).
Proof. unfold readXY. sq. Qed.

#[global] Hint Resolve sq_readXY : keeps.

Lemma source_quiet_filter evs :
  forallb (fun e => negb (is_source_event e)) evs = true ->
  List.filter is_source_event evs = [].
Proof.
  induction evs as [|e evs IH]; [done|]. simpl.
  intros [He H]%andb_true_iff. destruct (is_source_event e); [done | by apply IH].
Qed.

Lemma PS_set_current_inv lab c s a s' :
  PS_set_current lab c s = (Ok a, s') ->
  events_since s s' [ev_set_current c] /\ PS_current s' = c.
Proof.
  unfold PS_set_current, bind, gets, modify, emit. simpl.
  destruct (set_current_ok lab (n_set_current s)); [|done].
  by intros [= _ <-].
Qed.

Ltac invert_bind H a s' H1 :=
  apply bind_inv_ok in H as (a & s' & H1 & H).

Lemma for_params_source lab params livefig close_loop reps rd sd dl rest :
  forall i vars s vars' s',
    for_params lab params (PS_set_current lab) livefig close_loop reps rd sd dl
      rest i vars s = (Ok vars', s') ->
    exists evs,
      events_since s s' evs /\
      List.filter is_source_event evs = map ev_set_current rest /\
      PS_current s' = default (PS_current s) (last rest).
Proof.
  induction rest as [|param rest IH]; intros i [[xr Xa] Ya] s vars' s' H.
  - cbn [for_params] in H. injection H as _ <-. exists []. split; [|done].
    unfold events_since. by rewrite app_nil_r.
  - cbn [for_params] in H.
    invert_bind H a1 s1 H1. apply PS_set_current_inv in H1 as [E1 P1].
    invert_bind H d s2 H2. injection H2 as <- <-.
    invert_bind H a3 s3 H3. apply (keeps_ok _ _ _ _ _ (sq_time_sleep _)) in H3.
    invert_bind H XY s4 H4. apply (keeps_ok _ _ _ _ _ (sq_readXY _ _ _ _)) in H4.
    invert_bind H vars s5 H5.
    match type of H5 with ?m _ = _ =>
      assert (keeps source_quiet m) as K5 by sq end.
    apply (keeps_ok _ _ _ _ _ K5) in H5. clear K5.
    destruct vars as [[xr' Xa'] Ya'].
    invert_bind H a6 s6 H6.
    match type of H6 with ?m _ = _ =>
      assert (keeps source_quiet m) as K6 by sq end.
    apply (keeps_ok _ _ _ _ _ K6) in H6. clear K6.
    invert_bind H a7 s7 H7.
    apply (keeps_ok _ _ _ _ _ (sq_emit ev_show eq_refl)) in H7.
    apply IH in H as (evs & Hevs & Hfilter & Hlast).
    assert (source_quiet s1 s7) as [(mid & Hmid & Hquiet) Hps].
    { etransitivity; [exact H3|]. etransitivity; [exact H4|].
      etransitivity; [exact H5|]. etransitivity; [exact H6 | exact H7]. }
    exists (ev_set_current param :: mid ++ evs). unfold events_since in *.
    split; [by rewrite Hevs, Hmid, E1, <- !app_assoc|]. split.
    + simpl. rewrite List.filter_app, (source_quiet_filter _ Hquiet), Hfilter. done.
    + rewrite Hlast, Hps, P1, last_cons. by destruct (last rest).
Qed.

Lemma sweep_parameter_source lab params save_dir livefig savefig closefig sen
    sen_delay read_reps rep_delay read_delay xrange filename close_loop s arrs s' :
  _sweep_parameter lab params (PS_set_current lab) save_dir livefig savefig closefig
    sen sen_delay read_reps rep_delay read_delay xrange filename close_loop s
    = (Ok arrs, s') ->
  exists evs,
    events_since s s' evs /\
    List.filter is_source_event evs =
      map ev_set_current params ++ [ev_PS_current (F64.of_Z 0)] /\
    PS_current s' = F64.of_Z 0.
Proof.
  unfold _sweep_parameter. intros H.
  invert_bind H g s1 H1. injection H1 as <- <-.
  invert_bind H a2 s2 H2. apply (keeps_ok _ _ _ _ _ (sq_LIA_SEN_setattr _)) in H2.
  invert_bind H vars s3 H3. apply for_params_source in H3 as (evs & Hevs & Hfilter & _).
  destruct vars as [[xr Xa] Ya].
  invert_bind H a4 s4 H4. injection H4 as _ <-.
  match type of H with ?m _ = _ =>
    assert (keeps source_quiet m) as K by sq end.
  apply (keeps_ok _ _ _ _ _ K) in H. clear K.
  destruct H2 as [(e2 & He2 & Q2) _], H as [(e5 & He5 & Q5) P5].
  exists (e2 ++ evs ++ [ev_PS_current (F64.of_Z 0)] ++ e5). unfold events_since in *.
  simpl in *. split; [by rewrite He5, Hevs, He2, <- !app_assoc|]. split; [|done].
  rewrite !List.filter_app. simpl.
  by rewrite (source_quiet_filter _ Q2), (source_quiet_filter _ Q5), Hfilter.
Qed.

(** X3.  Whenever a sweep returns normally, the commands it has sent to the
    power source are, in this order: the ramp to the first set-point, then one
    [set_current] for each element of the mirrored sequence [fields ++ -fields]
    (converted to a current), then the assignment [self.PS.current = 0]; the
    field sequence was not empty and the source is left at zero. *)
Theorem completed_sweep_source_commands lab fields save_dir filename kw self r self' :
  sweep_field lab fields save_dir filename kw self = (Ok r, self') ->
  exists evs f0,
    events_since self self' evs /\
    fields !! 0 = Some f0 /\
    List.filter is_source_event evs =
      ev_set_current (field2current f0)
      :: map ev_set_current (map field2current (np_concatenate fields (np_neg fields)))
      ++ [ev_PS_current (F64.of_Z 0)] /\
    PS_current self' = F64.of_Z 0.
Proof.
  unfold sweep_field. cbv zeta. intros H.
  invert_bind H disk s1 H1. injection H1 as <- <-.
  invert_bind H a2 s2 H2.
  match type of H2 with ?m _ = _ =>
    assert (keeps source_quiet m) as K by sq end.
  apply (keeps_ok _ _ _ _ _ K) in H2. clear K.
  invert_bind H c0 s3 H3.
  assert (exists f0, fields !! 0 = Some f0 /\ c0 = field2current f0 /\ s3 = s2)
    as (f0 & Hf0 & -> & ->).
  { unfold np_index, np_concatenate in H3. destruct fields as [|f0 fields']; [done|].
    simpl in H3. injection H3 as <- <-. by exists f0. }
  clear H3.
  invert_bind H a4 s4 H4. apply PS_set_current_inv in H4 as [E4 _].
  invert_bind H d s5 H5. injection H5 as <- <-.
  invert_bind H a6 s6 H6. apply (keeps_ok _ _ _ _ _ (sq_time_sleep _)) in H6.
  invert_bind H a7 s7 H7.
  match type of H7 with ?m _ = _ =>
    assert (keeps source_quiet m) as K by sq end.
  apply (keeps_ok _ _ _ _ _ K) in H7. clear K.
  invert_bind H arrs s8 H8. apply sweep_parameter_source in H8 as (evs & Hevs & Hfilter & Hzero).
  destruct arrs as [x_arr y_arr].
  match type of H with ?m _ = _ =>
    assert (keeps source_quiet m) as K by (sq; destruct (bind_kw false (kw_return_XY kw)); sq) end.
  apply (keeps_ok _ _ _ _ _ K) in H. clear K.
  assert (source_quiet s4 s7) as [(e67 & He67 & Q67) _] by (by etransitivity).
  destruct H2 as [(e2 & He2 & Q2) _], H as [(e9 & He9 & Q9) P9].
  exists (e2 ++ [ev_set_current (field2current f0)] ++ e67 ++ evs ++ e9), f0.
  unfold events_since in *. split; [by rewrite He9, Hevs, He67, E4, He2, <- !app_assoc|].
  split; [done|]. split; [|congruence].
  rewrite !List.filter_app. simpl.
  rewrite (source_quiet_filter _ Q2), (source_quiet_filter _ Q67),
    (source_quiet_filter _ Q9), Hfilter. simpl. by rewrite app_nil_r.
Qed.

Lemma completed_sweep_source_commands_witness :
  exists evs f0,
    events_since (init (F64.dec 5 1) ∅)
      (sweep_field demo_lab [F64.of_Z 10] "out" "test" no_kwargs (init (F64.dec 5 1) ∅)).2
      evs /\
    [F64.of_Z 10] !! 0 = Some f0 /\
    List.filter is_source_event evs =
      ev_set_current (field2current f0)
      :: map ev_set_current
           (map field2current (np_concatenate [F64.of_Z 10] (np_neg [F64.of_Z 10])))
      ++ [ev_PS_current (F64.of_Z 0)].
Proof.
  destruct (completed_sweep_source_commands demo_lab [F64.of_Z 10] "out" "test" no_kwargs
              (init (F64.dec 5 1) ∅) None
              (sweep_field demo_lab [F64.of_Z 10] "out" "test" no_kwargs
                 (init (F64.dec 5 1) ∅)).2)
    as (evs & f0 & Hevs & Hf0 & Hsrc & _).
  - vm_compute. reflexivity.
  - exists evs, f0. split; [exact Hevs|]. split; [exact Hf0 | exact Hsrc].
Defined.

(** ** Edge cases of the acquisition routine *)

Lemma readXY_loop_fail lab k : forall n samples rd Xa Ya s,
  k < n ->
  sleepable lab rd = true ->
  mapM (getXY_reply lab) (seq (n_getXY s) k) = Some samples ->
  getXY_reply lab (n_getXY s + k) = None ->
  readXY_loop lab n rd Xa Ya s =
    (Raise InstrumentError,
     set_log (log s ++ sample_events rd samples) (set_n_getXY (n_getXY s + k + 1) s)).
Proof.
  induction k as [|k IH]; intros n samples rd Xa Ya s Hk Hrd Hs Hfail.
  - destruct n as [|n]; [lia|]. simpl in Hs. injection Hs as <-.
    rewrite Nat.add_0_r in Hfail.
    simpl. unfold bind at 1. unfold LIA_getXY, bind, gets, modify, raise. simpl.
    rewrite Hfail. unfold sample_events. simpl.
    destruct s; unfold_setters; simpl. rewrite app_nil_r. repeat f_equal. lia.
  - destruct n as [|n]; [lia|]. simpl in Hs.
    destruct (getXY_reply lab (n_getXY s)) as [XY|] eqn:E; [|done]. simpl in Hs.
    destruct (mapM _ (seq (S (n_getXY s)) k)) as [rest|] eqn:E'; [|done].
    simpl in Hs. injection Hs as <-.
    simpl. rewrite (time_sleep_ok _ Hrd).
    unfold bind at 1. unfold LIA_getXY, bind, gets, modify, emit, ret. simpl.
    rewrite E. simpl.
    match goal with |- readXY_loop _ _ _ _ _ ?s1 = _ =>
      specialize (IH n rest rd (np_append Xa XY.1) (np_append Ya XY.2) s1) end.
    simpl in IH. rewrite IH; [|lia|done|done|].
    + unfold sample_events. destruct s; unfold_setters; simpl.
      rewrite <- !app_assoc. simpl. repeat f_equal. lia.
    + rewrite <- Hfail. f_equal. lia.
Qed.

(** X4.  When the lock-in answers the first [k] reads of an acquisition and
    fails the next one, with [k] below the repetition count, [readXY] ends in
    the instrument error: the [k] samples taken are dropped, the gain is
    neither queried nor changed, and no mean is returned. *)
Theorem readXY_failed_read lab self (reps : option Z) (rd sd : option float64)
    (k : nat) (samples : list (float64 * float64)) :
  let R := _get_read_reps self reps in
  let D := _get_rep_delay self rd in
  (Z.of_nat k < R)%Z ->
  sleepable lab D = true ->
  mapM (getXY_reply lab) (seq (n_getXY self) k) = Some samples ->
  getXY_reply lab (n_getXY self + k) = None ->
  exists self',
    readXY lab reps rd sd self = (Raise InstrumentError, self') /\
    events_since self self' (sample_events D samples) /\
    n_getXY self' = n_getXY self + k + 1 /\
    LIA_SEN self' = LIA_SEN self.
Proof.
  intros R D Hk HD Hs Hfail.
  unfold readXY, bind at 1 2 3, gets. simpl. fold R D.
  unfold bind at 1.
  rewrite (readXY_loop_fail lab k (Z.to_nat R) samples D np_empty np_empty self);
    [|lia|done..].
  eexists. split; [reflexivity|]. by repeat split.
Qed.

Lemma readXY_failed_read_witness :
  let self := init (F64.dec 5 1) ∅ in
  exists self',
    readXY flaky_lockin (Some 5%Z) None None self = (Raise InstrumentError, self') /\
    events_since self self'
      (sample_events (rep_delay self) [(F64.dec 1 1, F64.dec 1 1); (F64.dec 1 1, F64.dec 1 1)]) /\
    n_getXY self' = 3 /\
    LIA_SEN self' = F64.dec 5 1.
Proof.
  intros self.
  destruct (readXY_failed_read flaky_lockin self (Some 5%Z) None None 2
              [(F64.dec 1 1, F64.dec 1 1); (F64.dec 1 1, F64.dec 1 1)])
    as (self' & Hrun & Hev & Hn & Hgain).
  - simpl. lia.
  - vm_compute. reflexivity.
  - reflexivity.
  - reflexivity.
  - exists self'. split; [exact Hrun|]. split; [exact Hev|]. split; [exact Hn | exact Hgain].
Defined.

(** X5.  A repetition count that is zero or negative makes [readXY] read
    nothing: [range] of it is empty, the call returns (NaN, NaN), queries the
    gain once and leaves it as it was. *)
Theorem readXY_nonpositive_reps lab self (reps : option Z) (rd sd : option float64) :
  (_get_read_reps self reps <= 0)%Z ->
  exists self',
    readXY lab reps rd sd self = (Ok (F64.nan, F64.nan), self') /\
    events_since self self' [ev_SEN_query (LIA_SEN self)] /\
    LIA_SEN self' = LIA_SEN self /\
    n_getXY self' = n_getXY self.
Proof.
  intros HR. unfold readXY, bind at 1 2 3, gets. simpl.
  replace (Z.to_nat (_get_read_reps self reps)) with 0 by lia.
  unfold bind, LIA_SEN_getattr, bind, gets, emit, modify, ret. simpl.
  eexists. split; [reflexivity|]. by repeat split.
Qed.

Lemma readXY_nonpositive_reps_witness :
  exists self',
    readXY demo_lab (Some (-3)%Z) None None (init (F64.dec 5 1) ∅)
      = (Ok (F64.nan, F64.nan), self') /\
    n_getXY self' = 0.
Proof.
  destruct (readXY_nonpositive_reps demo_lab (init (F64.dec 5 1) ∅) (Some (-3)%Z) None None)
    as (self' & Hrun & _ & _ & Hn).
  - simpl. lia.
  - exists self'. split; [exact Hrun | exact Hn].
Defined.

(** ** Sweeps without a live figure *)

#[global] Instance figure_untouched_preorder : PreOrder figure_untouched.
Proof.
  split; [by intros s|]. intros s1 s2 s3 H1 H2. unfold figure_untouched in *. congruence.
Qed.

Lemma fu_modify f : (forall s, fig (f s) = fig s) -> keeps figure_untouched (modify f).
Proof. intros H s. apply H. Qed.

Lemma fu_emit e : keeps figure_untouched (emit e).
Proof. by intros s. Qed.

Ltac fu_step :=
  match goal with
  | |- keeps figure_untouched (emit _) => apply fu_emit
  | |- keeps figure_untouched (modify _) => apply fu_modify; by intros ?
  | |- _ => keeps_step
  end.

Ltac fu := repeat fu_step.

Lemma fu_time_sleep {lab} d : keeps figure_untouched (time_sleep lab d).
Proof. unfold time_sleep. fu. Qed.

Lemma fu_np_index a i : keeps figure_untouched (np_index a i).
Proof. unfold np_index. fu. Qed.

Lemma fu_os_mkdir {lab} p : keeps figure_untouched (os_mkdir lab p).
Proof. unfold os_mkdir. fu. Qed.

Lemma fu_PS_set_current lab c : keeps figure_untouched (PS_set_current lab c).
Proof. unfold PS_set_current. fu. Qed.

Lemma fu_PS_current_setattr c : keeps figure_untouched (PS_current_setattr c).
Proof. unfold PS_current_setattr. fu. Qed.

Lemma fu_LIA_getXY lab : keeps figure_untouched (LIA_getXY lab).
Proof. unfold LIA_getXY. fu. Qed.

Lemma fu_LIA_SEN_setattr g : keeps figure_untouched (LIA_SEN_setattr g).
Proof. unfold LIA_SEN_setattr. fu. Qed.

Lemma fu_LIA_SEN_getattr : keeps figure_untouched LIA_SEN_getattr.
Proof. unfold LIA_SEN_getattr. fu. Qed.

Lemma fu_LIA_decrease_sensitivity lab : keeps figure_untouched (LIA_decrease_sensitivity lab).
Proof. unfold LIA_decrease_sensitivity. fu. Qed.

Lemma fu_free_path dir f ext : keeps figure_untouched (free_path dir f ext).
Proof. intros s. destruct (free_path_ok dir f ext s) as (p & -> & _). reflexivity. Qed.

#[global] Hint Resolve fu_time_sleep fu_np_index fu_os_mkdir fu_PS_set_current
  fu_PS_current_setattr fu_LIA_getXY fu_LIA_SEN_setattr fu_LIA_SEN_getattr
  fu_LIA_decrease_sensitivity fu_free_path : keeps.

Lemma fu_readXY_loop lab n : forall rd Xa Ya,
  keeps figure_untouched (readXY_loop lab n rd Xa Ya).
Proof. induction n as [|n IH]; intros rd Xa Ya; simpl; fu. Qed.

#[global] Hint Resolve fu_readXY_loop : keeps.

Lemma fu_readXY lab reps rd sd : keeps figure_untouched (readXY lab reps rd sd).
Proof. unfold readXY. fu. Qed.

#[global] Hint Resolve fu_readXY : keeps.

(** Without [livefig] the stepping loop does not touch the figure. *)
Lemma fu_for_params lab params close_loop reps rd sd dl rest : forall i vars,
  keeps figure_untouched
    (for_params lab params (PS_set_current lab) false close_loop reps rd sd dl rest i vars).
Proof.
  induction rest as [|param rest IH]; intros i [[xrange X_array] Y_array];
    cbn [for_params]; [apply keeps_ret; tc_solve|].
  repeat first
    [ apply IH
    | apply keeps_bind; [tc_solve | | intros ?]
    | fu_step ].
Qed.

Lemma savefig_to_inv {lab} p s u s' :
  savefig_to lab p s = (Ok u, s') ->
  exists x a b, fig s = Some (x, a, b) /\ s' = set_fs (<[p := PngFile x a b]> (fs s)) s.
Proof.
  intros H. destruct (savefig_to_cases lab p s) as [[e He]|(x & a & b & Hf & _ & Hr)].
  - by rewrite He in H.
  - rewrite Hr in H. injection H as _ <-. by exists x, a, b.
Qed.

Lemma to_csv_inv {lab} df p s u s' :
  to_csv lab df p s = (Ok u, s') -> s' = set_fs (<[p := CsvFile df]> (fs s)) s.
Proof.
  intros H. destruct (to_csv_cases lab df p s) as [[e He]|[_ Hr]].
  - by rewrite He in H.
  - rewrite Hr in H. by injection H as _ <-.
Qed.

Lemma free_path_inv dir f ext s p s' :
  free_path dir f ext s = (Ok p, s') -> s' = s /\ fs s !! p = None.
Proof.
  intros H. destruct (free_path_ok dir f ext s) as (p' & Hp & Hfree).
  rewrite Hp in H. by injection H as <- <-.
Qed.

Lemma sweep_parameter_old_figure lab params save_dir closefig sen sen_delay read_reps
    rep_delay read_delay xrange filename close_loop s arrs s' :
  _sweep_parameter lab params (PS_set_current lab) save_dir false true closefig
    sen sen_delay read_reps rep_delay read_delay xrange filename close_loop s
    = (Ok arrs, s') ->
  exists x a b path,
    fig s = Some (x, a, b) /\ fs s !! path = None /\
    fs s' !! path = Some (PngFile x a b).
Proof.
  unfold _sweep_parameter. intros H.
  invert_bind H g s1 H1. injection H1 as <- <-.
  invert_bind H a2 s2 H2.
  pose proof (keeps_ok _ _ _ _ _ (fu_LIA_SEN_setattr _) H2) as F2.
  injection H2 as _ <-.
  invert_bind H vars s3 H3.
  pose proof (keeps_ok _ _ _ _ _ (fu_for_params _ _ _ _ _ _ _ _ _ _) H3) as F3.
  pose proof (keeps_ok _ _ _ _ _ (nz_for_params _ _ _ _ _ _ _ _ _ _ _) H3) as [_ D3].
  destruct vars as [[xr Xa] Ya].
  invert_bind H a4 s4 H4. injection H4 as _ <-.
  invert_bind H p s5 H5. apply free_path_inv in H5 as [-> Hfree].
  invert_bind H a6 s6 H6. apply savefig_to_inv in H6 as (x & a & b & Hfig & ->).
  invert_bind H a7 s7 H7.
  assert (fs s7 = <[p := PngFile x a b]> (fs s3)) as Hfs.
  { simpl in Hfig. destruct closefig; [|by injection H7 as _ <-].
    unfold plt_close_fig, bind, gets in H7. simpl in H7. rewrite Hfig in H7.
    by injection H7 as _ <-. }
  injection H as _ <-.
  exists x, a, b, p. unfold figure_untouched in *. simpl in *.
  split; [congruence|]. split.
  - destruct (D3 p) as [E|[E _]]; [by rewrite <- E | done].
  - by rewrite Hfs, lookup_insert_eq.
Qed.

(** X6.  Whenever a sweep called with [livefig=False] and [savefig] on
    returns normally, the session already had a figure, made by an earlier
    sweep, and the image written under the new name (at a path that was free)
    holds the data of that earlier figure: the loop of this sweep did not
    redraw it. *)
Theorem sweep_without_live_figure_saves_old_one lab fields save_dir filename kw self r self' :
  sweep_field lab fields save_dir filename kw self = (Ok r, self') ->
  bind_kw true (kw_livefig kw) = false ->
  bind_kw true (kw_savefig kw) = true ->
  exists x a b path,
    fig self = Some (x, a, b) /\ fs self !! path = None /\
    fs self' !! path = Some (PngFile x a b).
Proof.
  intros H Hlive Hsave.
  unfold sweep_field in H. cbv zeta in H. rewrite Hlive, Hsave in H.
  invert_bind H disk s1 H1. injection H1 as <- <-.
  invert_bind H a2 s2 H2.
  match type of H2 with ?m _ = _ =>
    assert (keeps figure_untouched m) as K by fu;
    assert (keeps settled m) as K' by keeps end.
  pose proof (keeps_ok _ _ _ _ _ K H2) as F2.
  pose proof (keeps_ok _ _ _ _ _ K' H2) as (_ & _ & D2). clear K K' H2.
  invert_bind H c0 s3 H3.
  assert (s3 = s2) as ->.
  { unfold np_index in H3. destruct (_ !! 0); [by injection H3 as _ <- | done]. }
  clear H3.
  invert_bind H a4 s4 H4.
  pose proof (keeps_ok _ _ _ _ _ (fu_PS_set_current _ _) H4) as F4.
  pose proof (keeps_ok _ _ _ _ _ (settled_PS_set_current _ _) H4) as (_ & _ & D4).
  clear H4.
  invert_bind H d s5 H5. injection H5 as <- <-.
  invert_bind H a6 s6 H6.
  pose proof (keeps_ok _ _ _ _ _ (fu_time_sleep _) H6) as F6.
  pose proof (keeps_ok _ _ _ _ _ (settled_time_sleep _) H6) as (_ & _ & D6).
  clear H6.
  invert_bind H a7 s7 H7. injection H7 as _ <-.
  invert_bind H arrs s8 H8.
  apply sweep_parameter_old_figure in H8 as (x & a & b & path & Hfig & Hfree & Hpng).
  destruct arrs as [x_arr y_arr].
  invert_bind H cf s9 H9.
  assert (s9 = s8) as ->.
  { destruct (bind_kw false (kw_close_loop kw)); [|by injection H9 as _ <-].
    unfold bind, np_index in H9. destruct (_ !! 0); [|done]. simpl in H9.
    destruct (_ !! 0); [|done]. by injection H9 as _ <-. }
  clear H9. destruct cf as [currents fields'].
  invert_bind H csv s10 H10. apply free_path_inv in H10 as [-> Hcsv].
  invert_bind H df s11 H11.
  assert (s11 = s8) as ->.
  { unfold pd_DataFrame in H11. destruct (_ && _); [by injection H11 as _ <- | done]. }
  clear H11.
  invert_bind H a12 s12 H12. apply to_csv_inv in H12 as ->.
  assert (self' = set_fs (<[csv := CsvFile df]> (fs s8)) s8) as ->.
  { destruct (bind_kw false (kw_return_XY kw)); by injection H as _ <-. }
  exists x, a, b, path. unfold figure_untouched in *. split; [congruence|]. split.
  - eapply lookup_weaken_None; [exact Hfree|].
    etransitivity; [exact D2|]. etransitivity; [exact D4 | exact D6].
  - simpl. rewrite lookup_insert_ne; [done|]. intros ->. congruence.
Qed.

Lemma sweep_without_live_figure_saves_old_one_witness :
  let s0 := init (F64.dec 5 1) ∅ in
  let s1 := (sweep_field demo_lab [F64.of_Z 10] "out" "a" no_kwargs s0).2 in
  let kw := mkKwargs Omitted (Given false) Omitted Omitted Omitted Omitted Omitted
              Omitted Omitted Omitted Omitted Omitted in
  let s2 := (sweep_field demo_lab [F64.of_Z 20] "out" "b" kw s1).2 in
  exists x a b path,
    fig s1 = Some (x, a, b) /\ fs s1 !! path = None /\
    fs s2 !! path = Some (PngFile x a b).
Proof.
  intros s0 s1 kw s2.
  apply (sweep_without_live_figure_saves_old_one demo_lab [F64.of_Z 20] "out" "b" kw
           s1 None s2).
  - vm_compute. reflexivity.
  - reflexivity.
  - reflexivity.
Defined.

Lemma PS_set_current_run lab c s :
  set_current_ok lab (n_set_current s) = true ->
  PS_set_current lab c s =
    (Ok tt, set_PS_current c (set_log (log s ++ [ev_set_current c])
              (set_n_set_current (S (n_set_current s)) s))).
Proof. intros H. unfold PS_set_current, bind, gets, modify, emit. simpl. by rewrite H. Qed.

Ltac run_with E :=
  lazymatch goal with
  | |- exists _, bind ?m ?k ?s = _ /\ _ => rewrite (bind_ok m k s _ _ E)
  end.

Ltac run_refl :=
  lazymatch goal with
  | |- exists _, bind ?m ?k ?s = _ /\ _ => rewrite (bind_ok m k s _ _ eq_refl)
  end.

Lemma sweep_parameter_no_figure lab params save_dir savefig closefig sen sen_delay
    read_reps rep_delay read_delay xrange filename close_loop s :
  reliable lab ->
  length params <= length xrange ->
  savefig = true \/ closefig = true ->
  fig s = None ->
  sleepable lab (_get_read_delay s read_delay) = true ->
  sleepable lab (_get_rep_delay s rep_delay) = true ->
  sleepable lab (_get_sen_delay s sen_delay) = true ->
  exists s',
    _sweep_parameter lab params (PS_set_current lab) save_dir false savefig closefig
      sen sen_delay read_reps rep_delay read_delay xrange filename close_loop s
      = (Raise AttributeError, s') /\
    (last (log s') = Some (ev_PS_current (F64.of_Z 0)) /\
     PS_current s' = F64.of_Z 0 /\
     forall p, fs s' !! p = fs s !! p \/ (fs s !! p = None /\ fs s' !! p = Some Directory)).
Proof.
  intros Hlab Hxr Hfigure Hfig Hdl Hrd Hsd. unfold _sweep_parameter.
  run_refl. run_refl.
  match goal with |- context [bind _ _ ?s] => set (s1 := s) end.
  destruct (for_params_ok lab params false close_loop read_reps rep_delay sen_delay
              read_delay Hlab params [] xrange np_empty np_empty s1)
    as (vars & s2 & E2 & _ & S2); try done.
  change (length []) with 0 in E2.
  run_with E2.
  pose proof (keeps_ok _ _ _ _ _ (fu_for_params _ _ _ _ _ _ _ _ _ _) E2) as F2.
  pose proof (keeps_ok _ _ _ _ _ (nz_for_params _ _ _ _ _ _ _ _ _ _ _) E2) as [_ D2].
  destruct vars as [[xr Xa] Ya].
  run_refl.
  match goal with |- context [bind _ _ ?s] => set (s3 := s) end.
  destruct (free_path_ok save_dir filename ".png" s3) as (p & E3 & _).
  run_with E3.
  assert (fig s3 = None) as F3.
  { unfold figure_untouched in F2. simpl in *. congruence. }
  exists s3. split.
  - destruct Hfigure as [-> | ->].
    + apply bind_raise. unfold savefig_to, bind, gets. simpl. simpl in F3. by rewrite F3.
    + destruct savefig.
      * apply bind_raise. unfold savefig_to, bind, gets. simpl. simpl in F3. by rewrite F3.
      * match goal with |- bind ?m ?k ?s = _ => rewrite (bind_ok m k s tt s eq_refl) end.
        apply bind_raise.
        unfold plt_close_fig, bind, gets. simpl. simpl in F3. by rewrite F3.
  - split; [simpl; by rewrite last_snoc|]. split; [done|]. exact D2.
Qed.

(** X7.  On a bench without instrument failures, whose clock takes the
    four delays, with an output path in normal form that is a directory or
    that [os.mkdir] creates, a sweep called with [livefig=False] on a session
    that has no figure yet, with [savefig] (the default) or [closefig] on,
    measures every set-point, zeroes the power source and then ends in
    [AttributeError] at [self.fig]: the last event is the zeroing, no image
    and no table is written (at most the output directory was created), so
    the measured series are lost. *)
Theorem sweep_without_any_figure_loses_data lab fields save_dir filename kw self :
  reliable lab ->
  fields <> [] ->
  tidy_dir save_dir = true ->
  os_path_isdir (fs self) save_dir = true \/ mkdir_ok lab (fs self) save_dir = true ->
  bind_kw true (kw_livefig kw) = false ->
  bind_kw true (kw_savefig kw) = true \/ bind_kw false (kw_closefig kw) = true ->
  fig self = None ->
  sleepable lab (_get_from0delay self (bind_kw None (kw_from0delay kw))) = true ->
  sleepable lab (_get_read_delay self (bind_kw None (kw_read_delay kw))) = true ->
  sleepable lab (_get_rep_delay self (bind_kw None (kw_rep_delay kw))) = true ->
  sleepable lab (_get_sen_delay self (bind_kw None (kw_sen_delay kw))) = true ->
  exists self',
    sweep_field lab fields save_dir filename kw self = (Raise AttributeError, self') /\
    (last (log self') = Some (ev_PS_current (F64.of_Z 0)) /\
     PS_current self' = F64.of_Z 0 /\
     forall p, fs self' !! p = fs self !! p \/
               (fs self !! p = None /\ fs self' !! p = Some Directory)).
Proof.
  intros Hlab Hne _ Hdir Hlive Hfigure Hfig H0d Hdl Hrd Hsd.
  destruct fields as [|f0 fields']; [done|]. clear Hne.
  unfold sweep_field. cbv zeta. rewrite Hlive.
  set (mirror := np_concatenate (f0 :: fields') (np_neg (f0 :: fields'))).
  run_refl.
  assert (exists s1,
    (when negb (os_path_isdir (fs self) save_dir) then os_mkdir lab save_dir) self = (Ok tt, s1)
    /\ no_zero_no_artifact self s1 /\ settled self s1 /\ fig s1 = None)
    as (s1 & E1 & [_ D1] & S1 & F1).
  { destruct (os_path_isdir (fs self) save_dir) eqn:E; simpl.
    - exists self. split; [done|]. split; [reflexivity|]. split; [reflexivity | done].
    - destruct Hdir as [|Hmk]; [done|].
      destruct (settled_os_mkdir (lab := lab) save_dir self Hmk) as ([] & s1 & E1 & _ & S1).
      exists s1. split; [done|].
      split; [exact (keeps_ok _ _ _ _ _ (nz_os_mkdir _) E1)|]. split; [done|].
      pose proof (keeps_ok _ _ _ _ _ (fu_os_mkdir _) E1) as F. by rewrite F. }
  run_with E1. run_refl.
  pose proof Hlab as [Hset _].
  run_with (PS_set_current_run lab (field2current f0) s1 (Hset _)).
  match goal with |- context [bind _ _ ?s] => set (s2 := s) end.
  run_refl.
  destruct (settled_resolvers _ _ S1) as (_ & Esd & _ & Erd & Edl & E0d).
  change (_get_from0delay s2 ?o) with (_get_from0delay s1 o).
  rewrite time_sleep_ok by (by rewrite E0d).
  run_refl.
  match goal with |- context [bind _ _ ?s] => set (s3 := s) end.
  run_refl.
  destruct (sweep_parameter_no_figure lab (map field2current mirror) save_dir
              (bind_kw true (kw_savefig kw)) (bind_kw false (kw_closefig kw))
              (bind_kw (Some (F64.dec 2 3)) (kw_sen kw)) (bind_kw None (kw_sen_delay kw))
              (bind_kw None (kw_read_reps kw)) (bind_kw None (kw_rep_delay kw))
              (bind_kw None (kw_read_delay kw)) mirror filename
              (bind_kw false (kw_close_loop kw)) s3)
    as (s4 & E4 & L4 & P4 & D4); try done.
  { by rewrite length_map. }
  { change (_get_read_delay s3 ?o) with (_get_read_delay s1 o). by rewrite Edl. }
  { change (_get_rep_delay s3 ?o) with (_get_rep_delay s1 o). by rewrite Erd. }
  { change (_get_sen_delay s3 ?o) with (_get_sen_delay s1 o). by rewrite Esd. }
  exists s4. split; [by apply bind_raise|]. split; [done|]. split; [done|].
  by apply (fs_step_trans (fs self) (fs s1) (fs s4)).
Qed.

Lemma sweep_without_any_figure_loses_data_witness :
  exists self',
    sweep_field demo_lab [F64.of_Z 10] "out" "test"
      (mkKwargs Omitted (Given false) Omitted Omitted Omitted Omitted Omitted
         Omitted Omitted Omitted Omitted Omitted) (init (F64.dec 5 1) ∅)
      = (Raise AttributeError, self') /\
    PS_current self' = F64.of_Z 0 /\
    forall df, fs self' !! "out/test.csv" <> Some (CsvFile df).
Proof.
  destruct (sweep_without_any_figure_loses_data demo_lab [F64.of_Z 10] "out" "test"
              (mkKwargs Omitted (Given false) Omitted Omitted Omitted Omitted Omitted
                 Omitted Omitted Omitted Omitted Omitted) (init (F64.dec 5 1) ∅))
    as (self' & Hrun & _ & Hzero & Hdisk).
  - apply reliable_demo_lab.
  - done.
  - vm_compute. reflexivity.
  - right. vm_compute. reflexivity.
  - reflexivity.
  - left. reflexivity.
  - reflexivity.
  - vm_compute. reflexivity.
  - vm_compute. reflexivity.
  - vm_compute. reflexivity.
  - vm_compute. reflexivity.
  - exists self'. split; [exact Hrun|]. split; [exact Hzero|].
    intros df. destruct (Hdisk "out/test.csv") as [E|[_ E]]; by rewrite E.
Defined.

(** ** The image and the table of a completed sweep *)

Lemma update_sweep_plot_inv x a b s u s' :
  _update_sweep_plot x a b s = (Ok u, s') ->
  fig s' = Some (x, a, b) /\ length x = length a /\ length x = length b.
Proof.
  unfold _update_sweep_plot, bind, gets, emit, modify. simpl.
  destruct (fig s); [|done].
  destruct (length x =? length a) eqn:Ea; [|done].
  destruct (length x =? length b) eqn:Eb; [|done]. simpl.
  intros [= _ <-]. apply Nat.eqb_eq in Ea, Eb. done.
Qed.

Lemma take_length_eq {A} (l : list A) n m : length (take n l) = m -> take n l = take m l.
Proof.
  rewrite length_take. intros <-. destruct (decide (n <= length l)).
  - by rewrite Nat.min_l.
  - rewrite Nat.min_r by lia. by rewrite !take_ge by lia.
Qed.

(** With [livefig] the figure shows, after the loop, the series the loop
    returns, against as many points of [xrange] as the series has. *)
Lemma for_params_figure lab params close_loop reps rd sd dl :
  forall rest past xr Xa Ya s vars' s',
    params = past ++ rest -> rest <> [] ->
    for_params lab params (PS_set_current lab) true close_loop reps rd sd dl
      rest (length past) (xr, Xa, Ya) s = (Ok vars', s') ->
    vars'.1.1 = xr ++ (if close_loop then map current2field (take 1 params) else []) /\
    fig s' = Some (take (length vars'.1.2) vars'.1.1, vars'.1.2, vars'.2).
Proof.
  induction rest as [|param rest IH]; intros past xr Xa Ya s vars' s' Hparams Hne H; [done|].
  cbn [for_params] in H.
  invert_bind H a1 s1 H1. clear H1.
  invert_bind H d s2 H2. clear H2.
  invert_bind H a3 s3 H3. clear H3.
  invert_bind H XY s4 H4. clear H4. cbn [fst snd] in H.
  rewrite (last_index_test _ _ _ _ Hparams) in H.
  destruct rest as [|p2 rest].
  - (* the last set-point *)
    destruct close_loop; cbn [andb] in H.
    + invert_bind H vars s5 H5.
      invert_bind H5 p0 s5a Hp0. invert_bind H5 X0 s5b HX0. invert_bind H5 Y0 s5c HY0.
      injection H5 as <- _.
      assert (params !! 0 = Some p0) as Hp.
      { unfold np_index in Hp0. destruct (params !! 0); [by injection Hp0 as -> _ | done]. }
      invert_bind H a6 s6 H6. apply update_sweep_plot_inv in H6 as (Hfig & HlX & _).
      invert_bind H a7 s7 H7. injection H7 as _ <-.
      cbn [for_params] in H. injection H as <- <-. cbn [fst snd]. split.
      * by rewrite (take_1_lookup _ _ Hp).
      * simpl. rewrite Hfig. by rewrite (take_length_eq _ _ _ HlX).
    + invert_bind H vars s5 H5. injection H5 as <- _.
      invert_bind H a6 s6 H6. apply update_sweep_plot_inv in H6 as (Hfig & HlX & _).
      invert_bind H a7 s7 H7. injection H7 as _ <-.
      cbn [for_params] in H. injection H as <- <-. cbn [fst snd]. split.
      * by rewrite app_nil_r.
      * simpl. rewrite Hfig. by rewrite (take_length_eq _ _ _ HlX).
  - rewrite andb_false_r in H.
    invert_bind H vars s5 H5. injection H5 as <- _.
    invert_bind H a6 s6 H6. clear H6.
    invert_bind H a7 s7 H7. clear H7.
    replace (S (length past)) with (length (past ++ [param])) in H
      by (rewrite length_app; simpl; lia).
    apply IH in H; [done | by rewrite <- app_assoc | done].
Qed.

Lemma sweep_parameter_figure lab params save_dir closefig sen sen_delay read_reps
    rep_delay read_delay xrange filename close_loop s X_array Y_array s' :
  params <> [] ->
  _sweep_parameter lab params (PS_set_current lab) save_dir true true closefig
    sen sen_delay read_reps rep_delay read_delay xrange filename close_loop s
    = (Ok (X_array, Y_array), s') ->
  exists path,
    fs s !! path = None /\
    fs s' !! path =
      Some (PngFile
              (take (length X_array)
                 (xrange ++ (if close_loop then map current2field (take 1 params) else [])))
              X_array Y_array).
Proof.
  unfold _sweep_parameter. intros Hne H.
  invert_bind H g s1 H1. injection H1 as <- <-.
  invert_bind H a2 s2 H2.
  pose proof (keeps_ok _ _ _ _ _ (settled_LIA_SEN_setattr _) H2) as (_ & _ & D2). clear H2.
  invert_bind H vars s3 H3.
  pose proof (keeps_ok _ _ _ _ _ (settled_for_params _ _ _ _ _ _ _ _ _ _ _) H3)
    as (_ & _ & D3).
  apply (for_params_figure lab params close_loop read_reps rep_delay sen_delay read_delay
           params [] xrange np_empty np_empty s2 vars s3 eq_refl Hne) in H3
    as [Hxr Hfig].
  destruct vars as [[xr Xa] Ya]. cbn [fst snd] in Hxr, Hfig. subst xr.
  invert_bind H a4 s4 H4. injection H4 as _ <-.
  invert_bind H p s5 H5. apply free_path_inv in H5 as [-> Hfree].
  invert_bind H a6 s6 H6. apply savefig_to_inv in H6 as (x & a & b & Hfig' & ->).
  simpl in Hfig'. rewrite Hfig in Hfig'. injection Hfig' as <- <- <-.
  invert_bind H a7 s7 H7.
  assert (fs s7 = <[p := PngFile (take (length Xa)
            (xrange ++ (if close_loop then map current2field (take 1 params) else [])))
            Xa Ya]> (fs s3)) as Hfs.
  { destruct closefig; [|by injection H7 as _ <-].
    unfold plt_close_fig, bind, gets in H7. simpl in H7. rewrite Hfig in H7.
    by injection H7 as _ <-. }
  injection H as <- <- <-. exists p. split.
  - eapply lookup_weaken_None; [exact Hfree|]. simpl. by etransitivity.
  - by rewrite Hfs, lookup_insert_eq.
Qed.

(** X8.  Whenever a sweep called with [livefig] and [savefig] on (the
    defaults) returns normally, it has written an image and a table to two
    different paths that were both free, and the two agree: the two curves of
    the image are the X and Y columns of the table, drawn against the mirrored
    field sequence, which is the field column of the table.  When the loop is
    closed the last abscissa of the image is
    [current2field (field2current fields[0])] while the table repeats
    [fields[0]] itself. *)
Theorem completed_sweep_image_matches_table lab fields save_dir filename kw self r self' :
  let close_loop := bind_kw false (kw_close_loop kw) in
  let mirror := np_concatenate fields (np_neg fields) in
  sweep_field lab fields save_dir filename kw self = (Ok r, self') ->
  bind_kw true (kw_livefig kw) = true ->
  bind_kw true (kw_savefig kw) = true ->
  exists png csv df f0,
    fields !! 0 = Some f0 /\
    fs self !! png = None /\ fs self !! csv = None /\ png <> csv /\
    fs self' !! csv = Some (CsvFile df) /\
    fs self' !! png =
      Some (PngFile
              (mirror ++ (if close_loop then [current2field (field2current f0)] else []))
              (col_X df) (col_Y df)) /\
    field_Oe df = mirror ++ (if close_loop then [f0] else []) /\
    current_A df = map field2current (field_Oe df).
Proof.
  intros close_loop mirror H Hlive Hsave.
  unfold sweep_field in H. cbv zeta in H. rewrite Hlive, Hsave in H.
  fold close_loop mirror in H. clearbody close_loop.
  invert_bind H disk s1 H1. injection H1 as <- <-.
  invert_bind H a2 s2 H2.
  match type of H2 with ?m _ = _ => assert (keeps settled m) as K by keeps end.
  pose proof (keeps_ok _ _ _ _ _ K H2) as (_ & _ & D2). clear K H2.
  invert_bind H c0 s3 H3.
  assert (exists f0 rest, fields = f0 :: rest /\ c0 = field2current f0 /\ s3 = s2)
    as (f0 & rest & Hfields & -> & ->).
  { unfold np_index in H3. destruct fields as [|f0 rest]; [done|].
    simpl in H3. injection H3 as <- <-. by exists f0, rest. }
  clear H3.
  invert_bind H a4 s4 H4.
  pose proof (keeps_ok _ _ _ _ _ (settled_PS_set_current _ _) H4) as (_ & _ & D4). clear H4.
  invert_bind H d s5 H5. injection H5 as <- <-.
  invert_bind H a6 s6 H6.
  pose proof (keeps_ok _ _ _ _ _ (settled_time_sleep _) H6) as (_ & _ & D6). clear H6.
  invert_bind H a7 s7 H7.
  pose proof (keeps_ok _ _ _ _ _ settled__make_fig H7) as (_ & _ & D7). clear H7.
  invert_bind H arrs s8 H8. destruct arrs as [x_arr y_arr].
  pose proof (keeps_ok _ _ _ _ _
                (settled_sweep_parameter _ _ _ _ _ _ _ _ _ _ _ _ _ _) H8) as (_ & _ & D8).
  apply sweep_parameter_figure in H8 as (png & Hfree & Hpng);
    [|subst fields; done].
  invert_bind H cf s9 H9.
  assert (cf = (map field2current (mirror ++ (if close_loop then [f0] else [])),
                mirror ++ (if close_loop then [f0] else [])) /\ s9 = s8) as [-> ->].
  { assert (mirror !! 0 = Some f0) as Hm0 by (subst mirror fields; done).
    assert (map field2current mirror !! 0 = Some (field2current f0)) as Hc0
      by (subst mirror fields; done).
    destruct close_loop.
    - unfold bind, np_index in H9. rewrite Hc0, Hm0 in H9. unfold ret in H9.
      injection H9 as <- <-. split; [|done]. unfold np_append. by rewrite map_app.
    - injection H9 as <- <-. by rewrite app_nil_r. }
  clear H9.
  invert_bind H csv s10 H10. apply free_path_inv in H10 as [-> Hcsv].
  invert_bind H df s11 H11.
  assert (df = mkDataFrame
                 (map field2current (mirror ++ (if close_loop then [f0] else [])))
                 (mirror ++ (if close_loop then [f0] else [])) x_arr y_arr /\
          length x_arr = length (mirror ++ (if close_loop then [f0] else [])) /\
          s11 = s8) as (-> & Hlen & ->).
  { unfold pd_DataFrame in H11.
    destruct (length _ =? length _) eqn:E1; [|done].
    destruct (length x_arr =? length _) eqn:E2; [|done].
    destruct (length y_arr =? length _) eqn:E3; [|done].
    simpl in H11. injection H11 as <- <-. apply Nat.eqb_eq in E2.
    by rewrite length_map in E2. }
  clear H11.
  invert_bind H a12 s12 H12. apply to_csv_inv in H12 as ->.
  assert (self' = set_fs (<[csv := CsvFile (mkDataFrame
                 (map field2current (mirror ++ (if close_loop then [f0] else [])))
                 (mirror ++ (if close_loop then [f0] else [])) x_arr y_arr)]> (fs s8)) s8)
    as ->.
  { destruct (bind_kw false (kw_return_XY kw)); by injection H as _ <-. }
  assert (fs self ⊆ fs s7) as D07.
  { etransitivity; [exact D2|]. etransitivity; [exact D4|]. by etransitivity. }
  assert (png <> csv) as Hne by (intros ->; congruence).
  assert (take (length x_arr)
            (mirror ++ (if close_loop
                        then map current2field (take 1 (map field2current mirror))
                        else []))
          = mirror ++ (if close_loop then [current2field (field2current f0)] else []))
    as Htake.
  { replace (map current2field (take 1 (map field2current mirror)))
      with [current2field (field2current f0)] by (subst mirror fields; done).
    apply take_ge. rewrite Hlen, !length_app. by destruct close_loop. }
  rewrite Htake in Hpng.
  exists png, csv,
    (mkDataFrame (map field2current (mirror ++ (if close_loop then [f0] else [])))
       (mirror ++ (if close_loop then [f0] else [])) x_arr y_arr), f0.
  cbn [col_X col_Y field_Oe current_A fs set_fs].
  split; [by subst fields|]. split; [by eapply lookup_weaken_None|].
  split.
  { eapply lookup_weaken_None; [exact Hcsv|]. by etransitivity. }
  split; [done|]. split; [by rewrite lookup_insert_eq|].
  split; [by rewrite lookup_insert_ne|]. done.
Qed.

Lemma completed_sweep_image_matches_table_witness :
  let kw := mkKwargs (Given true) Omitted Omitted Omitted Omitted Omitted Omitted
              Omitted Omitted Omitted Omitted Omitted in
  let self := init (F64.dec 5 1) ∅ in
  let self' := (sweep_field demo_lab [F64.of_Z 10] "out" "test" kw self).2 in
  exists png csv df,
    png <> csv /\
    fs self' !! csv = Some (CsvFile df) /\
    fs self' !! png =
      Some (PngFile
              [F64.of_Z 10; F64.neg (F64.of_Z 10);
               current2field (field2current (F64.of_Z 10))]
              (col_X df) (col_Y df)) /\
    field_Oe df = [F64.of_Z 10; F64.neg (F64.of_Z 10); F64.of_Z 10].
Proof.
  intros kw self self'.
  destruct (completed_sweep_image_matches_table demo_lab [F64.of_Z 10] "out" "test" kw
              self None self')
    as (png & csv & df & f0 & Hf0 & _ & _ & Hne & Hcsv & Hpng & Hfield & _).
  - vm_compute. reflexivity.
  - reflexivity.
  - reflexivity.
  - injection Hf0 as <-. exists png, csv, df.
    split; [exact Hne|]. split; [exact Hcsv|]. split; [exact Hpng | exact Hfield].
Defined.

(** ** Symmetry of the unit converters *)

(** Rounding to nearest even does not look at the sign. *)
Lemma binary_round_aux_opp s m e l :
  SFopp (binary_round_aux F64.prec F64.emax s m e l)
  = binary_round_aux F64.prec F64.emax (negb s) m e l.
Proof.
  unfold binary_round_aux.
  destruct (shr_fexp _ _ m e l) as [mrs' e'].
  destruct (shr_fexp _ _ _ e' loc_Exact) as [mrs'' e''].
  destruct (shr_m mrs'') as [|p|p]; [done | | done].
  by destruct (e'' <=? F64.emax - F64.prec)%Z.
Qed.

Lemma div_neg_l x y : F64.div (F64.neg x) y = F64.neg (F64.div x y).
Proof.
  unfold F64.div, F64.neg.
  destruct x as [sx|sx| |sx mx ex], y as [sy|sy| |sy my ey]; try done;
    try (by destruct sx, sy).
  unfold SFdiv, SFopp at 1.
  destruct (SFdiv_core_binary _ _ _ _ _ _) as [[mz ez] lz].
  rewrite binary_round_aux_opp. by destruct sx, sy.
Qed.

Lemma mul_neg_l x y : F64.mul (F64.neg x) y = F64.neg (F64.mul x y).
Proof.
  unfold F64.mul, F64.neg.
  destruct x as [sx|sx| |sx mx ex], y as [sy|sy| |sy my ey]; try done;
    try (by destruct sx, sy).
  unfold SFmul, SFopp at 1. rewrite binary_round_aux_opp. by destruct sx, sy.
Qed.

(** X9.  The two unit converters are odd functions on binary64: converting
    the negated value gives exactly the negation of the converted value, for
    every float (zeros, infinities and NaN included), since rounding to
    nearest even is symmetric. *)
Theorem converters_are_odd x :
  field2current (F64.neg x) = F64.neg (field2current x) /\
  current2field (F64.neg x) = F64.neg (current2field x).
Proof. split; [apply div_neg_l | apply mul_neg_l]. Qed.

(** X10.  The currents of a sweep (lines 211-212) are the currents of the
    given field sequence followed by their exact negations, in the same
    order: the second half of the sweep mirrors the first half in the
    commanded current, not only in the nominal field. *)
Theorem mirrored_currents_are_negated fields :
  map field2current (np_concatenate fields (np_neg fields))
  = np_concatenate (map field2current fields) (np_neg (map field2current fields)).
Proof.
  unfold np_concatenate, np_neg. rewrite map_app, !map_map. f_equal.
  apply map_ext. intros x. apply div_neg_l.
Qed.

(** ** A delay that [time.sleep] refuses *)

Lemma time_sleep_refused {lab} d e s :
  sleep_refusal d = Some e -> time_sleep lab d s = (Raise e, s).
Proof.
  unfold sleep_refusal, time_sleep. destruct (is_nan d); [by intros [= <-]|].
  destruct (in_time_range d); cbn [negb]; [|by intros [= <-]].
  destruct (F64.ltb d F64.zero); [by intros [= <-] | done].
Qed.

(** X11.  A from-zero delay that [time.sleep] refuses, given as keyword or
    taken from the session default, makes the sweep end in the error of
    [time.sleep] ([ValueError] for a negative length or NaN, [OverflowError]
    for a length out of the range of the clock type) right after the ramp
    command went out: the only event is that [set_current], the power source
    is left at the first set-point, the lock-in is untouched and nothing is
    measured. *)
Theorem sweep_refused_from0delay lab fields save_dir filename kw self f0 e :
  fields !! 0 = Some f0 ->
  tidy_dir save_dir = true ->
  os_path_isdir (fs self) save_dir = true \/ mkdir_ok lab (fs self) save_dir = true ->
  set_current_ok lab (n_set_current self) = true ->
  sleep_refusal (_get_from0delay self (bind_kw None (kw_from0delay kw))) = Some e ->
  exists self',
    sweep_field lab fields save_dir filename kw self = (Raise e, self') /\
    (events_since self self' [ev_set_current (field2current f0)] /\
     PS_current self' = field2current f0 /\
     LIA_SEN self' = LIA_SEN self /\
     n_getXY self' = n_getXY self).
Proof.
  intros Hf0 _ Hdir Hset Hd.
  destruct fields as [|f0' fields']; [done|]. injection Hf0 as ->.
  unfold sweep_field. cbv zeta.
  run_refl.
  assert (exists s1,
    (when negb (os_path_isdir (fs self) save_dir) then os_mkdir lab save_dir) self = (Ok tt, s1)
    /\ log s1 = log self /\ n_set_current s1 = n_set_current self /\
    from0delay s1 = from0delay self /\ LIA_SEN s1 = LIA_SEN self /\
    n_getXY s1 = n_getXY self) as (s1 & E1 & L1 & N1 & D1 & G1 & X1).
  { destruct (os_path_isdir (fs self) save_dir) eqn:E; simpl.
    - by exists self.
    - destruct Hdir as [|Hmk]; [done|].
      destruct (os_mkdir_ok _ _ _ Hmk) as [_ ->]. by eexists. }
  run_with E1. run_refl.
  rewrite <- N1 in Hset.
  run_with (PS_set_current_run lab (field2current f0) s1 Hset).
  run_refl.
  eexists. split.
  - apply bind_raise. apply time_sleep_refused.
    unfold _get_from0delay in *. simpl. by rewrite D1.
  - unfold events_since. simpl. by rewrite L1.
Qed.

Lemma sweep_refused_from0delay_witness :
  exists self',
    sweep_field demo_lab [F64.of_Z 10] "out" "test"
      (mkKwargs Omitted Omitted Omitted Omitted Omitted Omitted Omitted Omitted Omitted
         Omitted (Given (Some (F64.neg (F64.of_Z 1)))) Omitted)
      (init (F64.dec 5 1) ∅) = (Raise ValueError, self') /\
    PS_current self' = field2current (F64.of_Z 10).
Proof.
  destruct (sweep_refused_from0delay demo_lab [F64.of_Z 10] "out" "test"
    (mkKwargs Omitted Omitted Omitted Omitted Omitted Omitted Omitted Omitted Omitted
       Omitted (Given (Some (F64.neg (F64.of_Z 1)))) Omitted)
    (init (F64.dec 5 1) ∅) (F64.of_Z 10) ValueError) as (self' & Hrun & _ & Hps & _).
  - reflexivity.
  - vm_compute. reflexivity.
  - right. vm_compute. reflexivity.
  - reflexivity.
  - vm_compute. reflexivity.
  - exists self'. split; [exact Hrun | exact Hps].
Defined.

(** ** The renaming loop, in general *)

(** X12.  The renaming loop of lines 230-235 and 285-290 terminates on
    every disk and changes nothing: after [k] rounds, with [k] at most the
    number of paths on the disk, it yields the first candidate of the
    sequence name, name_(1), name_(1)_(2), ... whose path is not on the disk;
    all earlier candidates are on the disk. *)
Theorem renaming_loop_ends_on_first_free dir filename ext s :
  exists k,
    k <= size (fs s) /\
    free_path dir filename ext s
      = (Ok (os_path_join dir (renamed filename 1 k +:+ ext)), s) /\
    fs s !! os_path_join dir (renamed filename 1 k +:+ ext) = None /\
    forall j, j < k ->
      is_Some (fs s !! os_path_join dir (renamed filename 1 j +:+ ext)).
Proof.
  unfold free_path, bind, gets. cbv beta match.
  destruct (while_exists_total (fs s) dir ext (S (size (fs s))) filename 1)
    as [[f p] Hfp].
  { pose proof (longer_on_disk_size (fs s) (os_path_join dir (filename +:+ ext))). lia. }
  rewrite Hfp. apply while_exists_rounds in Hfp as (k & Hk & -> & -> & Hfree & Hbusy).
  exists k. split; [lia|]. by repeat split.
Qed.

(** ** Completed sweeps, in general *)

(** X13.  On a bench without instrument failures, for every non-empty
    field sequence of N elements, with delays that [time.sleep] and the host
    accept, a plain file name (no separator, no NUL), an output directory
    given by a tidy path that is a directory or that [os.mkdir] can create
    (free, parent a directory), a host that lets the candidate file names be
    written, and a figure available when one is used, [sweep_field] returns
    and has written, to a path that was free,
    a table of 2N rows (2N+1 when the loop is closed) whose four columns have
    that length: the field column is [fields ++ -fields] (with [fields[0]]
    appended when closed), the current column is its conversion, and when
    closed the last X and Y repeat the first ones.  The value returned is the
    pair of the X and Y columns when [return_XY] is on, [None] otherwise. *)
Theorem sweep_completes_on_reliable_bench lab fields save_dir filename kw self :
  let close_loop := bind_kw false (kw_close_loop kw) in
  let livefig := bind_kw true (kw_livefig kw) in
  let savefig := bind_kw true (kw_savefig kw) in
  let closefig := bind_kw false (kw_closefig kw) in
  let return_XY := bind_kw false (kw_return_XY kw) in
  reliable lab ->
  fields <> [] ->
  tidy_dir save_dir = true ->
  tidy_name filename = true ->
  os_path_isdir (fs self) save_dir = true \/ mkdir_ok lab (fs self) save_dir = true ->
  host_writes lab save_dir filename (S (S (size (fs self)))) ->
  livefig = true \/ is_Some (fig self) \/ (savefig = false /\ closefig = false) ->
  sleepable lab (_get_from0delay self (bind_kw None (kw_from0delay kw))) = true ->
  sleepable lab (_get_read_delay self (bind_kw None (kw_read_delay kw))) = true ->
  sleepable lab (_get_rep_delay self (bind_kw None (kw_rep_delay kw))) = true ->
  sleepable lab (_get_sen_delay self (bind_kw None (kw_sen_delay kw))) = true ->
  exists r self' path df,
    sweep_field lab fields save_dir filename kw self = (Ok r, self') /\
    fs self !! path = None /\
    fs self' !! path = Some (CsvFile df) /\
    nrows df = 2 * length fields + (if close_loop then 1 else 0) /\
    length (field_Oe df) = nrows df /\
    length (col_X df) = nrows df /\
    length (col_Y df) = nrows df /\
    field_Oe df = fields ++ np_neg fields ++ (if close_loop then take 1 fields else []) /\
    current_A df = map field2current (field_Oe df) /\
    (close_loop = true ->
       last (col_X df) = head (col_X df) /\ last (col_Y df) = head (col_Y df)) /\
    r = (if return_XY then Some (col_X df, col_Y df) else None).
Proof.
  intros close_loop livefig savefig closefig return_XY Hlab Hne Htd Htn Hdir Hhost Hfig
    H0d Hdl Hrd Hsd.
  destruct (sweep_field_ok lab fields save_dir filename kw self Hlab Hne Htd Htn Hdir
              Hhost Hfig H0d Hdl Hrd Hsd)
    as (r & self' & Hrun & (xs & ys & plan & path & Hxs & Hys & Hr & Hplan & Hfree & Hcsv) & _).
  fold close_loop return_XY in Hr, Hplan, Hcsv.
  assert (plan = fields ++ np_neg fields ++ (if close_loop then take 1 fields else []))
    as ->.
  { unfold sweep_plan in Hplan. destruct fields as [|f0 fields']; [done|].
    destruct close_loop.
    - unfold bind, np_index in Hplan. simpl in Hplan. injection Hplan as <-.
      unfold np_append, np_concatenate. simpl. by rewrite <- app_assoc.
    - injection Hplan as <-. unfold np_concatenate. by rewrite app_nil_r. }
  assert (length (if close_loop then take 1 fields else []) = if close_loop then 1 else 0)
    as Hc.
  { destruct close_loop; [|done]. destruct fields; [done|]. done. }
  assert (forall l : list float64, length l = 2 * length fields ->
            length (l ++ (if close_loop then take 1 l else []))
            = 2 * length fields + (if close_loop then 1 else 0)) as Hl.
  { intros l E. rewrite length_app, E. destruct close_loop; [|done].
    rewrite length_take. assert (0 < length fields) by (destruct fields; [done | simpl; lia]).
    lia. }
  eexists r, self', path, _. split; [exact Hrun|]. split; [exact Hfree|].
  split; [exact Hcsv|]. unfold nrows. cbn [current_A field_Oe col_X col_Y].
  assert (length (map field2current
            (fields ++ np_neg fields ++ (if close_loop then take 1 fields else [])))
          = 2 * length fields + (if close_loop then 1 else 0)) as Hrows.
  { unfold np_neg. rewrite length_map, !length_app, length_map, Hc. lia. }
  rewrite Hrows. split; [done|].
  split; [by rewrite length_map in Hrows|].
  split; [by apply Hl|]. split; [by apply Hl|]. split; [done|]. split; [done|].
  split; [|done].
  intros ->. split.
  - destruct xs as [|x xs']; [destruct fields; simpl in *; done|].
    simpl. rewrite take_0. by rewrite last_cons, last_snoc.
  - destruct ys as [|y ys']; [destruct fields; simpl in *; done|].
    simpl. rewrite take_0. by rewrite last_cons, last_snoc.
Qed.

Lemma sweep_completes_on_reliable_bench_witness :
  exists r self' path df,
    sweep_field demo_lab [F64.of_Z 10; F64.of_Z 20; F64.of_Z 30] "out" "test" no_kwargs
      (init (F64.dec 5 1) ∅) = (Ok r, self') /\
    fs self' !! path = Some (CsvFile df) /\
    nrows df = 6 /\
    field_Oe df = [F64.of_Z 10; F64.of_Z 20; F64.of_Z 30;
                   F64.neg (F64.of_Z 10); F64.neg (F64.of_Z 20); F64.neg (F64.of_Z 30)].
Proof.
  destruct (sweep_completes_on_reliable_bench demo_lab
              [F64.of_Z 10; F64.of_Z 20; F64.of_Z 30] "out" "test" no_kwargs
              (init (F64.dec 5 1) ∅))
    as (r & self' & path & df & Hrun & _ & Hcsv & Hrows & _ & _ & _ & Hfield & _).
  - apply reliable_demo_lab.
  - done.
  - vm_compute. reflexivity.
  - vm_compute. reflexivity.
  - right. vm_compute. reflexivity.
  - intros k ext _. reflexivity.
  - left. reflexivity.
  - vm_compute. reflexivity.
  - vm_compute. reflexivity.
  - vm_compute. reflexivity.
  - vm_compute. reflexivity.
  - exists r, self', path, df. split; [exact Hrun|]. split; [exact Hcsv|].
    split; [exact Hrows | exact Hfield].
Defined.

(** ** Time strings are told apart *)

(** Two strings of digits, each followed by a character that is not a
    digit, are equal when what they begin is equal. *)
Lemma digits_then_separator a : forall a' c c' r r',
  all_digits a = true -> all_digits a' = true ->
  is_digit c = false -> is_digit c' = false ->
  a +:+ String c r = a' +:+ String c' r' -> a = a' /\ String c r = String c' r'.
Proof.
  induction a as [|d a IH]; intros [|d' a'] c c' r r' Ha Ha' Hc Hc' H; simpl in *.
  - done.
  - injection H as -> _. apply andb_true_iff in Ha' as [Hd _]. congruence.
  - injection H as <- _. apply andb_true_iff in Ha as [Hd _]. congruence.
  - injection H as -> H. apply andb_true_iff in Ha as [_ Ha].
    apply andb_true_iff in Ha' as [_ Ha'].
    destruct (IH a' c c' r r' Ha Ha' Hc Hc' H) as [-> ?]. done.
Qed.

Lemma append_assoc (a b c : string) : (a +:+ b) +:+ c = a +:+ (b +:+ c).
Proof.
  induction a as [|x a IH]; [done|].
  change (String x ((a +:+ b) +:+ c) = String x (a +:+ (b +:+ c))). by rewrite IH.
Qed.

Lemma append_cancel_l (p a b : string) : p +:+ a = p +:+ b -> a = b.
Proof. induction p as [|c p IH]; simpl; [done|]. intros [= H]. by apply IH. Qed.

Ltac split_field H :=
  apply digits_then_separator in H as [?%(inj pretty) [= H]];
    [| apply pretty_nat_digits | apply pretty_nat_digits | done | done].

Lemma timestring_with_tail_inj a b c r :
  is_digit c = false ->
  _get_timestring a +:+ String c r = _get_timestring b +:+ String c r -> a = b.
Proof.
  intros Hc H. unfold _get_timestring in H. rewrite !append_assoc in H.
  simpl in H.
  do 5 split_field H.
  apply digits_then_separator in H as [?%(inj pretty) _];
    [| apply pretty_nat_digits | apply pretty_nat_digits | done | done].
  destruct a, b; simpl in *; congruence.
Qed.

Lemma timestring_inj a b : _get_timestring a = _get_timestring b -> a = b.
Proof.
  intros H. apply (timestring_with_tail_inj a b "."%char ""); [done|]. by rewrite H.
Qed.

(** X14.  Two clock readings that differ in any of year, month, day, hour,
    minute or second give different time strings, although the fields are
    written without padding; hence different [__str__] texts and different
    default log file paths: sessions started in different seconds never share
    a default log file. *)
Theorem timestrings_tell_seconds_apart a b :
  a <> b ->
  _get_timestring a <> _get_timestring b /\
  __str__ a <> __str__ b /\
  default_logFilePath a <> default_logFilePath b.
Proof.
  intros Hne. split; [|split].
  - intros H. by apply Hne, timestring_inj.
  - intros H. by apply Hne, timestring_inj, (append_cancel_l "MOKE Experiment @ ").
  - intros H. apply append_cancel_l in H.
    by apply Hne, (timestring_with_tail_inj a b "."%char "log").
Qed.

Lemma timestrings_tell_seconds_apart_witness :
  _get_timestring (mkDatetime 2024 1 11 9 30 0)
    <> _get_timestring (mkDatetime 2024 11 1 9 30 0) /\
  _get_timestring (mkDatetime 2024 1 11 9 30 0) = "2024-1-11_9-30-0".
Proof.
  split; [|vm_compute; reflexivity].
  apply (timestrings_tell_seconds_apart (mkDatetime 2024 1 11 9 30 0)
           (mkDatetime 2024 11 1 9 30 0)).
  discriminate.
Defined.

(** ** An output path that is taken *)

(** X15.  When the output path exists and is not a directory, the sweep
    ends in the [FileExistsError] of [os.mkdir] before anything else happens:
    no instrument is commanded, nothing is measured and the state is
    unchanged. *)
Theorem sweep_output_path_taken lab fields save_dir filename kw self (n : node) :
  fs self !! save_dir = Some n ->
  n <> Directory ->
  sweep_field lab fields save_dir filename kw self = (Raise FileExistsError, self).
Proof.
  intros Hn Hne. unfold sweep_field. cbv zeta.
  rewrite (bind_ok (gets fs) _ self (fs self) self eq_refl).
  apply bind_raise.
  assert (os_path_isdir (fs self) save_dir = false) as ->.
  { unfold os_path_isdir. rewrite Hn. by destruct n. }
  simpl. unfold os_mkdir, bind, gets.
  assert (os_path_exists (fs self) save_dir = true) as ->; [|done].
  apply os_path_exists_spec. by eexists.
Qed.

Lemma sweep_output_path_taken_witness :
  sweep_field demo_lab [F64.of_Z 10] "out" "test" no_kwargs
    (init (F64.dec 5 1) {[ "out" := OtherFile ]})
  = (Raise FileExistsError, init (F64.dec 5 1) {[ "out" := OtherFile ]}).
Proof.
  apply (sweep_output_path_taken demo_lab [F64.of_Z 10] "out" "test" no_kwargs
           (init (F64.dec 5 1) {[ "out" := OtherFile ]}) OtherFile).
  - vm_compute. reflexivity.
  - discriminate.
Defined.
